(** * Formula engine of the spreadsheet editor: a shallow embedding

    The development follows the source files of the repository:
    - [src/utils/cellHelpers.js]   (module [CellHelpers]),
    - [src/utils/FormulaParser.js] (module [FormulaParser], first revision
      of the file, the one with the logical, text and date functions),
    - [src/hooks/useSpreadsheetOperations.js] (module [Operations]).

    JavaScript strings are modelled as [string] (8-bit characters; the
    conversions of case act on the ASCII letters), the rows and columns
    that the code keeps in JS numbers as [Z] (the code's arithmetic is
    exact on the integers up to 2^53 and rounds beyond: the facts about
    rows and columns are stated up to [Js.MAX_SAFE_INTEGER]), other JS
    numbers as binary64 floats ([PrimFloat.float]), JS [Set]s and [Map]s as
    duplicate-free lists kept in insertion order. What the code takes
    from the mathjs library and from the language ([math.evaluate],
    [parseFloat], the conversions between numbers and strings) is a
    parameter of the model, record [FormulaParser.Host]. A thrown error
    that the code catches is modelled by the value that the handler
    returns; [None] stands for a recursion that does not end within the
    fuel given. In the propagation of the hook, whose recursion has no
    bound of its own, the fuel is the room on the call stack: a call
    without room throws, and the handler of the caller runs. *)

From Stdlib Require Import String Ascii List ZArith NArith Bool Lia PeanoNat.
From Stdlib Require Import DecimalString DecimalN DecimalZ DecimalFacts DecimalPos.
From Stdlib Require Import PrimFloat Uint63 FloatOps SpecFloat.
Import ListNotations.

Local Open Scope string_scope.
Local Open Scope Z_scope.

(** ** Characters and strings as the JavaScript code uses them *)

Module Js.

Definition charCode (c : ascii) : Z := Z.of_N (N_of_ascii c).

(** [String.fromCharCode] on codes below 256. *)
Definition fromCharCode (n : Z) : ascii := ascii_of_N (Z.to_N n).

(** The character classes of the regular expressions: [A-Z], [0-9],
    [A-Za-z0-9]. *)
Definition isUpper (c : ascii) : bool := (65 <=? charCode c) && (charCode c <=? 90).
Definition isLower (c : ascii) : bool := (97 <=? charCode c) && (charCode c <=? 122).
Definition isDigit (c : ascii) : bool := (48 <=? charCode c) && (charCode c <=? 57).
Definition isAlnum (c : ascii) : bool := isUpper c || isLower c || isDigit c.

(** White space removed by [String.prototype.trim] (the 8-bit part). *)
Definition isSpace (c : ascii) : bool :=
  let n := charCode c in
  (n =? 32) || ((9 <=? n) && (n <=? 13)) || (n =? 160).

(** Line terminators, which [.] of a regular expression does not match. *)
Definition isLineTerminator (c : ascii) : bool :=
  let n := charCode c in (n =? 10) || (n =? 13).

Fixpoint forallb (p : ascii -> bool) (s : string) : bool :=
  match s with
  | EmptyString => true
  | String c r => p c && forallb p r
  end.

(** Longest prefix whose characters satisfy [p], and the rest. *)
Fixpoint span (p : ascii -> bool) (s : string) : string * string :=
  match s with
  | EmptyString => (EmptyString, EmptyString)
  | String c r =>
      if p c then let (a, b) := span p r in (String c a, b)
      else (EmptyString, s)
  end.

Fixpoint rev_append (s acc : string) : string :=
  match s with
  | EmptyString => acc
  | String c r => rev_append r (String c acc)
  end.

Definition rev (s : string) : string := rev_append s EmptyString.

Fixpoint dropWhile (p : ascii -> bool) (s : string) : string :=
  match s with
  | EmptyString => EmptyString
  | String c r => if p c then dropWhile p r else s
  end.

Definition trim (s : string) : string :=
  rev (dropWhile isSpace (rev (dropWhile isSpace s))).

Definition isEmpty (s : string) : bool :=
  match s with EmptyString => true | _ => false end.

Fixpoint startsWith (p s : string) : bool :=
  match p, s with
  | EmptyString, _ => true
  | String a p', String b s' => Ascii.eqb a b && startsWith p' s'
  | String _ _, EmptyString => false
  end.

Definition toUpperChar (c : ascii) : ascii :=
  if isLower c then fromCharCode (charCode c - 32) else c.
Definition toLowerChar (c : ascii) : ascii :=
  if isUpper c then fromCharCode (charCode c + 32) else c.

Fixpoint map (f : ascii -> ascii) (s : string) : string :=
  match s with
  | EmptyString => EmptyString
  | String c r => String (f c) (map f r)
  end.

Definition toUpperCase : string -> string := map toUpperChar.
Definition toLowerCase : string -> string := map toLowerChar.

(** [Number.MAX_SAFE_INTEGER], 2^53 - 1. JS numbers are binary64: the
    integers up to 2^53 are numbers, and as long as the operands and
    the result stay among them [+ 1], [- 1], [index * 26 + code],
    [%], [Math.floor] of a quotient by 26, [parseInt] on digits and
    the decimal printing are exact. There the functions below that
    compute with rows and columns compute what the code computes.
    Beyond, the code rounds ([2^53 + 1] is [2^53]) and prints in
    exponent form from 1e21 on, and these functions do not follow it:
    what is proved of them is stated for rows and columns up to this
    bound. *)
Definition MAX_SAFE_INTEGER : Z := 9007199254740991.

(** Decimal rendering of an integer, as a template literal or
    [String(n)] gives it for the integers up to 2^53. *)
Definition intToString (z : Z) : string := NilZero.string_of_int (Z.to_int z).

(** [parseInt] on a non-empty string of decimal digits (the only strings
    the code hands to it come out of a [[0-9]+] or [\d+] group); the
    code's result is this integer when it is at most 2^53. *)
Definition parseDigits (s : string) : option Z :=
  match NilZero.uint_of_string s with
  | Some d => Some (Z.of_uint d)
  | None => None
  end.

Fixpoint existsb (p : ascii -> bool) (s : string) : bool :=
  match s with
  | EmptyString => false
  | String c r => p c || existsb p r
  end.

(** [s.includes(c)] for a one-character needle. *)
Definition includesChar (c : ascii) (s : string) : bool := existsb (Ascii.eqb c) s.

(** [s.split(c)] for a one-character separator. *)
Fixpoint split (sep : ascii) (s : string) : list string :=
  match s with
  | EmptyString => [EmptyString]
  | String c r =>
      if Ascii.eqb c sep then EmptyString :: split sep r
      else match split sep r with
           | h :: t => String c h :: t
           | [] => [String c EmptyString]
           end
  end.

Definition endsWithChar (c : ascii) (s : string) : bool :=
  match rev s with
  | String x _ => Ascii.eqb x c
  | EmptyString => false
  end.

(** [s.substring(a, b)]: the two indices are swapped when [a > b]. *)
Definition substring (a b : nat) (s : string) : string :=
  String.substring (Nat.min a b) (Nat.max a b - Nat.min a b) s.

(** [s.substring(a)]. *)
Fixpoint drop (n : nat) (s : string) : string :=
  match n, s with
  | O, _ => s
  | S k, String _ r => drop k r
  | S _, EmptyString => EmptyString
  end.

(** The double quote and the backslash. *)
Definition dquote : ascii := ascii_of_nat 34.
Definition backslash : ascii := ascii_of_nat 92.

(** [s.replace(/"/g, '\\"')]: a backslash before every double quote. *)
Fixpoint escapeQuotes (s : string) : string :=
  match s with
  | EmptyString => EmptyString
  | String c r =>
      if Ascii.eqb c dquote then String backslash (String c (escapeQuotes r))
      else String c (escapeQuotes r)
  end.

(** Text before and after the last occurrence of [c] in [s]. *)
Fixpoint splitLast (c : ascii) (s : string) : option (string * string) :=
  match s with
  | EmptyString => None
  | String x r =>
      match splitLast c r with
      | Some (a, b) => Some (String x a, b)
      | None => if Ascii.eqb x c then Some (EmptyString, r) else None
      end
  end.

(** The part of [s] that [.*] can run over: up to the first line
    terminator. *)
Definition firstLine (s : string) : string :=
  fst (span (fun c => negb (isLineTerminator c)) s).

(** Case-insensitive match of the literal [p] at the start of [s] (flag
    [i] of a regular expression); returns what follows the match. *)
Fixpoint stripPrefix_ci (p s : string) : option string :=
  match p, s with
  | EmptyString, _ => Some s
  | String a p', String b s' =>
      if Ascii.eqb (toUpperChar a) (toUpperChar b) then stripPrefix_ci p' s' else None
  | String _ _, EmptyString => None
  end.

End Js.

(** ** src/utils/cellHelpers.js *)

Module CellHelpers.
Import Js.

(** The [while (temp > 0)] loop of [getColumnId]; [temp] at least halves
    at every turn, so the binary length of the first [temp] bounds the
    number of turns. *)
Fixpoint getColumnId_loop (fuel : nat) (temp : Z) (id : string) : string :=
  match fuel with
  | O => id
  | S fuel' =>
      if 0 <? temp then
        let remainder := (temp - 1) mod 26 in
        getColumnId_loop fuel' ((temp - 1) / 26)
                         (String (fromCharCode (65 + remainder)) id)
      else id
  end.

Definition getColumnId (index : Z) : string :=
  let temp := index + 1 in
  getColumnId_loop (S (Z.to_nat (Z.log2 temp))) temp "".

(** The [for] loop of [getColumnIndex], [index] being the accumulator. *)
Fixpoint getColumnIndex_loop (id : string) (index : Z) : Z :=
  match id with
  | EmptyString => index
  | String c r => getColumnIndex_loop r (index * 26 + (charCode c - 64))
  end.

Definition getColumnIndex (id : string) : Z := getColumnIndex_loop id 0 - 1.

Definition getCellId (colIndex rowIndex : Z) : string :=
  getColumnId colIndex ++ intToString (rowIndex + 1).

(** [cellId.match(/^([A-Z]+)/)]: the longest prefix of capitals, [None]
    (a [null] match) when it is empty. *)
Definition matchLeadingLetters (cellId : string) : option string :=
  let (ls, _) := span isUpper cellId in
  if isEmpty ls then None else Some ls.

(** [cellId.match(/(\d+)$/)]: the longest run of digits that ends the
    string, [None] when the string does not end with a digit. *)
Definition matchTrailingDigits (cellId : string) : option string :=
  let (ds, _) := span isDigit (rev cellId) in
  if isEmpty ds then None else Some (rev ds).

(** [getCellIndices]; indexing a [null] match throws, which is [None]. *)
Definition getCellIndices (cellId : string) : option (Z * Z) :=
  match matchLeadingLetters cellId, matchTrailingDigits cellId with
  | Some colMatch, Some rowMatch =>
      match parseDigits rowMatch with
      | Some n => Some (getColumnIndex colMatch, n - 1)
      | None => None
      end
  | _, _ => None
  end.

(** A canonical cell id: capitals, then a row number of at least 1
    written in decimal without leading zeros. *)
Definition canonicalRow (ds : string) : bool :=
  match ds with
  | EmptyString => false
  | String c _ => forallb isDigit ds && negb (charCode c =? 48)
  end.

Definition canonicalCellId (s : string) : Prop :=
  exists ls ds, s = ls ++ ds /\ ls <> "" /\ forallb isUpper ls = true
                /\ canonicalRow ds = true.

(** A cell id whose column and row are safe integers: none of the
    numbers that [getCellIndices] and [getCellId] compute for it
    exceeds 2^53. *)
Definition safeCellId (s : string) : Prop :=
  forall col row, getCellIndices s = Some (col, row) ->
                  col <= MAX_SAFE_INTEGER /\ row <= MAX_SAFE_INTEGER.

End CellHelpers.

(** ** src/utils/FormulaParser.js *)

Module FormulaParser.
Import Js.

(** *** Values *)

(** The JavaScript values that cells hold and formulas return. *)
Inductive jsval : Type :=
| VUndefined
| VNull
| VBool (b : bool)
| VNum (x : float)
| VStr (s : string).

Definition isEmptyStr (v : jsval) : bool :=
  match v with VStr s => isEmpty s | _ => false end.

(** Truthiness ([if (v)], [Boolean(v)], [!v]). *)
Definition truthy (v : jsval) : bool :=
  match v with
  | VUndefined | VNull => false
  | VBool b => b
  | VNum x => negb (PrimFloat.eqb x 0 || PrimFloat.is_nan x)
  | VStr s => negb (isEmpty s)
  end.

Definition natToFloat (n : nat) : float :=
  PrimFloat.of_uint63 (Uint63.of_Z (Z.of_nat n)).

(** *** Sets and maps in insertion order *)

(** A [Set] of strings: the elements in the order of their first [add]. *)
Definition StrSet : Type := list string.

Definition set_has (x : string) (s : StrSet) : bool := List.existsb (String.eqb x) s.
Definition set_add (x : string) (s : StrSet) : StrSet :=
  if set_has x s then s else (s ++ [x])%list.
Definition set_delete (x : string) (s : StrSet) : StrSet :=
  List.filter (fun y => negb (String.eqb x y)) s.

(** A [Map] with string keys: the entries in the order in which their
    keys were first set. *)
Definition StrMap (A : Type) : Type := list (string * A).

Fixpoint map_get {A} (k : string) (m : StrMap A) : option A :=
  match m with
  | [] => None
  | (k', v) :: r => if String.eqb k k' then Some v else map_get k r
  end.

Definition map_has {A} (k : string) (m : StrMap A) : bool :=
  match map_get k m with Some _ => true | None => false end.

(** [m.set(k, v)]: an existing key keeps its place. *)
Fixpoint map_set {A} (k : string) (v : A) (m : StrMap A) : StrMap A :=
  match m with
  | [] => [(k, v)]
  | (k', v') :: r =>
      if String.eqb k k' then (k', v) :: r else (k', v') :: map_set k v r
  end.

(** *** The world outside the class *)

(** What the parser takes from the mathjs library and from the language:
    - [math_evaluate]: [math.evaluate], [None] when it throws (results
      other than undefined, null, booleans, numbers and strings are not
      modelled);
    - [stringToNumber]: conversion of a string to a number, as the
      global [isNaN] applies it;
    - [parseFloat] on a string;
    - [numberToString]: conversion of a number to a string;
    - [otherFunction name]: the body of the spreadsheet function [name],
      for the functions this development does not look into (SUM, MIN,
      MAX, COUNT, MEDIAN, STDEV, NOT, the text and the date functions).
      These bodies read cells, add to [cellsUsed], and touch nothing
      else of the parser. *)
Record Host : Type := {
  math_evaluate : string -> option jsval;
  stringToNumber : string -> float;
  parseFloat : string -> float;
  numberToString : float -> string;
  otherFunction : string -> string -> (string -> jsval) -> StrSet -> jsval * StrSet
}.

(** The fields of a parser object, and the module-level
    [evaluationCache], which all parsers share. *)
Record CacheEntry : Type := { value : jsval; dependencies : StrSet }.

Record Parser : Type := {
  cellsUsed : StrSet;
  cacheHits : nat;
  cacheMisses : nat;
  circularReferences : StrSet;
  processingStack : StrSet;
  evaluationCache : StrMap CacheEntry
}.

(** [new FormulaParser(getCellValueFn)], the cache being what it is. *)
Definition newParser (cache : StrMap CacheEntry) : Parser :=
  {| cellsUsed := []; cacheHits := 0; cacheMisses := 0;
     circularReferences := []; processingStack := [];
     evaluationCache := cache |}.

Definition setCellsUsed (u : StrSet) (p : Parser) : Parser :=
  {| cellsUsed := u; cacheHits := cacheHits p; cacheMisses := cacheMisses p;
     circularReferences := circularReferences p;
     processingStack := processingStack p;
     evaluationCache := evaluationCache p |}.

Definition setCircularReferences (u : StrSet) (p : Parser) : Parser :=
  {| cellsUsed := cellsUsed p; cacheHits := cacheHits p; cacheMisses := cacheMisses p;
     circularReferences := u;
     processingStack := processingStack p;
     evaluationCache := evaluationCache p |}.

Definition setProcessingStack (u : StrSet) (p : Parser) : Parser :=
  {| cellsUsed := cellsUsed p; cacheHits := cacheHits p; cacheMisses := cacheMisses p;
     circularReferences := circularReferences p;
     processingStack := u;
     evaluationCache := evaluationCache p |}.

Definition setEvaluationCache (c : StrMap CacheEntry) (p : Parser) : Parser :=
  {| cellsUsed := cellsUsed p; cacheHits := cacheHits p; cacheMisses := cacheMisses p;
     circularReferences := circularReferences p;
     processingStack := processingStack p;
     evaluationCache := c |}.

Definition countCacheHit (p : Parser) : Parser :=
  {| cellsUsed := cellsUsed p; cacheHits := S (cacheHits p);
     cacheMisses := cacheMisses p;
     circularReferences := circularReferences p;
     processingStack := processingStack p;
     evaluationCache := evaluationCache p |}.

Definition countCacheMiss (p : Parser) : Parser :=
  {| cellsUsed := cellsUsed p; cacheHits := cacheHits p;
     cacheMisses := S (cacheMisses p);
     circularReferences := circularReferences p;
     processingStack := processingStack p;
     evaluationCache := evaluationCache p |}.

(** *** Pure helpers of the class *)

(** [isValidCellReference]: [/^[A-Z]+[0-9]+$/] on the trimmed text. *)
Definition isValidCellReference (cellRef : string) : bool :=
  if isEmpty cellRef then false
  else
    let (ls, r) := span isUpper (trim cellRef) in
    let (ds, r') := span isDigit r in
    negb (isEmpty ls) && negb (isEmpty ds) && isEmpty r'.

(** [columnLetterToIndex]: one-based; 1 for the empty string and when a
    character is not a capital (the thrown error is caught there). *)
Fixpoint columnLetterToIndex_loop (letter : string) (index : Z) : option Z :=
  match letter with
  | EmptyString => Some index
  | String c r =>
      if (charCode c <? 65) || (90 <? charCode c) then None
      else columnLetterToIndex_loop r (index * 26 + (charCode c - 64))
  end.

Definition columnLetterToIndex (letter : string) : Z :=
  if isEmpty letter then 1
  else match columnLetterToIndex_loop letter 0 with
       | Some index => index
       | None => 1
       end.

(** [indexToColumnLetter]; the loop halves [tempIndex] at least. *)
Fixpoint indexToColumnLetter_loop (fuel : nat) (tempIndex : Z) (result : string) : string :=
  match fuel with
  | O => result
  | S fuel' =>
      if 0 <? tempIndex then
        let remainder := (tempIndex - 1) mod 26 in
        indexToColumnLetter_loop fuel' ((tempIndex - 1) / 26)
                                 (String (fromCharCode (65 + remainder)) result)
      else result
  end.

Definition indexToColumnLetter (index : Z) : string :=
  if index <? 1 then "A"
  else indexToColumnLetter_loop (S (Z.to_nat (Z.log2 index))) index "".

(** The cell id pushed by the two range generators. *)
Definition rangeCellId (col row : Z) : string :=
  indexToColumnLetter col ++ intToString row.

(** The inner [for] loop of [generateLimitedRange]; every turn raises
    [count], so [maxCells - count] turns are enough. *)
Fixpoint limitedCols (fuel : nat) (row col maxCol maxCells : Z)
         (acc : list string * Z) : list string * Z :=
  match fuel with
  | O => acc
  | S fuel' =>
      let (cells, count) := acc in
      if (col <=? maxCol) && (count <? maxCells) then
        limitedCols fuel' row (col + 1) maxCol maxCells
                    ((cells ++ [rangeCellId col row])%list, count + 1)
      else acc
  end.

(** The outer loop; a turn that starts below [maxCells] raises [count]
    too, since a row is never empty. *)
Fixpoint limitedRows (fuel : nat) (row maxRow minCol maxCol maxCells : Z)
         (acc : list string * Z) : list string * Z :=
  match fuel with
  | O => acc
  | S fuel' =>
      if (row <=? maxRow) && (snd acc <? maxCells) then
        limitedRows fuel' (row + 1) maxRow minCol maxCol maxCells
                    (limitedCols (Z.to_nat (maxCells - snd acc)) row minCol maxCol
                                 maxCells acc)
      else acc
  end.

Definition generateLimitedRange (startCol startRow endCol endRow maxCells : Z)
  : list string :=
  let minCol := Z.min startCol endCol in
  let maxCol := Z.max startCol endCol in
  let minRow := Z.min startRow endRow in
  let maxRow := Z.max startRow endRow in
  fst (limitedRows (Z.to_nat maxCells) minRow maxRow minCol maxCol maxCells ([], 0)).

(** The loops of [generateCellRange], which run over the whole
    rectangle: [maxCol - col + 1] and [maxRow - row + 1] turns. *)
Fixpoint fullCols (fuel : nat) (row col maxCol : Z) (cells : list string) : list string :=
  match fuel with
  | O => cells
  | S fuel' =>
      if col <=? maxCol then
        fullCols fuel' row (col + 1) maxCol (cells ++ [rangeCellId col row])%list
      else cells
  end.

Fixpoint fullRows (fuel : nat) (row maxRow minCol maxCol : Z) (cells : list string)
  : list string :=
  match fuel with
  | O => cells
  | S fuel' =>
      if row <=? maxRow then
        fullRows fuel' (row + 1) maxRow minCol maxCol
                 (fullCols (Z.to_nat (maxCol - minCol + 1)) row minCol maxCol cells)
      else cells
  end.

Definition generateCellRange (startCol startRow endCol endRow : Z) : list string :=
  let minCol := Z.min startCol endCol in
  let maxCol := Z.max startCol endCol in
  let minRow := Z.min startRow endRow in
  let maxRow := Z.max startRow endRow in
  fullRows (Z.to_nat (maxRow - minRow + 1)) minRow maxRow minCol maxCol [].

(** [cell.match(/([A-Z]+)([0-9]+)/)] on a valid cell reference: the
    capitals and the digits. *)
Definition matchLettersDigits (cell : string) : option (string * string) :=
  let (ls, r) := span isUpper cell in
  let (ds, _) := span isDigit r in
  if isEmpty ls || isEmpty ds then None else Some (ls, ds).

Definition maxCells : Z := 1000.

(** [parseCellRange]. *)
Definition parseCellRange (range : string) : list string :=
  if isEmpty range then []
  else
    match split ":" range with
    | [p0; p1] =>
        let startCell := trim p0 in
        let endCell := trim p1 in
        if negb (isValidCellReference startCell) || negb (isValidCellReference endCell)
        then []
        else
          match matchLettersDigits startCell, matchLettersDigits endCell with
          | Some (sl, sd), Some (el, ed) =>
              match parseDigits sd, parseDigits ed with
              | Some startRow, Some endRow =>
                  let startCol := columnLetterToIndex sl in
                  let endCol := columnLetterToIndex el in
                  if (startRow <=? 0) || (endRow <=? 0) then []
                  else
                    let rangeSize :=
                      (Z.abs (endRow - startRow) + 1) * (Z.abs (endCol - startCol) + 1) in
                    if maxCells <? rangeSize then
                      generateLimitedRange startCol startRow endCol endRow maxCells
                    else generateCellRange startCol startRow endCol endRow
              | _, _ => []
              end
          | _, _ => []
          end
    | _ => if isValidCellReference range then [range] else []
    end.

(** The loop of [parseArguments]. *)
Fixpoint parseArguments_loop (s : string) (currentArg : string) (insideQuotes : bool)
         (args : list string) : list string * string :=
  match s with
  | EmptyString => (args, currentArg)
  | String char r =>
      if Ascii.eqb char dquote then
        parseArguments_loop r (currentArg ++ String char "") (negb insideQuotes) args
      else if Ascii.eqb char "," && negb insideQuotes then
        parseArguments_loop r "" insideQuotes (args ++ [trim currentArg])%list
      else parseArguments_loop r (currentArg ++ String char "") insideQuotes args
  end.

Definition parseArguments (argsString : string) : list string :=
  if isEmpty argsString then []
  else
    let (args, currentArg) := parseArguments_loop argsString "" false [] in
    if isEmpty (trim currentArg) then args else (args ++ [trim currentArg])%list.

(** The match of the regular expression that each function body starts
    with: the name, an opening parenthesis, a greedy group of any
    characters, a closing parenthesis, case-insensitive. It is found at
    the first place where the name and the parenthesis stand and a
    closing parenthesis follows on the same line; the group runs to the
    last such parenthesis. *)
Fixpoint matchCall (name : string) (s : string) : option string :=
  let here :=
    match stripPrefix_ci (name ++ "(") s with
    | Some rest =>
        match splitLast ")" (firstLine rest) with
        | Some (group, _) => Some group
        | None => None
        end
    | None => None
    end in
  match here, s with
  | Some g, _ => Some g
  | None, String _ r => matchCall name r
  | None, EmptyString => None
  end.

(** The match of the regular expression of [evaluateIf]: IF, an opening
    parenthesis, three greedy groups separated by commas, a closing
    parenthesis. The groups are greedy from left to right: the last
    group ends at the last closing parenthesis of the line, the second
    and the third start after the last two commas before it. *)
Fixpoint matchIf (s : string) : option (string * string * string) :=
  let here :=
    match stripPrefix_ci "IF(" s with
    | Some rest =>
        match splitLast ")" (firstLine rest) with
        | Some (body, _) =>
            match splitLast "," body with
            | Some (g12, g3) =>
                match splitLast "," g12 with
                | Some (g1, g2) => Some (g1, g2, g3)
                | None => None
                end
            | None => None
            end
        | None => None
        end
    | None => None
    end in
  match here, s with
  | Some g, _ => Some g
  | None, String _ r => matchIf r
  | None, EmptyString => None
  end.

(** [/([A-Z]+[0-9]+)(?![A-Za-z0-9])/] tried at the start of [s]. Giving
    back a capital or a digit never helps (a capital would have to be
    followed by a digit, and after a shorter run of digits comes a
    digit), so only the longest runs are tried. *)
Definition matchCellRefAt (s : string) : option string :=
  let (ls, r1) := span isUpper s in
  let (ds, r2) := span isDigit r1 in
  if isEmpty ls || isEmpty ds then None
  else match r2 with
       | String c _ => if isAlnum c then None else Some (ls ++ ds)
       | EmptyString => Some (ls ++ ds)
       end.

(** The text as the global replace sees it: the matches, from left to
    right and without overlap, and the characters between them.
    [skip] counts the characters of the last match still to pass. *)
Inductive piece : Type :=
| Lit (c : ascii)
| Ref (id : string).

Fixpoint scanCellRefs (skip : nat) (s : string) : list piece :=
  match s with
  | EmptyString => []
  | String c r =>
      match skip with
      | S k => scanCellRefs k r
      | O =>
          match matchCellRefAt s with
          | Some m => Ref m :: scanCellRefs (String.length m - 1) r
          | None => Lit c :: scanCellRefs 0 r
          end
      end
  end.

Definition cellRefsOf (expression : string) : list string :=
  flat_map (fun p => match p with Ref id => [id] | Lit _ => [] end)
           (scanCellRefs 0 expression).

(** *** The methods that need the host and the sheet *)

Section Methods.
Variable host : Host.
(** The constructor's [getCellValueFn]. *)
Variable getCellValue : string -> jsval.

(** [String(v)], and what a template literal or [replace] makes of
    a value. *)
Definition toString (v : jsval) : string :=
  match v with
  | VUndefined => "undefined"
  | VNull => "null"
  | VBool true => "true"
  | VBool false => "false"
  | VNum x => numberToString host x
  | VStr s => s
  end.

(** The global [isNaN]. *)
Definition isNaN (v : jsval) : bool :=
  match v with
  | VUndefined => true
  | VNull => false
  | VBool _ => false
  | VNum x => PrimFloat.is_nan x
  | VStr s => PrimFloat.is_nan (stringToNumber host s)
  end.

(** [parseFloat(v)]: the argument is converted to a string first. *)
Definition parseFloatOf (v : jsval) : float := parseFloat host (toString v).

(** [getNumericCellValue]. *)
Definition getNumericCellValue (cellId : string) (used : StrSet) : float * StrSet :=
  let used' := set_add cellId used in
  let numValue := parseFloatOf (getCellValue cellId) in
  (if PrimFloat.is_nan numValue then 0%float else numValue, used').

(** **** AVERAGE *)

(** One cell of a range, or a single cell, in [evaluateAverage];
    [acc] is [(sum, count, cellsUsed)]. *)
Definition averageCell (cell : string) (acc : float * nat * StrSet)
  : float * nat * StrSet :=
  let '(sum, count, used) := acc in
  let (value, used') := getNumericCellValue cell used in
  if negb (PrimFloat.eqb value 0) || negb (isEmptyStr (getCellValue cell))
  then (PrimFloat.add sum value, S count, used')
  else (sum, count, used').

(** One argument of AVERAGE. *)
Definition averageArg (arg : string) (acc : float * nat * StrSet)
  : float * nat * StrSet :=
  if includesChar ":" arg then
    fold_left (fun a cell => averageCell cell a) (parseCellRange arg) acc
  else if isValidCellReference arg then averageCell arg acc
  else
    let '(sum, count, used) := acc in
    let value := parseFloat host arg in
    if negb (PrimFloat.is_nan value) then (PrimFloat.add sum value, S count, used)
    else acc.

Definition evaluateAverage (expression : string) (used : StrSet) : jsval * StrSet :=
  match matchCall "AVERAGE" expression with
  | None => (VStr "#ERROR!", used)
  | Some argsText =>
      if isEmpty argsText then (VStr "#ERROR!", used)
      else
        let args := parseArguments argsText in
        let '(sum, count, used') :=
          fold_left (fun a arg => averageArg arg a) args (0%float, O, used) in
        match count with
        | O => (VStr "#DIV/0!", used')
        | S _ => (VNum (PrimFloat.div sum (natToFloat count)), used')
        end
  end.

(** **** AND, OR *)

(** The value of one argument of AND and OR, and the dependency it
    records. *)
Definition logicalArg (arg : string) (used : StrSet) : jsval * StrSet :=
  if isValidCellReference arg then (getCellValue arg, set_add arg used)
  else match math_evaluate host arg with
       | Some v => (v, used)
       | None => (VStr arg, used)
       end.

(** The conversion to a boolean that AND, OR and NOT share. *)
Definition toBoolean (v : jsval) : bool :=
  match v with
  | VStr s =>
      String.eqb (toLowerCase s) "true" || String.eqb s "1"
      || negb (PrimFloat.eqb (parseFloat host s) 0)
  | _ => truthy v
  end.

(** The [for] loop of [evaluateAnd], which returns at the first
    argument that is false. *)
Fixpoint andLoop (args : list string) (used : StrSet) : jsval * StrSet :=
  match args with
  | [] => (VBool true, used)
  | arg :: rest =>
      let (v, used') := logicalArg arg used in
      if negb (toBoolean v) then (VBool false, used') else andLoop rest used'
  end.

(** The loop of [evaluateOr], which returns at the first argument
    that is true. *)
Fixpoint orLoop (args : list string) (used : StrSet) : jsval * StrSet :=
  match args with
  | [] => (VBool false, used)
  | arg :: rest =>
      let (v, used') := logicalArg arg used in
      if toBoolean v then (VBool true, used') else orLoop rest used'
  end.

Definition evaluateAnd (expression : string) (used : StrSet) : jsval * StrSet :=
  match matchCall "AND" expression with
  | None => (VStr "#ERROR!", used)
  | Some argsText =>
      if isEmpty argsText then (VStr "#ERROR!", used)
      else andLoop (parseArguments argsText) used
  end.

Definition evaluateOr (expression : string) (used : StrSet) : jsval * StrSet :=
  match matchCall "OR" expression with
  | None => (VStr "#ERROR!", used)
  | Some argsText =>
      if isEmpty argsText then (VStr "#ERROR!", used)
      else orLoop (parseArguments argsText) used
  end.

(** **** Reference substitution, IF, and [evaluate] *)

(** The text that takes the place of a reference whose cell has the
    value [value] (the three returns that end the callback of
    [replaceCellReferences]): the value itself when it is a number,
    0 when it is empty, otherwise its text between double quotes. *)
Definition substituted (value : jsval) : string :=
  if negb (isNaN value) && negb (isEmptyStr value) then toString value
  else
    match value with
    | VStr EmptyString | VNull | VUndefined => "0"
    | _ => String dquote (escapeQuotes (toString value) ++ String dquote "")
    end.

(** The result of a call that may recurse: [None] stands for a
    recursion deeper than the fuel given to [evaluate]. *)
Definition Eval (A : Type) : Type := Parser -> option (A * Parser).

Section OpenRecursion.
(** [this.evaluate], for the recursive calls. *)
Variable evaluate_rec : jsval -> Eval jsval.

(** The callback that [replaceCellReferences] hands to [replace]. *)
Definition replaceCallback (ref : string) : Eval string := fun p =>
  let p1 := setCellsUsed (set_add ref (cellsUsed p)) p in
  if set_has ref (processingStack p1) then
    Some ("0", setCircularReferences (set_add ref (circularReferences p1)) p1)
  else
    let p2 := setProcessingStack (set_add ref (processingStack p1)) p1 in
    let value0 := getCellValue ref in
    let evaluated :=
      match value0 with
      | VStr s => if startsWith "=" s then evaluate_rec value0 p2 else Some (value0, p2)
      | _ => Some (value0, p2)
      end in
    match evaluated with
    | None => None
    | Some (value, p3) =>
        let p4 := setProcessingStack (set_delete ref (processingStack p3)) p3 in
        Some (substituted value, p4)
    end.

Fixpoint replacePieces (ps : list piece) : Eval string := fun p =>
  match ps with
  | [] => Some ("", p)
  | Lit c :: rest =>
      match replacePieces rest p with
      | Some (s, p') => Some (String c s, p')
      | None => None
      end
  | Ref id :: rest =>
      match replaceCallback id p with
      | Some (r, p1) =>
          match replacePieces rest p1 with
          | Some (s, p') => Some (r ++ s, p')
          | None => None
          end
      | None => None
      end
  end.

(** [replaceCellReferences]. *)
Definition replaceCellReferences (expression : string) : Eval string := fun p =>
  if isEmpty expression then Some ("0", p)
  else replacePieces (scanCellRefs 0 expression) p.

(** A branch of IF. *)
Definition ifBranch (branch : string) : jsval :=
  if isValidCellReference branch then getCellValue branch
  else if startsWith (String dquote "") branch && endsWithChar dquote branch then
    VStr (substring 1 (String.length branch - 1) branch)
  else match math_evaluate host branch with
       | Some v => v
       | None => VStr branch
       end.

Definition evaluateIf (expression : string) : Eval jsval := fun p =>
  match matchIf expression with
  | None => Some (VStr "#ERROR!", p)
  | Some (g1, g2, g3) =>
      let condition := trim g1 in
      let trueValue := trim g2 in
      let falseValue := trim g3 in
      match replaceCellReferences condition p with
      | None => None
      | Some (processedCondition, p1) =>
          match math_evaluate host processedCondition with
          | None => Some (VStr "#ERROR!", p1)
          | Some conditionResult =>
              if truthy conditionResult then Some (ifBranch trueValue, p1)
              else Some (ifBranch falseValue, p1)
          end
      end
  end.

(** A function body that only reads cells and adds to [cellsUsed]. *)
Definition onCellsUsed (f : StrSet -> jsval * StrSet) : Eval jsval := fun p =>
  let (v, used) := f (cellsUsed p) in Some (v, setCellsUsed used p).

Definition other (name expression : string) : Eval jsval :=
  onCellsUsed (otherFunction host name expression getCellValue).

(** The expression handed to mathjs. *)
Definition evaluateMath (expression : string) : jsval :=
  match math_evaluate host expression with
  | Some VUndefined | Some VNull => VStr "#ERROR!"
  | Some (VNum x) => if PrimFloat.is_nan x then VStr "#ERROR!" else VNum x
  | Some result => result
  | None => VStr "#ERROR!"
  end.

(** [evaluateExpression]. *)
Definition evaluateExpression (expression : string) : Eval jsval :=
  if isEmpty expression then fun p => Some (VNum 0, p)
  else
    let upperExpression := toUpperCase expression in
    let calls name := startsWith (name ++ "(") upperExpression in
    if calls "SUM" then other "SUM" expression
    else if calls "AVERAGE" then onCellsUsed (evaluateAverage expression)
    else if calls "MIN" then other "MIN" expression
    else if calls "MAX" then other "MAX" expression
    else if calls "COUNT" then other "COUNT" expression
    else if calls "MEDIAN" then other "MEDIAN" expression
    else if calls "STDEV" then other "STDEV" expression
    else if calls "IF" then evaluateIf expression
    else if calls "AND" then onCellsUsed (evaluateAnd expression)
    else if calls "OR" then onCellsUsed (evaluateOr expression)
    else if calls "NOT" then other "NOT" expression
    else if calls "CONCATENATE" then other "CONCATENATE" expression
    else if calls "LEFT" then other "LEFT" expression
    else if calls "RIGHT" then other "RIGHT" expression
    else if calls "MID" then other "MID" expression
    else if calls "LEN" then other "LEN" expression
    else if calls "UPPER" then other "UPPER" expression
    else if calls "LOWER" then other "LOWER" expression
    else if calls "NOW" then other "NOW" expression
    else if calls "TODAY" then other "TODAY" expression
    else if calls "DATE" then other "DATE" expression
    else if calls "YEAR" then other "YEAR" expression
    else if calls "MONTH" then other "MONTH" expression
    else if calls "DAY" then other "DAY" expression
    else fun p => Some (evaluateMath expression, p).

(** The end of [evaluate]: the entry is set, and the oldest entry
    goes when the cache holds more than 1000. *)
Definition cacheStore (key : string) (entry : CacheEntry) (cache : StrMap CacheEntry)
  : StrMap CacheEntry :=
  let cache' := map_set key entry cache in
  if (1000 <? length cache')%nat then tl cache' else cache'.

(** [evaluate] when the formula is not in the cache. *)
Definition evaluateMiss (formula : string) : Eval jsval := fun p =>
  let p1 := setCellsUsed [] (countCacheMiss p) in
  let expression := trim (drop 1 formula) in
  if isEmpty expression then Some (VNum 0, p1)
  else
    match replaceCellReferences expression p1 with
    | None => None
    | Some (processedExpression, p2) =>
        match circularReferences p2 with
        | _ :: _ =>
            let cells := String.concat ", " (circularReferences p2) in
            Some (VStr ("#CIRCULAR! (" ++ cells ++ ")"),
                  setCircularReferences [] p2)
        | [] =>
            match evaluateExpression processedExpression p2 with
            | None => None
            | Some (result, p3) =>
                let entry := {| value := result; dependencies := cellsUsed p3 |} in
                Some (result,
                      setEvaluationCache (cacheStore formula entry (evaluationCache p3)) p3)
            end
        end
    end.

(** [evaluate] when the formula is in the cache. *)
Definition evaluateHit (cachedResult : CacheEntry) : Eval jsval := fun p =>
  Some (value cachedResult, setCellsUsed (dependencies cachedResult) (countCacheHit p)).

(** The body of [evaluate]. *)
Definition evaluateBody (formula : jsval) : Eval jsval := fun p =>
  match formula with
  | VUndefined | VNull => Some (VStr "", p)
  | VStr f =>
      if isEmpty f then Some (VStr "", p)
      else if negb (startsWith "=" f) then Some (formula, p)
      else match map_get f (evaluationCache p) with
           | Some cachedResult => evaluateHit cachedResult p
           | None => evaluateMiss f p
           end
  | _ => Some (formula, p)
  end.

End OpenRecursion.

(** [evaluate]; [fuel] bounds the depth of the recursion through the
    formulas that cells hold. *)
Fixpoint evaluate (fuel : nat) (formula : jsval) : Eval jsval :=
  match fuel with
  | O => fun _ => None
  | S fuel' => evaluateBody (evaluate fuel') formula
  end.

(** [getCellsUsed]. *)
Definition getCellsUsed (p : Parser) : StrSet := cellsUsed p.

(** [clearCache]. *)
Definition clearCache (p : Parser) : Parser := setEvaluationCache [] p.

(** [invalidateCellDependencies]: an entry goes when its dependencies
    hold one of [cellIds]. *)
Definition invalidateCellDependencies (cellIds : list string) (p : Parser) : Parser :=
  setEvaluationCache
    (List.filter
       (fun kv => negb (List.existsb (fun cellId => set_has cellId (dependencies (snd kv)))
                                     cellIds))
       (evaluationCache p))
    p.

End Methods.

End FormulaParser.

(** ** A small host for the closed examples

    The general statements below hold for every [Host]. The examples that
    run the parser need one host to run with; this one agrees with mathjs
    and with the JavaScript built-ins on the fragment the examples use:
    decimal integers without sign, fraction or exponent, string literals
    without escapes, and one binary operation between two such integers.
    Outside of it [math_evaluate] gives [None], and the other functions
    are not meant to agree with JavaScript. *)

Module Reference.
Import Js FormulaParser.

Definition intToFloat (z : Z) : float := PrimFloat.of_uint63 (Uint63.of_Z z).

(** A non-empty string of decimal digits, as a number. *)
Definition intLiteral (s : string) : option float :=
  if isEmpty s || negb (forallb isDigit s) then None
  else match parseDigits s with
       | Some z => Some (intToFloat z)
       | None => None
       end.

(** [parseFloat]: leading white space is skipped, then the longest run
    of digits is read; NaN when there is none. *)
Definition parseFloat (s : string) : float :=
  let (ds, _) := span isDigit (dropWhile isSpace s) in
  match intLiteral ds with
  | Some x => x
  | None => PrimFloat.nan
  end.

(** Conversion of a string to a number: 0 for a blank string, the
    integer for a string of digits, NaN otherwise. *)
Definition stringToNumber (s : string) : float :=
  let t := trim s in
  if isEmpty t then 0%float
  else match intLiteral t with
       | Some x => x
       | None => PrimFloat.nan
       end.

(** Conversion of a number to a string, for NaN, the infinities, zero
    and the integers. *)
Definition numberToString (x : float) : string :=
  match Prim2SF x with
  | S754_nan => "NaN"
  | S754_infinity false => "Infinity"
  | S754_infinity true => "-Infinity"
  | S754_zero _ => "0"
  | S754_finite sign m e =>
      let magnitude :=
        if 0 <=? e then Z.pos m * 2 ^ e else Z.pos m / 2 ^ (- e) in
      intToString (if sign then - magnitude else magnitude)
  end.

(** A string literal between double quotes, without quote or backslash
    inside. *)
Definition stringLiteral (s : string) : option string :=
  match s with
  | String c r =>
      if Ascii.eqb c dquote && endsWithChar dquote r then
        let inner := String.substring 0 (String.length r - 1) r in
        if existsb (fun x => Ascii.eqb x dquote || Ascii.eqb x backslash) inner
        then None else Some inner
      else None
  | EmptyString => None
  end.

(** One operation between two integer literals. *)
Definition binary (op : ascii) (f : float -> float -> jsval) (s : string) : option jsval :=
  match split op s with
  | [a; b] =>
      match intLiteral (trim a), intLiteral (trim b) with
      | Some x, Some y => Some (f x y)
      | _, _ => None
      end
  | _ => None
  end.

Definition firstSome (l : list (option jsval)) : option jsval :=
  fold_right (fun o acc => match o with Some v => Some v | None => acc end) None l.

Definition math_evaluate (expression : string) : option jsval :=
  let t := trim expression in
  match stringLiteral t, intLiteral t with
  | Some s, _ => Some (VStr s)
  | None, Some x => Some (VNum x)
  | None, None =>
      firstSome
        [ binary "/" (fun x y => VNum (PrimFloat.div x y)) t;
          binary "*" (fun x y => VNum (PrimFloat.mul x y)) t;
          binary "+" (fun x y => VNum (PrimFloat.add x y)) t;
          binary ">" (fun x y => VBool (PrimFloat.ltb y x)) t;
          binary "<" (fun x y => VBool (PrimFloat.ltb x y)) t ]
  end.

(** The functions that the development does not look into are not run
    by the examples. *)
Definition otherFunction (name expression : string) (getCellValue : string -> jsval)
           (used : StrSet) : jsval * StrSet :=
  (VStr "#ERROR!", used).

Definition host : Host :=
  {| FormulaParser.math_evaluate := math_evaluate;
     FormulaParser.stringToNumber := stringToNumber;
     FormulaParser.parseFloat := parseFloat;
     FormulaParser.numberToString := numberToString;
     FormulaParser.otherFunction := otherFunction |}.

(** A sheet given by the cells that are not blank; a blank cell reads
    as the empty string. *)
Definition sheetOf (cells : list (string * jsval)) (cellId : string) : jsval :=
  match map_get cellId cells with
  | Some v => v
  | None => VStr ""
  end.

End Reference.

(** ** src/hooks/useSpreadsheetOperations.js

    One call of a callback of the hook runs against the state of the
    render that created it: [dependencies], the cells that [getCellData]
    and the parser's [getCellValue] read, and the parser object. What the
    call hands to [setDependencies] and to [dispatch] makes the state of
    the next render. *)

Module Operations.
Import Js FormulaParser.

(** A cell of the sheet: the fields [value] and [formula]. A missing
    [formula] and the empty one are both the empty string here (the
    hook only tests the field for truth). *)
Record CellData : Type := { cellValue : jsval; cellFormula : string }.

Definition Cells : Type := StrMap CellData.

(** [getCellValue] of the context: the value of the cell, or the empty
    string when the cell or its value is missing or falsy. *)
Definition getCellValue (cells : Cells) (cellId : string) : jsval :=
  match map_get cellId cells with
  | Some d => if truthy (cellValue d) then cellValue d else VStr ""
  | None => VStr ""
  end.

(** [getCellData] of the context. *)
Definition getCellData (cells : Cells) (cellId : string) : CellData :=
  match map_get cellId cells with
  | Some d => d
  | None => {| cellValue := VUndefined; cellFormula := "" |}
  end.

(** The two actions that the hook dispatches here. *)
Inductive Action : Type :=
| APPLY_FORMULA (cellId formula : string) (value : jsval)
| UPDATE_CELL (cellId : string) (value : jsval) (formula : string).

(** What the reducer does to the cells of the active sheet. *)
Definition reducer (cells : Cells) (a : Action) : Cells :=
  match a with
  | APPLY_FORMULA cellId formula value =>
      map_set cellId {| cellValue := value; cellFormula := formula |} cells
  | UPDATE_CELL cellId value formula =>
      map_set cellId {| cellValue := value; cellFormula := formula |} cells
  end.

(** The state [dependencies]: for a cell, the set of the cells whose
    formula was seen to read it. *)
Definition Dependencies : Type := StrMap StrSet.

(** The body of the [forEach] in [updateCellValue]. *)
Definition addDependency (cellId : string) (deps : Dependencies) (depCellId : string)
  : Dependencies :=
  match map_get depCellId deps with
  | Some s => map_set depCellId (set_add cellId s) deps
  | None => map_set depCellId (set_add cellId []) deps
  end.

(** There is an edge from [a] to [b]: [b] is in [dependencies[a]]. *)
Definition hasEdge (deps : Dependencies) (a b : string) : bool :=
  match map_get a deps with
  | Some s => set_has b s
  | None => false
  end.

Record State : Type := {
  cells : Cells;
  dependencies : Dependencies;
  formulaParser : Parser
}.

(** The effect that follows a change of the cells makes a new parser;
    the cache belongs to the module and stays. *)
Definition nextParser (p : Parser) : Parser := newParser (evaluationCache p).

Section Hook.
Variable host : Host.
(** The depth allowed to each call of [evaluate]. *)
Variable evalFuel : nat.
(** The state of the render. *)
Variable st : State.

Definition evaluateFormula (formula : string) (p : Parser) : option (jsval * Parser) :=
  evaluate host (getCellValue (cells st)) evalFuel (VStr formula) p.

(** [recalculateDependentCells]. The result is the parser and the
    actions dispatched so far. [fuel] is the depth that the call stack
    still allows: [None] stands for the error thrown by a call that
    exceeds it, on entry, before the call has done anything. The
    [try] around the body of the [forEach] catches that error, and
    the error of an evaluation that does not end within [evalFuel]:
    the handler dispatches the value [#ERROR!] for the cell and the
    [forEach] goes on with the next dependent. After an evaluation
    that failed the parser is taken as it was before the call. Inside
    a call every error is caught, so a call that has a frame
    returns. *)
Fixpoint recalculateDependentCells (fuel : nat) (changedCellId : string)
         (acc : Parser * list Action) : option (Parser * list Action) :=
  match fuel with
  | O => None
  | S fuel' =>
      match map_get changedCellId (dependencies st) with
      | None => Some acc
      | Some dependentCells =>
          Some
            ((fix forEach (l : list string) (acc : Parser * list Action)
                : Parser * list Action :=
                match l with
                | [] => acc
                | cellId :: rest =>
                    let cellData := getCellData (cells st) cellId in
                    if isEmpty (cellFormula cellData) then forEach rest acc
                    else
                      let caught :=
                        APPLY_FORMULA cellId (cellFormula cellData) (VStr "#ERROR!") in
                      match evaluateFormula (cellFormula cellData) (fst acc) with
                      | None => forEach rest (fst acc, (snd acc ++ [caught])%list)
                      | Some (evaluatedValue, p) =>
                          let dispatched :=
                            (snd acc ++ [APPLY_FORMULA cellId (cellFormula cellData)
                                                       evaluatedValue])%list in
                          match recalculateDependentCells fuel' cellId (p, dispatched) with
                          | Some acc' => forEach rest acc'
                          | None => forEach rest (p, (dispatched ++ [caught])%list)
                          end
                      end
                end) dependentCells acc)
      end
  end.

(** [updateCellValue]: the state of the next render; [None] when the
    evaluation of the formula does not end within [evalFuel], and
    when the stack has no room for the call of
    [recalculateDependentCells], which no handler surrounds here. *)
Definition updateCellValue (fuel : nat) (cellId value : string) : option State :=
  if startsWith "=" value then
    match evaluateFormula value (formulaParser st) with
    | None => None
    | Some (evaluatedValue, p) =>
        let cellsUsed := getCellsUsed p in
        let newDependencies :=
          fold_left (addDependency cellId) cellsUsed (dependencies st) in
        Some {| cells := reducer (cells st) (APPLY_FORMULA cellId value evaluatedValue);
                dependencies := newDependencies;
                formulaParser := nextParser p |}
    end
  else
    let dispatched := [UPDATE_CELL cellId (VStr value) ""] in
    let recalculated :=
      match map_get cellId (dependencies st) with
      | Some _ => recalculateDependentCells fuel cellId (formulaParser st, dispatched)
      | None => Some (formulaParser st, dispatched)
      end in
    match recalculated with
    | None => None
    | Some (p, actions) =>
        Some {| cells := fold_left reducer actions (cells st);
                dependencies := dependencies st;
                formulaParser := nextParser p |}
    end.

End Hook.

Definition initialState : State :=
  {| cells := []; dependencies := []; formulaParser := newParser [] |}.

End Operations.

(** ** src/utils/cellHelpers.js: selections and ranges *)

Module CellSelection.
Import Js CellHelpers.





End CellSelection.

(** ** src/utils/FormulaParser.js: SUM, COUNT and NOT

    The bodies of three of the functions that [evaluateExpression] takes
    from the host (field [otherFunction]), written out as the methods
    [evaluateSum], [evaluateCount] and [evaluateNot] have them. *)

Module FormulaFunctions.
Import Js FormulaParser.

Section Bodies.
Variable host : Host.
Variable getCellValue : string -> jsval.

(** One cell of a range, or a single cell, in [evaluateSum]; [acc] is
[(sum, cellsUsed)]. *)
Definition sumCell (cell : string) (acc : float * StrSet) : float * StrSet :=
let (sum, used) := acc in
let (value, used') := getNumericCellValue host getCellValue cell used in
(PrimFloat.add sum value, used').

(** One argument of SUM. *)
Definition sumArg (arg : string) (acc : float * StrSet) : float * StrSet :=
if includesChar ":" arg then
fold_left (fun a cell => sumCell cell a) (parseCellRange arg) acc
else if isValidCellReference arg then sumCell arg acc
else
let (sum, used) := acc in
let value := parseFloat host arg in
if negb (PrimFloat.is_nan value) then (PrimFloat.add sum value, used) else acc.

(** [evaluateSum]. *)
Definition evaluateSum (expression : string) (used : StrSet) : jsval * StrSet :=
match matchCall "SUM" expression with
| None => (VNum 0, used)
| Some argsText =>
  if isEmpty argsText then (VNum 0, used)
  else
    let (sum, used') :=
      fold_left (fun a arg => sumArg arg a) (parseArguments argsText)
                (0%float, used) in
    (VNum sum, used')
end.

(** The test that COUNT makes on the value of a cell:
[value !== '' && !isNaN(parseFloat(value))]. *)
Definition countsAsNumber (value : jsval) : bool :=
negb (isEmptyStr value) && negb (PrimFloat.is_nan (parseFloatOf host value)).

(** One cell of a range, or a single cell, in [evaluateCount]; [acc] is
[(count, cellsUsed)]. *)
Definition countCell (cell : string) (acc : nat * StrSet) : nat * StrSet :=
let (count, used) := acc in
let used' := set_add cell used in
if countsAsNumber (getCellValue cell) then (S count, used') else (count, used').

(** One argument of COUNT. *)
Definition countArg (arg : string) (acc : nat * StrSet) : nat * StrSet :=
if includesChar ":" arg then
fold_left (fun a cell => countCell cell a) (parseCellRange arg) acc
else if isValidCellReference arg then countCell arg acc
else
let (count, used) := acc in
if negb (PrimFloat.is_nan (parseFloat host arg)) then (S count, used) else acc.

(** [evaluateCount]. *)
Definition evaluateCount (expression : string) (used : StrSet) : jsval * StrSet :=
match matchCall "COUNT" expression with
| None => (VNum 0, used)
| Some argsText =>
  if isEmpty argsText then (VNum 0, used)
  else
    let (count, used') :=
      fold_left (fun a arg => countArg arg a) (parseArguments argsText) (O, used) in
    (VNum (natToFloat count), used')
end.

(** [evaluateNot]: one argument, the whole text between the
parentheses, read and converted as AND and OR do. *)
Definition evaluateNot (expression : string) (used : StrSet) : jsval * StrSet :=
match matchCall "NOT" expression with
| None => (VStr "#ERROR!", used)
| Some argText =>
  if isEmpty argText then (VStr "#ERROR!", used)
  else
    let arg := trim argText in
    let (value, used') := logicalArg host getCellValue arg used in
    (VBool (negb (toBoolean host value)), used')
end.

End Bodies.

End FormulaFunctions.

(** ** src/utils/clipboardActions.js *)

Module ClipboardActions.
Import Js CellHelpers FormulaParser.

(** The clipboard that [copyCells] makes: the object [cells], keyed by
  cell id in the order of insertion (the order in which [Object.keys]
  lists keys that are not array indices), and the array [range]. Of a
  copied cell the fields [value] and [formula] are kept here; the
  formatting fields travel with them unchanged. *)
Record Clipboard : Type := {
cells : option (StrMap Operations.CellData);
range : list string
}.

(** The comparator of [copyCells] on the indices of two cells: by row,
  and in a row by column; negative, zero or positive. *)
Definition compareCells (a b : Z * Z) : Z :=
let (aCol, aRow) := a in
let (bCol, bRow) := b in
if aRow =? bRow then aCol - bCol else aRow - bRow.

(** [Array.prototype.sort] with this comparator. The sort is stable and
  the comparator is consistent, which fixes the result: cells that
  compare equal keep the order they had. An insertion sort gives it;
  the cells are sorted with their indices beside them. *)
Fixpoint insertCell (x : (Z * Z) * string) (sorted : list ((Z * Z) * string))
: list ((Z * Z) * string) :=
match sorted with
| [] => [x]
| y :: rest =>
    if compareCells (fst x) (fst y) <=? 0 then x :: y :: rest
    else y :: insertCell x rest
end.

Definition sortCells (cells : list ((Z * Z) * string)) : list ((Z * Z) * string) :=
fold_right insertCell [] cells.

(** The indices that the comparator reads from every cell id; [None]
  when [getCellIndices] throws on one of them. *)
Fixpoint withIndices (cellIds : list string) : option (list ((Z * Z) * string)) :=
match cellIds with
| [] => Some []
| cellId :: rest =>
    match getCellIndices cellId, withIndices rest with
    | Some indices, Some others => Some ((indices, cellId) :: others)
    | _, _ => None
    end
end.

(** [copyCells]; [Some None] is the result [null], [None] a thrown
  error. One cell alone is not handed to the comparator. *)
Definition copyCells (selectedCells : option (list string))
         (getCellData : string -> Operations.CellData) : option (option Clipboard) :=
match selectedCells with
| None | Some [] => Some None
| Some selected =>
    let sorted :=
      match selected with
      | [_] => Some selected
      | _ => option_map (fun cells => List.map snd (sortCells cells))
                        (withIndices selected)
      end in
    match sorted with
    | None => None
    | Some sortedCells =>
        let copiedCells :=
          fold_left (fun copied cellId => map_set cellId (getCellData cellId) copied)
                    sortedCells [] in
        Some (Some {| cells := Some copiedCells; range := sortedCells |})
    end
end.




End ClipboardActions.

(** ** src/hooks/useSpreadsheetOperations.js: keyboard navigation *)

Module Navigation.
Import Js CellHelpers FormulaParser.



End Navigation.

(** ** src/context/SpreadsheetContext.jsx: the reducer

    The part of the state that the actions below change: the cells of
    the active sheet, the selection and the two stacks. Of a cell the
    fields [value] and [formula] are kept, as in [Operations]. *)

Module SpreadsheetContext.
Import Js FormulaParser.

(** An entry of the undo stack: what a cell held before an action of
  type UPDATE_CELL or APPLY_FORMULA (both push an entry of type
  UPDATE_CELL), or the backup of the cells of a bulk update, whose
  [cellIds] are the keys of the backup. A cell that did not exist
  reads as the value [undefined] without formula. *)
Inductive UndoEntry : Type :=
| RestoreCell (cellId : string) (previous : Operations.CellData)
| RestoreCells (backup : StrMap Operations.CellData).

(** An element of the payload of BULK_UPDATE_CELLS; a [value] that is
  [undefined] and a [formula] that is missing leave the field of the
  cell as it is. *)
Record BulkUpdate : Type := {
bulkCellId : string;
bulkValue : jsval;
bulkFormula : option string
}.

Inductive ContextAction : Type :=
| SELECT_CELLS (selectedCells : list string)
| UPDATE_CELL (cellId : string) (value : jsval) (formula : string)
| APPLY_FORMULA (cellId formula : string) (value : jsval)
| BULK_UPDATE_CELLS (updates : list BulkUpdate).

Record ContextState : Type := {
sheetCells : Operations.Cells;
selectedCells : list string;
undoStack : list UndoEntry;
redoStack : list UndoEntry
}.

(** [a.slice(-n)]: the last [n] elements, all of them when there are
  fewer. *)
Definition lastElements {A : Type} (n : nat) (a : list A) : list A :=
skipn (length a - n) a.

(** The second [forEach] of BULK_UPDATE_CELLS. *)
Definition applyBulkUpdate (updatedCells : Operations.Cells) (update : BulkUpdate)
: Operations.Cells :=
let current := Operations.getCellData updatedCells (bulkCellId update) in
map_set (bulkCellId update)
        {| Operations.cellValue :=
             match bulkValue update with
             | VUndefined => Operations.cellValue current
             | value => value
             end;
           Operations.cellFormula :=
             match bulkFormula update with
             | Some formula => formula
             | None => Operations.cellFormula current
             end |}
        updatedCells.

(** [spreadsheetReducer], for the four actions above. *)
Definition spreadsheetReducer (state : ContextState) (action : ContextAction)
: ContextState :=
match action with
| SELECT_CELLS selected =>
    let maxSelectionSize := 2000%nat in
    let finalSelection :=
      if (maxSelectionSize <? length selected)%nat
      then firstn maxSelectionSize selected else selected in
    {| sheetCells := sheetCells state;
       selectedCells := finalSelection;
       undoStack := undoStack state;
       redoStack := redoStack state |}
| UPDATE_CELL cellId value formula =>
    let maxUndoStackSize := 50%nat in
    let newUndoStack :=
      (lastElements (maxUndoStackSize - 1) (undoStack state)
       ++ [RestoreCell cellId (Operations.getCellData (sheetCells state) cellId)])%list in
    {| sheetCells :=
         map_set cellId {| Operations.cellValue := value;
                           Operations.cellFormula := formula |} (sheetCells state);
       selectedCells := selectedCells state;
       undoStack := newUndoStack;
       redoStack := [] |}
| APPLY_FORMULA cellId formula value =>
    {| sheetCells :=
         map_set cellId {| Operations.cellValue := value;
                           Operations.cellFormula := formula |} (sheetCells state);
       selectedCells := selectedCells state;
       undoStack :=
         (undoStack state
          ++ [RestoreCell cellId (Operations.getCellData (sheetCells state) cellId)])%list;
       redoStack := [] |}
| BULK_UPDATE_CELLS updates =>
    let maxBackupSize := 200%nat in
    let limitedUpdates :=
      if (maxBackupSize <? length updates)%nat
      then firstn maxBackupSize updates else updates in
    let backup :=
      fold_left (fun backup update =>
                   map_set (bulkCellId update)
                           (Operations.getCellData (sheetCells state) (bulkCellId update))
                           backup)
                limitedUpdates [] in
    {| sheetCells := fold_left applyBulkUpdate limitedUpdates (sheetCells state);
       selectedCells := selectedCells state;
       undoStack := (undoStack state ++ [RestoreCells backup])%list;
       redoStack := [] |}
end.

End SpreadsheetContext.

(** * Facts about the embedding *)

(** ** Facts about strings *)

Section StringFacts.
Import Js.

Lemma append_nil_r (s : string) : s ++ "" = s.
Proof. induction s as [|c s IH]; simpl; [reflexivity | now rewrite IH]. Qed.

Lemma append_assoc (a b c : string) : (a ++ b) ++ c = a ++ (b ++ c).
Proof. induction a as [|x a IH]; simpl; [reflexivity | now rewrite IH]. Qed.

Lemma rev_append_spec (s acc : string) : rev_append s acc = rev s ++ acc.
Proof.
  unfold rev. revert acc.
  induction s as [|c s IH]; intros acc; simpl; [reflexivity|].
  rewrite IH, (IH (String c "")), append_assoc. reflexivity.
Qed.

Lemma rev_cons (c : ascii) (s : string) : rev (String c s) = rev s ++ String c "".
Proof. unfold rev at 1. simpl. apply rev_append_spec. Qed.

Lemma rev_app (a b : string) : rev (a ++ b) = rev b ++ rev a.
Proof.
  induction a as [|c a IH]; simpl.
  - now rewrite append_nil_r.
  - now rewrite !rev_cons, IH, append_assoc.
Qed.

Lemma rev_involutive (s : string) : rev (rev s) = s.
Proof.
  induction s as [|c s IH]; [reflexivity|].
  now rewrite rev_cons, rev_app, IH.
Qed.

Lemma forallb_app (p : ascii -> bool) (a b : string) :
  forallb p (a ++ b) = forallb p a && forallb p b.
Proof.
  induction a as [|c a IH]; simpl; [reflexivity|].
  now rewrite IH, andb_assoc.
Qed.

Lemma forallb_rev (p : ascii -> bool) (s : string) : forallb p (rev s) = forallb p s.
Proof.
  induction s as [|c s IH]; [reflexivity|].
  rewrite rev_cons, forallb_app, IH. simpl.
  rewrite andb_true_r. apply andb_comm.
Qed.

Lemma rev_nonempty (s : string) : s <> "" -> rev s <> "".
Proof.
  intros H E. apply H. rewrite <- (rev_involutive s), E. reflexivity.
Qed.

(** The first character of [s], if there is one, is rejected by [p]. *)
Definition headFails (p : ascii -> bool) (s : string) : Prop :=
  match s with
  | EmptyString => True
  | String c _ => p c = false
  end.

Lemma span_app (p : ascii -> bool) (a b : string) :
  forallb p a = true -> headFails p b -> span p (a ++ b) = (a, b).
Proof.
  intros Ha Hb. induction a as [|c a IH]; simpl in *.
  - destruct b as [|x b]; simpl in *; [reflexivity|]. now rewrite Hb.
  - apply andb_true_iff in Ha as [Hc Ha]. rewrite Hc, (IH Ha). reflexivity.
Qed.

Lemma headFails_of_forallb (p q : ascii -> bool) (s : string) :
  (forall c, q c = true -> p c = false) ->
  forallb q s = true -> headFails p s.
Proof.
  intros Hpq Hs. destruct s as [|c s]; simpl in *; [exact I|].
  apply andb_true_iff in Hs as [Hc _]. now apply Hpq.
Qed.

Lemma upper_not_digit (c : ascii) : isUpper c = true -> isDigit c = false.
Proof. unfold isUpper, isDigit. intros H. lia. Qed.

Lemma digit_not_upper (c : ascii) : isDigit c = true -> isUpper c = false.
Proof. unfold isUpper, isDigit. intros H. lia. Qed.

Lemma charCode_fromCharCode (n : Z) : 0 <= n < 256 -> charCode (fromCharCode n) = n.
Proof.
  intros H. unfold charCode, fromCharCode.
  rewrite N_ascii_embedding by lia. lia.
Qed.

Lemma fromCharCode_charCode (c : ascii) : fromCharCode (charCode c) = c.
Proof.
  unfold charCode, fromCharCode. rewrite N2Z.id. apply ascii_N_embedding.
Qed.

End StringFacts.

(** ** Round trip between cell ids and indices (cellHelpers.js) *)

Section CellIdRoundTrip.
Import Js CellHelpers.

Lemma getColumnIndex_loop_app (a b : string) (i : Z) :
  getColumnIndex_loop (a ++ b) i = getColumnIndex_loop b (getColumnIndex_loop a i).
Proof. revert i. induction a as [|c a IH]; intros i; simpl; [reflexivity | apply IH]. Qed.

Lemma getColumnIndex_loop_lower (s : string) (i : Z) :
  forallb isUpper s = true -> 0 <= i -> i <= getColumnIndex_loop s i.
Proof.
  revert i. induction s as [|c s IH]; intros i Hs Hi; simpl in *; [lia|].
  apply andb_true_iff in Hs as [Hc Hs]. unfold isUpper in Hc.
  specialize (IH (i * 26 + (charCode c - 64)) Hs). lia.
Qed.

(** What the loop of [getColumnId] prepends is a word of capitals whose
    value in bijective base 26 is [temp]. *)
Lemma getColumnId_loop_spec (fuel : nat) :
  forall temp id, 0 <= temp < 2 ^ Z.of_nat fuel ->
    exists p, getColumnId_loop fuel temp id = p ++ id
              /\ forallb isUpper p = true
              /\ getColumnIndex_loop p 0 = temp
              /\ (0 < temp -> p <> "").
Proof.
  induction fuel as [|fuel IH]; intros temp id Ht.
  - change (2 ^ Z.of_nat 0) with 1 in Ht.
    exists "". simpl. repeat split; try reflexivity; intros; lia.
  - cbn [getColumnId_loop]. destruct (0 <? temp) eqn:Hpos.
    + apply Z.ltb_lt in Hpos.
      set (r := (temp - 1) mod 26). set (q := (temp - 1) / 26).
      assert (Hr : 0 <= r < 26) by (apply Z.mod_pos_bound; lia).
      assert (Hq : temp - 1 = 26 * q + r) by (apply Z.div_mod; lia).
      assert (Hq0 : 0 <= q) by (apply Z.div_pos; lia).
      clearbody r q.
      assert (Hpow : 2 ^ Z.of_nat (S fuel) = 2 * 2 ^ Z.of_nat fuel).
      { rewrite Nat2Z.inj_succ, Z.pow_succ_r by lia. reflexivity. }
      destruct (IH q (String (fromCharCode (65 + r)) id)) as (p & Hp & Hup & Hval & _);
        [lia|].
      exists (p ++ String (fromCharCode (65 + r)) "").
      rewrite Hp, append_assoc. cbn [append]. split; [reflexivity|].
      split; [|split].
      * rewrite forallb_app, Hup. cbn [forallb andb]. unfold isUpper.
        rewrite charCode_fromCharCode by lia.
        apply andb_true_iff; split; [|reflexivity]. lia.
      * rewrite getColumnIndex_loop_app, Hval. cbn [getColumnIndex_loop].
        rewrite charCode_fromCharCode by lia. lia.
      * intros _. destruct p; discriminate.
    + apply Z.ltb_ge in Hpos. exists "". simpl. repeat split; try reflexivity; intros; lia.
Qed.

Lemma getColumnId_spec (index : Z) :
  0 <= index ->
  forallb isUpper (getColumnId index) = true
  /\ getColumnId index <> ""
  /\ getColumnIndex (getColumnId index) = index.
Proof.
  intros Hi. unfold getColumnId, getColumnIndex.
  destruct (getColumnId_loop_spec (S (Z.to_nat (Z.log2 (index + 1)))) (index + 1) "")
    as (p & Hp & Hup & Hval & Hne).
  - split; [lia|]. apply Z.log2_lt_pow2; [lia|].
    rewrite Nat2Z.inj_succ, Z2Nat.id by apply Z.log2_nonneg. lia.
  - rewrite Hp, append_nil_r. repeat split; [assumption | apply Hne; lia | lia].
Qed.

(** Conversely the loop rebuilds any word of capitals from its value. *)
Lemma getColumnId_loop_rebuild (r : string) :
  forall fuel id,
    forallb isUpper r = true ->
    getColumnIndex_loop (rev r) 0 < 2 ^ Z.of_nat fuel ->
    getColumnId_loop fuel (getColumnIndex_loop (rev r) 0) id = rev r ++ id.
Proof.
  induction r as [|c r IH]; intros fuel id Hup Hlt.
  - destruct fuel; reflexivity.
  - simpl in Hup. apply andb_true_iff in Hup as [Hc Hup].
    rewrite rev_cons in *. rewrite getColumnIndex_loop_app in *. simpl in *.
    set (v := getColumnIndex_loop (rev r) 0) in *.
    assert (Hv : 0 <= v).
    { apply (getColumnIndex_loop_lower (rev r) 0); [now rewrite forallb_rev | lia]. }
    unfold isUpper in Hc.
    destruct fuel as [|fuel]; [simpl in Hlt; lia|].
    cbn [getColumnId_loop].
    replace (0 <? v * 26 + (charCode c - 64)) with true by (symmetry; apply Z.ltb_lt; lia).
    replace (v * 26 + (charCode c - 64) - 1) with (v * 26 + (charCode c - 65)) by lia.
    rewrite <- (Z.div_unique _ 26 v (charCode c - 65)) by lia.
    rewrite <- (Z.mod_unique _ 26 v (charCode c - 65)) by lia.
    replace (65 + (charCode c - 65)) with (charCode c) by lia.
    rewrite fromCharCode_charCode, append_assoc. cbn [append].
    apply IH; [assumption|].
    rewrite Nat2Z.inj_succ, Z.pow_succ_r in Hlt by lia. lia.
Qed.

Lemma getColumnId_getColumnIndex (ls : string) :
  ls <> "" -> forallb isUpper ls = true -> getColumnId (getColumnIndex ls) = ls.
Proof.
  intros Hne Hup. unfold getColumnId, getColumnIndex.
  replace (getColumnIndex_loop ls 0 - 1 + 1) with (getColumnIndex_loop ls 0) by lia.
  assert (Hpos : 0 < getColumnIndex_loop ls 0).
  { destruct ls as [|c ls]; [congruence|]. simpl in *.
    apply andb_true_iff in Hup as [Hc Hup]. unfold isUpper in Hc.
    pose proof (getColumnIndex_loop_lower ls (charCode c - 64) Hup). lia. }
  rewrite <- (rev_involutive ls) at 2 3.
  rewrite getColumnId_loop_rebuild.
  - now rewrite rev_involutive, append_nil_r.
  - now rewrite forallb_rev.
  - rewrite rev_involutive. apply Z.log2_lt_pow2; [assumption|].
    rewrite Nat2Z.inj_succ, Z2Nat.id by apply Z.log2_nonneg. lia.
Qed.


Lemma string_of_uint_digits (d : Decimal.uint) :
  forallb isDigit (NilEmpty.string_of_uint d) = true.
Proof. induction d; simpl; try rewrite IHd; reflexivity. Qed.

Lemma intToString_pos (p : positive) :
  intToString (Z.pos p) = NilEmpty.string_of_uint (Pos.to_uint p)
  /\ intToString (Z.pos p) <> ""
  /\ parseDigits (intToString (Z.pos p)) = Some (Z.pos p).
Proof.
  unfold intToString, parseDigits. cbn [Z.to_int NilZero.string_of_int].
  pose proof (Unsigned.to_uint_nonnil p) as Hnil.
  rewrite NilZero.usu by assumption.
  unfold Z.of_uint. rewrite Unsigned.of_to.
  destruct (Pos.to_uint p); try congruence; repeat split; discriminate.
Qed.

Lemma isDigit_cases (c : ascii) :
  isDigit c = true ->
  c = "0"%char \/ c = "1"%char \/ c = "2"%char \/ c = "3"%char \/ c = "4"%char \/
  c = "5"%char \/ c = "6"%char \/ c = "7"%char \/ c = "8"%char \/ c = "9"%char.
Proof.
  destruct c as [[] [] [] [] [] [] [] []]; intros H; vm_compute in H;
    try discriminate; tauto.
Qed.

Lemma digits_parse (ds : string) :
  forallb isDigit ds = true -> exists d, NilEmpty.uint_of_string ds = Some d.
Proof.
  induction ds as [|c ds IH]; intros H; simpl in *.
  - now exists Decimal.Nil.
  - apply andb_true_iff in H as [Hc Hds]. destruct (IH Hds) as [d Hd]. rewrite Hd.
    destruct (isDigit_cases c Hc) as [E|[E|[E|[E|[E|[E|[E|[E|[E|E]]]]]]]]];
      subst c; eexists; reflexivity.
Qed.

Lemma canonicalRow_parse (ds : string) :
  canonicalRow ds = true ->
  exists d, NilZero.uint_of_string ds = Some d /\ Decimal.unorm d = d.
Proof.
  destruct ds as [|c ds]; [discriminate|]. cbn [canonicalRow forallb].
  intros H. apply andb_true_iff in H as [H Hz].
  apply andb_true_iff in H as [Hc Hds].
  destruct (digits_parse ds Hds) as [d Hd].
  cbn [NilZero.uint_of_string NilEmpty.uint_of_string]. rewrite Hd.
  destruct (isDigit_cases c Hc) as [E|[E|[E|[E|[E|[E|[E|[E|[E|E]]]]]]]]];
    subst c; try discriminate; eexists; split; reflexivity.
Qed.

Lemma canonicalRow_round_trip (ds : string) :
  canonicalRow ds = true ->
  exists n, parseDigits ds = Some n /\ intToString n = ds.
Proof.
  intros H. destruct (canonicalRow_parse ds H) as (d & Hd & Hn).
  exists (Z.of_uint d). unfold parseDigits, intToString. rewrite Hd.
  split; [reflexivity|].
  change (Z.of_uint d) with (Z.of_int (Decimal.Pos d)).
  rewrite DecimalZ.to_of. cbn [Decimal.norm]. rewrite Hn.
  cbn [NilZero.string_of_int]. now apply NilZero.sus.
Qed.

Lemma canonicalRow_digits (ds : string) :
  canonicalRow ds = true -> forallb isDigit ds = true /\ ds <> "".
Proof.
  destruct ds as [|c ds]; [discriminate|]. cbn [canonicalRow].
  intros H. apply andb_true_iff in H as [H _]. split; [assumption | discriminate].
Qed.

(** Splitting a word of capitals followed by digits, the way the two
    regular expressions of [getCellIndices] do. *)
Lemma split_letters_digits (ls ds : string) :
  ls <> "" -> forallb isUpper ls = true ->
  ds <> "" -> forallb isDigit ds = true ->
  matchLeadingLetters (ls ++ ds) = Some ls
  /\ matchTrailingDigits (ls ++ ds) = Some ds.
Proof.
  intros Hl Hup Hd Hdig. unfold matchLeadingLetters, matchTrailingDigits. split.
  - rewrite span_app; [| assumption | ].
    + destruct ls; [congruence | reflexivity].
    + apply (headFails_of_forallb _ isDigit); [apply digit_not_upper | assumption].
  - rewrite rev_app, span_app.
    + pose proof (rev_nonempty ds Hd). rewrite rev_involutive.
      destruct (rev ds); [congruence | reflexivity].
    + now rewrite forallb_rev.
    + apply (headFails_of_forallb _ isUpper); [apply upper_not_digit |].
      now rewrite forallb_rev.
Qed.

Lemma getCellIndices_getCellId (col row : Z) :
  0 <= col -> 0 <= row -> getCellIndices (getCellId col row) = Some (col, row).
Proof.
  intros Hc Hr. unfold getCellIndices, getCellId.
  destruct (getColumnId_spec col Hc) as (Hup & Hne & Hidx).
  destruct (row + 1) as [|p|p] eqn:Hp; try lia.
  destruct (intToString_pos p) as (Hs & Hsne & Hparse).
  destruct (split_letters_digits (getColumnId col) (intToString (Z.pos p)))
    as [Hl Ht]; try assumption.
  { rewrite Hs. apply string_of_uint_digits. }
  rewrite Hl, Ht, Hparse, Hidx. f_equal. f_equal. lia.
Qed.

Lemma getCellId_getCellIndices (s : string) :
  canonicalCellId s ->
  exists col row, getCellIndices s = Some (col, row) /\ getCellId col row = s.
Proof.
  intros (ls & ds & -> & Hne & Hup & Hrow).
  destruct (canonicalRow_digits ds Hrow) as [Hdig Hdne].
  destruct (canonicalRow_round_trip ds Hrow) as (n & Hparse & Hprint).
  destruct (split_letters_digits ls ds) as [Hl Ht]; try assumption.
  exists (getColumnIndex ls), (n - 1). unfold getCellIndices, getCellId.
  rewrite Hl, Ht, Hparse. split; [reflexivity|].
  rewrite getColumnId_getColumnIndex by assumption.
  replace (n - 1 + 1) with n by lia. now rewrite Hprint.
Qed.

Lemma canonicalRow_positive (ds : string) (n : Z) :
  canonicalRow ds = true -> intToString n = ds -> 1 <= n.
Proof.
  intros Hrow <-. destruct n as [|q|q]; [discriminate | lia |].
  unfold intToString in Hrow. cbn [Z.to_int NilZero.string_of_int] in Hrow.
  discriminate.
Qed.

Lemma getCellIndices_canonical (s : string) :
  canonicalCellId s ->
  exists col row, getCellIndices s = Some (col, row) /\ 0 <= col /\ 0 <= row.
Proof.
  intros (ls & ds & -> & Hne & Hup & Hrow).
  destruct (canonicalRow_digits ds Hrow) as [Hdig Hdne].
  destruct (canonicalRow_round_trip ds Hrow) as (n & Hparse & Hprint).
  destruct (split_letters_digits ls ds) as [Hl Ht]; try assumption.
  exists (getColumnIndex ls), (n - 1). unfold getCellIndices.
  rewrite Hl, Ht, Hparse. split; [reflexivity|]. split.
  - unfold getColumnIndex. destruct ls as [|c ls]; [congruence|].
    cbn [getColumnIndex_loop forallb] in *.
    apply andb_true_iff in Hup as [Hc Hup]. unfold isUpper in Hc.
    pose proof (getColumnIndex_loop_lower ls (0 * 26 + (charCode c - 64)) Hup). lia.
  - pose proof (canonicalRow_positive ds n Hrow Hprint). lia.
Qed.

(** C8. Both round trips, for the columns and rows that JS numbers
    hold exactly: [getCellIndices (getCellId col row)] is [(col, row)]
    for all indices from 0 to [MAX_SAFE_INTEGER], and [getCellId]
    rebuilds every canonical cell id whose column and row are within
    this bound from what [getCellIndices] returns for it. *)
Theorem cell_id_round_trip (col row : Z) (s : string) :
  0 <= col <= MAX_SAFE_INTEGER -> 0 <= row <= MAX_SAFE_INTEGER ->
  canonicalCellId s -> safeCellId s ->
  getCellIndices (getCellId col row) = Some (col, row)
  /\ exists c r, getCellIndices s = Some (c, r) /\ getCellId c r = s
                 /\ 0 <= c <= MAX_SAFE_INTEGER /\ 0 <= r <= MAX_SAFE_INTEGER.
Proof.
  intros Hc Hr Hs Hsafe. split.
  - apply getCellIndices_getCellId; lia.
  - destruct (getCellId_getCellIndices s Hs) as (c & r & Hi & Hid).
    destruct (getCellIndices_canonical s Hs) as (c' & r' & Hi' & Hc0 & Hr0).
    rewrite Hi in Hi'. injection Hi' as <- <-.
    destruct (Hsafe c r Hi) as [Hcm Hrm].
    exists c, r. repeat split; assumption.
Qed.

Lemma cell_id_round_trip_witness :
  getCellIndices (getCellId 27 11) = Some (27, 11)
  /\ exists c r, getCellIndices "AB12" = Some (c, r) /\ getCellId c r = "AB12"
                 /\ 0 <= c <= MAX_SAFE_INTEGER /\ 0 <= r <= MAX_SAFE_INTEGER.
Proof.
  apply (cell_id_round_trip 27 11 "AB12").
  - unfold MAX_SAFE_INTEGER. lia.
  - unfold MAX_SAFE_INTEGER. lia.
  - exists "AB", "12". repeat split; try reflexivity. discriminate.
  - intros c r H. vm_compute in H. injection H as <- <-. unfold MAX_SAFE_INTEGER. lia.
Defined.

(** The last row and column within the bound. *)
Example cell_id_round_trip_at_the_bound :
  getCellId MAX_SAFE_INTEGER MAX_SAFE_INTEGER = "BKTXHSOGHKKF9007199254740992"
  /\ getCellIndices "BKTXHSOGHKKF9007199254740992"
     = Some (MAX_SAFE_INTEGER, MAX_SAFE_INTEGER).
Proof. split; vm_compute; reflexivity. Qed.

End CellIdRoundTrip.

Local Open Scope list_scope.

(** ** C7: the expansion of a range *)

Section RangeExpansion.
Import Js FormulaParser.

(** The integers [a], [a + 1], ... ([n] of them), and those from [a] to
    [b]. *)
Fixpoint countFrom (a : Z) (n : nat) : list Z :=
  match n with
  | O => []
  | S k => a :: countFrom (a + 1) k
  end.

Definition fromTo (a b : Z) : list Z := countFrom a (Z.to_nat (b - a + 1)).

(** The cells of a row, by increasing column, and the cells of a
    rectangle, row after row by increasing row. *)
Definition rowCells (minCol maxCol row : Z) : list string :=
  List.map (fun col => rangeCellId col row) (fromTo minCol maxCol).

Definition rowMajor (minCol maxCol minRow maxRow : Z) : list string :=
  flat_map (rowCells minCol maxCol) (fromTo minRow maxRow).

Lemma countFrom_length (a : Z) (n : nat) : length (countFrom a n) = n.
Proof. revert a. induction n as [|n IH]; intros a; cbn; [reflexivity | now rewrite IH]. Qed.

Lemma fromTo_cons (a b : Z) : a <= b -> fromTo a b = a :: fromTo (a + 1) b.
Proof.
  intros H. unfold fromTo.
  replace (Z.to_nat (b - a + 1)) with (S (Z.to_nat (b - (a + 1) + 1))) by lia.
  reflexivity.
Qed.

Lemma fromTo_nil (a b : Z) : b < a -> fromTo a b = [].
Proof. intros H. unfold fromTo. replace (Z.to_nat (b - a + 1)) with O by lia. reflexivity. Qed.

Lemma fromTo_length (a b : Z) : length (fromTo a b) = Z.to_nat (b - a + 1).
Proof. apply countFrom_length. Qed.

Lemma rowCells_length (minCol maxCol row : Z) :
  length (rowCells minCol maxCol row) = Z.to_nat (maxCol - minCol + 1).
Proof. unfold rowCells. now rewrite length_map, fromTo_length. Qed.

Lemma rowMajor_length (minCol maxCol minRow maxRow : Z) :
  length (rowMajor minCol maxCol minRow maxRow)
  = (Z.to_nat (maxRow - minRow + 1) * Z.to_nat (maxCol - minCol + 1))%nat.
Proof.
  unfold rowMajor.
  rewrite (flat_map_constant_length (c := Z.to_nat (maxCol - minCol + 1))).
  - now rewrite fromTo_length.
  - intros row _. apply rowCells_length.
Qed.

(** **** The loops of [generateLimitedRange] *)

Lemma limitedCols_spec (row maxCol maxCells : Z) (fuel : nat) :
  forall col cells count,
    (Z.to_nat (maxCells - count) <= fuel)%nat ->
    limitedCols fuel row col maxCol maxCells (cells, count)
    = let taken := firstn (Z.to_nat (maxCells - count)) (rowCells col maxCol row) in
      (cells ++ taken, count + Z.of_nat (length taken)).
Proof.
  induction fuel as [|fuel IH]; intros col cells count Hfuel; cbn [limitedCols].
  - replace (Z.to_nat (maxCells - count)) with O by lia. cbn.
    now rewrite List.app_nil_r, Z.add_0_r.
  - destruct (col <=? maxCol) eqn:Hc; destruct (count <? maxCells) eqn:Hk; cbn [andb].
    + apply Z.leb_le in Hc. apply Z.ltb_lt in Hk.
      rewrite IH by lia. unfold rowCells. rewrite (fromTo_cons col maxCol Hc).
      replace (Z.to_nat (maxCells - count)) with (S (Z.to_nat (maxCells - (count + 1))))
        by lia.
      cbn [List.map firstn length]. rewrite <- List.app_assoc. cbn [app].
      f_equal. lia.
    + apply Z.ltb_ge in Hk. replace (Z.to_nat (maxCells - count)) with O by lia.
      cbn. now rewrite List.app_nil_r, Z.add_0_r.
    + apply Z.leb_gt in Hc. unfold rowCells. rewrite fromTo_nil by lia.
      cbn [List.map]. rewrite firstn_nil. cbn. now rewrite List.app_nil_r, Z.add_0_r.
    + apply Z.ltb_ge in Hk. replace (Z.to_nat (maxCells - count)) with O by lia.
      cbn. now rewrite List.app_nil_r, Z.add_0_r.
Qed.

Lemma limitedRows_spec (maxRow minCol maxCol maxCells : Z) (fuel : nat) :
  minCol <= maxCol ->
  forall row cells count,
    (Z.to_nat (maxCells - count) <= fuel)%nat ->
    fst (limitedRows fuel row maxRow minCol maxCol maxCells (cells, count))
    = cells ++ firstn (Z.to_nat (maxCells - count)) (rowMajor minCol maxCol row maxRow).
Proof.
  intros Hcols. induction fuel as [|fuel IH]; intros row cells count Hfuel;
    cbn [limitedRows snd].
  - replace (Z.to_nat (maxCells - count)) with O by lia. cbn. now rewrite List.app_nil_r.
  - destruct (row <=? maxRow) eqn:Hr; destruct (count <? maxCells) eqn:Hk; cbn [andb fst].
    + apply Z.leb_le in Hr. apply Z.ltb_lt in Hk.
      rewrite limitedCols_spec by lia. cbv zeta.
      set (k := Z.to_nat (maxCells - count)).
      set (cellsOfRow := rowCells minCol maxCol row).
      assert (Hlen : length cellsOfRow = Z.to_nat (maxCol - minCol + 1))
        by apply rowCells_length.
      assert (Hk1 : (1 <= k)%nat) by (subst k; lia).
      assert (Htaken : length (firstn k cellsOfRow) = Nat.min k (length cellsOfRow))
        by apply length_firstn.
      rewrite IH by lia.
      unfold rowMajor. rewrite (fromTo_cons row maxRow Hr). cbn [flat_map].
      fold cellsOfRow. rewrite firstn_app, <- List.app_assoc. f_equal. f_equal.
      replace (Z.to_nat (maxCells - (count + Z.of_nat (length (firstn k cellsOfRow)))))
        with (k - length (firstn k cellsOfRow))%nat by (subst k; lia).
      destruct (Nat.le_gt_cases (length cellsOfRow) k) as [Hle|Hgt].
      * f_equal. lia.
      * replace (k - length (firstn k cellsOfRow))%nat with O by lia.
        replace (k - length cellsOfRow)%nat with O by lia. reflexivity.
    + apply Z.ltb_ge in Hk. replace (Z.to_nat (maxCells - count)) with O by lia.
      cbn. now rewrite List.app_nil_r.
    + apply Z.leb_gt in Hr. unfold rowMajor. rewrite fromTo_nil by lia.
      cbn [flat_map]. rewrite firstn_nil. now rewrite List.app_nil_r.
    + apply Z.ltb_ge in Hk. replace (Z.to_nat (maxCells - count)) with O by lia.
      cbn. now rewrite List.app_nil_r.
Qed.

Lemma generateLimitedRange_spec (startCol startRow endCol endRow maxCells : Z) :
  generateLimitedRange startCol startRow endCol endRow maxCells
  = firstn (Z.to_nat maxCells)
           (rowMajor (Z.min startCol endCol) (Z.max startCol endCol)
                     (Z.min startRow endRow) (Z.max startRow endRow)).
Proof.
  unfold generateLimitedRange. cbv zeta.
  rewrite limitedRows_spec by lia. cbn [app]. now rewrite Z.sub_0_r.
Qed.

(** **** The loops of [generateCellRange] *)

Lemma fullCols_spec (row maxCol : Z) (fuel : nat) :
  forall col cells,
    (Z.to_nat (maxCol - col + 1) <= fuel)%nat ->
    fullCols fuel row col maxCol cells = cells ++ rowCells col maxCol row.
Proof.
  induction fuel as [|fuel IH]; intros col cells Hfuel; cbn [fullCols].
  - unfold rowCells. rewrite fromTo_nil by lia. cbn. now rewrite List.app_nil_r.
  - destruct (col <=? maxCol) eqn:Hc.
    + apply Z.leb_le in Hc. rewrite IH by lia.
      unfold rowCells. rewrite (fromTo_cons col maxCol Hc). cbn [List.map].
      now rewrite <- List.app_assoc.
    + apply Z.leb_gt in Hc. unfold rowCells. rewrite fromTo_nil by lia.
      cbn. now rewrite List.app_nil_r.
Qed.

Lemma fullRows_spec (maxRow minCol maxCol : Z) (fuel : nat) :
  forall row cells,
    (Z.to_nat (maxRow - row + 1) <= fuel)%nat ->
    fullRows fuel row maxRow minCol maxCol cells
    = cells ++ rowMajor minCol maxCol row maxRow.
Proof.
  induction fuel as [|fuel IH]; intros row cells Hfuel; cbn [fullRows].
  - unfold rowMajor. rewrite fromTo_nil by lia. cbn. now rewrite List.app_nil_r.
  - destruct (row <=? maxRow) eqn:Hr.
    + apply Z.leb_le in Hr. rewrite IH by lia.
      rewrite fullCols_spec by lia.
      unfold rowMajor. rewrite (fromTo_cons row maxRow Hr). cbn [flat_map].
      now rewrite <- List.app_assoc.
    + apply Z.leb_gt in Hr. unfold rowMajor. rewrite fromTo_nil by lia.
      cbn. now rewrite List.app_nil_r.
Qed.

Lemma generateCellRange_spec (startCol startRow endCol endRow : Z) :
  generateCellRange startCol startRow endCol endRow
  = rowMajor (Z.min startCol endCol) (Z.max startCol endCol)
             (Z.min startRow endRow) (Z.max startRow endRow).
Proof.
  unfold generateCellRange. cbv zeta. now rewrite fullRows_spec by lia.
Qed.

(** The size that [parseCellRange] computes is the number of cells of
    the rectangle. *)
Lemma rangeSize_length (startCol startRow endCol endRow : Z) :
  Z.of_nat (length (rowMajor (Z.min startCol endCol) (Z.max startCol endCol)
                             (Z.min startRow endRow) (Z.max startRow endRow)))
  = (Z.abs (endRow - startRow) + 1) * (Z.abs (endCol - startCol) + 1).
Proof.
  rewrite rowMajor_length, Nat2Z.inj_mul, !Z2Nat.id by lia.
  f_equal; lia.
Qed.


(** The rectangle of a range, as [parseCellRange] reads it. *)
Definition rectangle (startCol startRow endCol endRow : Z) : list string :=
  rowMajor (Z.min startCol endCol) (Z.max startCol endCol)
           (Z.min startRow endRow) (Z.max startRow endRow).

Lemma expansion_of_rectangle (startCol startRow endCol endRow : Z) :
  (if maxCells <? (Z.abs (endRow - startRow) + 1) * (Z.abs (endCol - startCol) + 1)
   then generateLimitedRange startCol startRow endCol endRow maxCells
   else generateCellRange startCol startRow endCol endRow)
  = firstn 1000 (rectangle startCol startRow endCol endRow).
Proof.
  rewrite generateLimitedRange_spec, generateCellRange_spec.
  fold (rectangle startCol startRow endCol endRow).
  rewrite <- rangeSize_length. fold (rectangle startCol startRow endCol endRow).
  change (Z.to_nat maxCells) with 1000%nat.
  destruct (maxCells <? _) eqn:H; [reflexivity|].
  apply Z.ltb_ge in H. unfold maxCells in H.
  symmetry. apply firstn_all2. lia.
Qed.

(** The columns and the rows that [parseCellRange] reads from the two
    ends of a range. *)
Definition rangeEnds (range : string) : option (Z * Z * Z * Z) :=
  match split ":" range with
  | [p0; p1] =>
      match matchLettersDigits (trim p0), matchLettersDigits (trim p1) with
      | Some (sl, sd), Some (el, ed) =>
          match parseDigits sd, parseDigits ed with
          | Some startRow, Some endRow =>
              Some (columnLetterToIndex sl, startRow, columnLetterToIndex el, endRow)
          | _, _ => None
          end
      | _, _ => None
      end
  | _ => None
  end.

(** A range whose columns and rows are safe integers: the loops of the
    code count up to them and one further without rounding. *)
Definition safeRange (range : string) : Prop :=
  match rangeEnds range with
  | Some (startCol, startRow, endCol, endRow) =>
      startCol <= MAX_SAFE_INTEGER /\ startRow <= MAX_SAFE_INTEGER
      /\ endCol <= MAX_SAFE_INTEGER /\ endRow <= MAX_SAFE_INTEGER
  | None => True
  end.

(** No range expands to more than 1000 cells. *)
Lemma parseCellRange_cap (range : string) : (length (parseCellRange range) <= 1000)%nat.
Proof.
  assert (Hnil : (length (@nil string) <= 1000)%nat) by (cbn [length]; lia).
  assert (Hone : (length (if isValidCellReference range then [range] else [])
                  <= 1000)%nat)
    by (destruct (isValidCellReference range); cbn [length]; lia).
  unfold parseCellRange.
  destruct (isEmpty range); [exact Hnil|].
  destruct (split ":" range) as [|p0 [|p1 [|p2 rest]]]; try exact Hone.
  destruct (negb _ || negb _)%bool; [exact Hnil|].
  destruct (matchLettersDigits (trim p0)) as [[sl sd]|]; [|exact Hnil].
  destruct (matchLettersDigits (trim p1)) as [[el ed]|]; [|exact Hnil].
  destruct (parseDigits sd) as [startRow|]; [|exact Hnil].
  destruct (parseDigits ed) as [endRow|]; [|exact Hnil].
  destruct ((startRow <=? 0) || (endRow <=? 0))%bool; [exact Hnil|].
  cbv zeta. rewrite expansion_of_rectangle. apply firstn_le_length.
Qed.

(** C7. A range whose two ends are cell references with rows of at
    least 1, rows and columns being safe integers, expands to the
    first 1000 cells of its rectangle (the columns and the rows
    between the smaller and the larger end), taken row after row by
    increasing row, and in a row by increasing column; all of them
    when the rectangle has at most 1000 cells. No range with safe rows
    and columns expands to more than 1000 cells. *)
Theorem range_expansion_row_major
        (range p0 p1 sl sd el ed : string) (startRow endRow : Z) :
  range <> "" ->
  split ":" range = [p0; p1] ->
  isValidCellReference (trim p0) = true ->
  isValidCellReference (trim p1) = true ->
  matchLettersDigits (trim p0) = Some (sl, sd) ->
  matchLettersDigits (trim p1) = Some (el, ed) ->
  parseDigits sd = Some startRow ->
  parseDigits ed = Some endRow ->
  0 < startRow <= MAX_SAFE_INTEGER -> 0 < endRow <= MAX_SAFE_INTEGER ->
  columnLetterToIndex sl <= MAX_SAFE_INTEGER ->
  columnLetterToIndex el <= MAX_SAFE_INTEGER ->
  let rect := rectangle (columnLetterToIndex sl) startRow (columnLetterToIndex el) endRow in
  parseCellRange range = firstn 1000 rect
  /\ ((length rect <= 1000)%nat -> parseCellRange range = rect)
  /\ (forall r, safeRange r -> (length (parseCellRange r) <= 1000)%nat).
Proof.
  intros Hne Hsplit Hv0 Hv1 Hm0 Hm1 Hr0 Hr1 Hpos0 Hpos1 _ _ rect.
  assert (H : parseCellRange range = firstn 1000 rect).
  { unfold parseCellRange. destruct range; [congruence|]. cbn [isEmpty].
    rewrite Hsplit, Hv0, Hv1, Hm0, Hm1, Hr0, Hr1. cbn [negb orb].
    replace (startRow <=? 0) with false by (symmetry; apply Z.leb_gt; lia).
    replace (endRow <=? 0) with false by (symmetry; apply Z.leb_gt; lia).
    cbn [orb]. cbv zeta. apply expansion_of_rectangle. }
  split; [exact H|]. split.
  - intros Hlen. rewrite H. now apply firstn_all2.
  - intros r _. apply parseCellRange_cap.
Qed.

Lemma range_expansion_row_major_witness :
  parseCellRange "B2:A1" = firstn 1000 ["A1"; "B1"; "A2"; "B2"]
  /\ ((length ["A1"; "B1"; "A2"; "B2"] <= 1000)%nat ->
      parseCellRange "B2:A1" = ["A1"; "B1"; "A2"; "B2"])
  /\ (forall r, safeRange r -> (length (parseCellRange r) <= 1000)%nat).
Proof.
  apply (range_expansion_row_major "B2:A1" "B2" "A1" "B" "2" "A" "1" 2 1).
  all: try discriminate.
  all: try (vm_compute; reflexivity).
  all: vm_compute; split; [reflexivity | discriminate].
Defined.

(** A rectangle of 1200 cells: 1000 are returned, starting with the
    first row. *)
Example range_expansion_large :
  length (parseCellRange "A1:C400") = 1000%nat
  /\ firstn 4 (parseCellRange "A1:C400") = ["A1"; "B1"; "C1"; "A2"]
  /\ nth_error (parseCellRange "A1:C400") 999 = Some "A334".
Proof. vm_compute. repeat split. Qed.

End RangeExpansion.

Local Close Scope Z_scope.

(** ** The parser: unfolding lemmas *)

Ltac parser_simpl :=
  cbn [FormulaParser.cellsUsed FormulaParser.cacheHits FormulaParser.cacheMisses
       FormulaParser.circularReferences FormulaParser.processingStack
       FormulaParser.evaluationCache FormulaParser.setCellsUsed
       FormulaParser.setCircularReferences FormulaParser.setProcessingStack
       FormulaParser.setEvaluationCache FormulaParser.countCacheHit
       FormulaParser.countCacheMiss FormulaParser.getCellsUsed
       FormulaParser.newParser FormulaParser.value FormulaParser.dependencies] in *.

Section ParserSteps.
Import Js FormulaParser.
Variable host : Host.
Variable getCellValue : string -> jsval.

Lemma evaluate_miss (n : nat) (f : string) (p : Parser) :
  startsWith "=" f = true ->
  map_get f (evaluationCache p) = None ->
  evaluate host getCellValue (S n) (VStr f) p
  = evaluateMiss host getCellValue (evaluate host getCellValue n) f p.
Proof.
  intros Hf Hc. cbn [FormulaParser.evaluate evaluateBody]. rewrite Hf, Hc.
  destruct f; [discriminate | reflexivity].
Qed.

Lemma evaluate_hit (n : nat) (f : string) (p : Parser) (e : CacheEntry) :
  startsWith "=" f = true ->
  map_get f (evaluationCache p) = Some e ->
  evaluate host getCellValue (S n) (VStr f) p = evaluateHit e p.
Proof.
  intros Hf Hc. cbn [FormulaParser.evaluate evaluateBody]. rewrite Hf, Hc.
  destruct f; [discriminate | reflexivity].
Qed.

(** The callback on a reference that is being resolved. *)
Lemma replaceCallback_circular (ev : jsval -> Eval jsval) (ref : string) (p : Parser) :
  set_has ref (processingStack p) = true ->
  replaceCallback host getCellValue ev ref p
  = Some ("0", setCircularReferences (set_add ref (circularReferences p))
                 (setCellsUsed (set_add ref (cellsUsed p)) p)).
Proof. intros H. unfold replaceCallback. parser_simpl. now rewrite H. Qed.

(** The callback on a reference whose cell holds a formula. *)
Lemma replaceCallback_formula (ev : jsval -> Eval jsval) (ref f : string) (p p' : Parser)
      (v : jsval) :
  set_has ref (processingStack p) = false ->
  getCellValue ref = VStr f ->
  startsWith "=" f = true ->
  ev (VStr f) (setProcessingStack (set_add ref (processingStack p))
                 (setCellsUsed (set_add ref (cellsUsed p)) p)) = Some (v, p') ->
  replaceCallback host getCellValue ev ref p
  = Some (substituted host v, setProcessingStack (set_delete ref (processingStack p')) p').
Proof.
  intros Hs Hv Hf He. unfold replaceCallback. parser_simpl.
  rewrite Hs, Hv, Hf. parser_simpl. now rewrite He.
Qed.

(** The names that [evaluateExpression] looks for, in its order. *)
Definition knownFunctions : list string :=
  ["SUM"; "AVERAGE"; "MIN"; "MAX"; "COUNT"; "MEDIAN"; "STDEV"; "IF"; "AND"; "OR";
   "NOT"; "CONCATENATE"; "LEFT"; "RIGHT"; "MID"; "LEN"; "UPPER"; "LOWER"; "NOW";
   "TODAY"; "DATE"; "YEAR"; "MONTH"; "DAY"].

Definition isFunctionCall (expression : string) : bool :=
  List.existsb (fun name => startsWith (name ++ "(") (toUpperCase expression))
               knownFunctions.

(** An expression that calls none of the functions goes to mathjs. *)
Lemma evaluateExpression_math (ev : jsval -> Eval jsval) (e : string) (p : Parser) :
  e <> "" -> isFunctionCall e = false ->
  evaluateExpression host getCellValue ev e p = Some (evaluateMath host e, p).
Proof.
  intros Hne H. unfold isFunctionCall, knownFunctions in H.
  cbn [List.existsb] in H.
  repeat match type of H with
         | (_ || _)%bool = false => apply orb_false_iff in H; destruct H as [? H]
         end.
  unfold evaluateExpression.
  destruct e as [|c e]; [congruence|]. cbn [isEmpty].
  repeat match goal with
         | E : startsWith ?a ?b = false |- _ => rewrite E; clear E
         end.
  reflexivity.
Qed.


(** A text between double quotes, as the substitution writes it when
    the text holds no double quote. *)
Definition quoted (s : string) : string := String dquote (s ++ String dquote "").

Lemma substituted_text (s : string) :
  PrimFloat.is_nan (stringToNumber host s) = true ->
  s <> "" ->
  substituted host (VStr s) = String dquote (escapeQuotes s ++ String dquote "").
Proof.
  intros Hn Hs. unfold substituted. cbn [isNaN isEmptyStr toString]. rewrite Hn.
  destruct s; [congruence | reflexivity].
Qed.

End ParserSteps.

(** ** C1: two cells that refer to each other *)

Section Circular.
Import Js FormulaParser.
Variable host : Host.
Variable getCellValue : string -> jsval.

Definition circularB1 : string := "#CIRCULAR! (B1)".

Hypothesis cellA1 : getCellValue "A1" = VStr "=B1".
Hypothesis cellB1 : getCellValue "B1" = VStr "=A1".
(** mathjs reads a text between double quotes as that text, and the
    marker is not a number. *)
Hypothesis mathString : math_evaluate host (quoted circularB1) = Some (VStr circularB1).
Hypothesis markerNaN : PrimFloat.is_nan (stringToNumber host circularB1) = true.

(** The innermost call: B1 is met while it is being resolved. *)
Lemma evaluate_B1_inside (n : nat) (p : Parser) :
  set_has "B1" (processingStack p) = true ->
  circularReferences p = [] ->
  map_get "=B1" (evaluationCache p) = None ->
  exists p',
    evaluate host getCellValue (S n) (VStr "=B1") p = Some (VStr circularB1, p')
    /\ cellsUsed p' = ["B1"]
    /\ circularReferences p' = []
    /\ processingStack p' = processingStack p
    /\ evaluationCache p' = evaluationCache p.
Proof.
  intros Hs Hc Hm.
  rewrite evaluate_miss by (reflexivity || assumption).
  unfold evaluateMiss.
  change (trim (drop 1 "=B1")) with "B1". cbn [isEmpty].
  unfold replaceCellReferences. cbn [isEmpty].
  change (scanCellRefs 0 "B1") with [Ref "B1"]. cbn [replacePieces].
  rewrite replaceCallback_circular by (parser_simpl; assumption).
  parser_simpl. rewrite Hc.
  eexists. split; [reflexivity|]. parser_simpl. repeat split; reflexivity.
Qed.

(** The substituted marker is handed to mathjs and comes back. *)
Lemma evaluateExpression_marker (ev : jsval -> Eval jsval) (p : Parser) :
  evaluateExpression host getCellValue ev (substituted host (VStr circularB1) ++ "") p
  = Some (VStr circularB1, p).
Proof.
  rewrite substituted_text by (assumption || discriminate).
  change (String dquote (escapeQuotes circularB1 ++ String dquote "") ++ "")%string
    with (quoted circularB1).
  rewrite evaluateExpression_math by (discriminate || reflexivity).
  unfold evaluateMath. now rewrite mathString.
Qed.

(** The call in the middle: the formula of A1, B1 being resolved. *)
Lemma evaluate_A1_inside (n : nat) (p : Parser) :
  processingStack p = ["B1"] ->
  circularReferences p = [] ->
  map_get "=A1" (evaluationCache p) = None ->
  map_get "=B1" (evaluationCache p) = None ->
  exists p',
    evaluate host getCellValue (S (S n)) (VStr "=A1") p = Some (VStr circularB1, p')
    /\ cellsUsed p' = ["B1"]
    /\ circularReferences p' = []
    /\ processingStack p' = ["B1"].
Proof.
  intros Hs Hc HmA HmB.
  rewrite evaluate_miss by (reflexivity || assumption).
  unfold evaluateMiss.
  change (trim (drop 1 "=A1")) with "A1". cbn [isEmpty].
  unfold replaceCellReferences. cbn [isEmpty].
  change (scanCellRefs 0 "A1") with [Ref "A1"]. cbn [replacePieces].
  set (q := setCellsUsed [] (countCacheMiss p)).
  assert (Hq : set_has "A1" (processingStack q) = false)
    by (subst q; parser_simpl; now rewrite Hs).
  destruct (evaluate_B1_inside n
              (setProcessingStack (set_add "A1" (processingStack q))
                 (setCellsUsed (set_add "A1" (cellsUsed q)) q)))
    as (p1 & He & Hu & Hc1 & Hs1 & Hm1).
  { subst q. parser_simpl. now rewrite Hs. }
  { subst q. parser_simpl. assumption. }
  { subst q. parser_simpl. assumption. }
  rewrite (replaceCallback_formula host getCellValue _ "A1" "=B1" q p1 _ Hq cellA1
             eq_refl He).
  parser_simpl. rewrite Hc1, evaluateExpression_marker.
  eexists. split; [reflexivity|]. parser_simpl.
  rewrite Hu, Hs1. subst q. parser_simpl. rewrite Hs.
  repeat split; try reflexivity; assumption.
Qed.

(** C1. With A1 holding the formula of B1 and B1 that of A1, [evaluate]
    on the formula of A1 returns, at any depth of at least 3, the
    marker of a circular reference that names B1; the result is a
    string, not a number. *)
Theorem circular_pair_detected (n : nat) (p : Parser) :
  processingStack p = [] ->
  circularReferences p = [] ->
  map_get "=A1" (evaluationCache p) = None ->
  map_get "=B1" (evaluationCache p) = None ->
  exists p',
    evaluate host getCellValue (S (S (S n))) (VStr "=B1") p
    = Some (VStr "#CIRCULAR! (B1)", p').
Proof.
  intros Hs Hc HmA HmB.
  rewrite evaluate_miss by (reflexivity || assumption).
  unfold evaluateMiss.
  change (trim (drop 1 "=B1")) with "B1". cbn [isEmpty].
  unfold replaceCellReferences. cbn [isEmpty].
  change (scanCellRefs 0 "B1") with [Ref "B1"]. cbn [replacePieces].
  set (q := setCellsUsed [] (countCacheMiss p)).
  assert (Hq : set_has "B1" (processingStack q) = false)
    by (subst q; parser_simpl; now rewrite Hs).
  destruct (evaluate_A1_inside n
              (setProcessingStack (set_add "B1" (processingStack q))
                 (setCellsUsed (set_add "B1" (cellsUsed q)) q)))
    as (p1 & He & Hu & Hc1 & Hs1).
  { subst q. parser_simpl. now rewrite Hs. }
  { subst q. parser_simpl. assumption. }
  { subst q. parser_simpl. assumption. }
  { subst q. parser_simpl. assumption. }
  rewrite (replaceCallback_formula host getCellValue _ "B1" "=A1" q p1 _ Hq cellB1
             eq_refl He).
  parser_simpl. rewrite Hc1, evaluateExpression_marker.
  eexists. reflexivity.
Qed.

End Circular.

Lemma circular_pair_detected_witness :
  exists p',
    FormulaParser.evaluate Reference.host
      (Reference.sheetOf [("A1", FormulaParser.VStr "=B1"); ("B1", FormulaParser.VStr "=A1")])
      3 (FormulaParser.VStr "=B1") (FormulaParser.newParser [])
    = Some (FormulaParser.VStr "#CIRCULAR! (B1)", p').
Proof.
  apply (circular_pair_detected Reference.host
           (Reference.sheetOf [("A1", FormulaParser.VStr "=B1");
                               ("B1", FormulaParser.VStr "=A1")]));
    reflexivity.
Defined.

(** ** Maps in insertion order *)

Section MapFacts.
Import FormulaParser.
Context {A : Type}.

Lemma map_get_set_same (k : string) (v : A) (m : StrMap A) :
  map_get k (map_set k v m) = Some v.
Proof.
  induction m as [|[k' v'] m IH]; cbn [map_set map_get].
  - now rewrite String.eqb_refl.
  - destruct (String.eqb k k') eqn:E; cbn [map_get]; rewrite E; [reflexivity | exact IH].
Qed.

Lemma map_get_set_other (k k' : string) (v : A) (m : StrMap A) :
  k <> k' -> map_get k (map_set k' v m) = map_get k m.
Proof.
  intros Hne. induction m as [|[k0 v0] m IH]; cbn [map_set map_get].
  - apply String.eqb_neq in Hne. now rewrite Hne.
  - destruct (String.eqb k' k0) eqn:E; cbn [map_get].
    + apply String.eqb_eq in E. subst k0.
      apply String.eqb_neq in Hne. now rewrite Hne.
    + now rewrite IH.
Qed.

Lemma map_set_absent (k : string) (v : A) (m : StrMap A) :
  map_get k m = None -> map_set k v m = (m ++ [(k, v)])%list.
Proof.
  induction m as [|[k' v'] m IH]; cbn [map_set map_get app]; intros H; [reflexivity|].
  destruct (String.eqb k k'); [discriminate | now rewrite IH].
Qed.

Lemma map_set_present_length (k : string) (v v0 : A) (m : StrMap A) :
  map_get k m = Some v0 -> length (map_set k v m) = length m.
Proof.
  induction m as [|[k' v'] m IH]; cbn [map_set map_get]; intros H; [discriminate|].
  destruct (String.eqb k k'); cbn [length]; [reflexivity | now rewrite IH].
Qed.


Lemma map_get_In (k : string) (v : A) (m : StrMap A) :
  map_get k m = Some v -> In (k, v) m.
Proof.
  induction m as [|[k' v'] m IH]; cbn [map_get]; intros H; [discriminate|].
  destruct (String.eqb k k') eqn:E.
  - apply String.eqb_eq in E. injection H as ->. subst. now left.
  - right. now apply IH.
Qed.

Lemma map_get_None_keys (k : string) (m : StrMap A) :
  map_get k m = None <-> ~ In k (List.map fst m).
Proof.
  induction m as [|[k' v'] m IH]; cbn [map_get List.map fst In]; [tauto|].
  destruct (String.eqb k k') eqn:E.
  - apply String.eqb_eq in E. subst. split; [discriminate | tauto].
  - apply String.eqb_neq in E. rewrite IH. split; intros H; [intros [?|?] | ]; try tauto.
    congruence.
Qed.


Lemma map_set_keys_NoDup (k : string) (v : A) (m : StrMap A) :
  NoDup (List.map fst m) -> NoDup (List.map fst (map_set k v m)).
Proof.
  intros Hnd. destruct (map_get k m) as [v0|] eqn:E.
  - replace (List.map fst (map_set k v m)) with (List.map fst m); [assumption|].
    clear Hnd. induction m as [|[k' v'] m IH]; [discriminate|].
    cbn [map_get map_set] in *. destruct (String.eqb k k'); cbn [List.map fst];
      [reflexivity | now rewrite <- IH].
  - rewrite map_set_absent by assumption. rewrite List.map_app. cbn [List.map fst].
    apply map_get_None_keys in E.
    apply NoDup_app; [assumption | repeat constructor; intros [] | ].
    intros x Hx [Hk|[]]. subst. contradiction.
Qed.

End MapFacts.

(** ** The evaluation cache *)

Section Cache.
Import Js FormulaParser.

(** The cache as [evaluate] keeps it: distinct keys, at most 1000
    entries. *)
Definition cacheOk (c : StrMap CacheEntry) : Prop :=
  NoDup (List.map fst c) /\ (length c <= 1000)%nat.


Lemma cacheStore_ok (key : string) (entry : CacheEntry) (c : StrMap CacheEntry) :
  cacheOk c -> cacheOk (cacheStore key entry c).
Proof.
  intros [Hnd Hlen]. unfold cacheStore.
  pose proof (map_set_keys_NoDup key entry c Hnd) as Hnd'.
  assert (Hl : (length (map_set key entry c) <= 1001)%nat).
  { destruct (map_get key c) as [e0|] eqn:E.
    - rewrite (map_set_present_length key entry e0 c E). lia.
    - rewrite map_set_absent by assumption. rewrite List.length_app. cbn [length]. lia. }
  destruct (1000 <? length (map_set key entry c))%nat eqn:L.
  - destruct (map_set key entry c) as [|x m]; cbn [tl]; [split; [constructor | cbn; lia]|].
    cbn [List.map] in Hnd'. inversion Hnd'; subst. cbn [length] in Hl. split; [assumption | lia].
  - apply Nat.ltb_ge in L. split; assumption.
Qed.


End Cache.

(** ** [evaluate] keeps the cache well formed *)

Section CacheInvariant.
Import Js FormulaParser.
Variable host : Host.
Variable getCellValue : string -> jsval.

Definition keepsCache {A : Type} (run : Eval A) : Prop :=
  forall p r p', cacheOk (evaluationCache p) -> run p = Some (r, p') ->
                 cacheOk (evaluationCache p').

Section Step.
Variable ev : jsval -> Eval jsval.
Hypothesis ev_keeps : forall v, keepsCache (ev v).

Lemma replaceCallback_keeps (ref : string) :
  keepsCache (replaceCallback host getCellValue ev ref).
Proof.
  intros p r p' Hok. unfold replaceCallback. parser_simpl.
  destruct (set_has ref (processingStack p)).
  - intros [= _ <-]. parser_simpl. assumption.
  - match goal with
    | |- match ?e with _ => _ end = _ -> _ =>
        destruct e as [[v p3]|] eqn:He; [|discriminate]
    end.
    intros [= _ <-]. parser_simpl.
    destruct (getCellValue ref) as [| | | |s];
      try (injection He as _ <-; parser_simpl; assumption).
    destruct (startsWith "=" s).
    + eapply ev_keeps; [|exact He]. parser_simpl. assumption.
    + injection He as _ <-. parser_simpl. assumption.
Qed.

Lemma replacePieces_keeps (ps : list piece) :
  keepsCache (replacePieces host getCellValue ev ps).
Proof.
  induction ps as [|[c|id] ps IH]; intros p r p' Hok; cbn [replacePieces].
  - intros [= _ <-]. assumption.
  - destruct (replacePieces host getCellValue ev ps p) as [[s q]|] eqn:E; [|discriminate].
    intros [= _ <-]. eapply IH; eassumption.
  - destruct (replaceCallback host getCellValue ev id p) as [[t p1]|] eqn:E1;
      [|discriminate].
    destruct (replacePieces host getCellValue ev ps p1) as [[s q]|] eqn:E; [|discriminate].
    intros [= _ <-]. eapply IH; [|exact E].
    eapply replaceCallback_keeps; eassumption.
Qed.

Lemma replaceCellReferences_keeps (e : string) :
  keepsCache (replaceCellReferences host getCellValue ev e).
Proof.
  intros p r p' Hok. unfold replaceCellReferences. destruct (isEmpty e).
  - intros [= _ <-]. assumption.
  - now apply replacePieces_keeps.
Qed.

Lemma onCellsUsed_keeps (f : StrSet -> jsval * StrSet) : keepsCache (onCellsUsed f).
Proof.
  intros p r p' Hok. unfold onCellsUsed. destruct (f (cellsUsed p)).
  intros [= _ <-]. parser_simpl. assumption.
Qed.

Lemma evaluateIf_keeps (e : string) : keepsCache (evaluateIf host getCellValue ev e).
Proof.
  intros p r p' Hok. unfold evaluateIf.
  destruct (matchIf e) as [[[g1 g2] g3]|]; [|intros [= _ <-]; assumption].
  destruct (replaceCellReferences host getCellValue ev (trim g1) p) as [[t p1]|] eqn:E;
    [|discriminate].
  assert (cacheOk (evaluationCache p1))
    by (eapply replaceCellReferences_keeps; eassumption).
  destruct (math_evaluate host t) as [v|]; [destruct (truthy v)|];
    intros [= _ <-]; assumption.
Qed.

Lemma evaluateExpression_keeps (e : string) :
  keepsCache (evaluateExpression host getCellValue ev e).
Proof.
  unfold evaluateExpression.
  destruct (isEmpty e); [intros p r p' Hok [= _ <-]; assumption|].
  repeat match goal with
         | |- keepsCache (if ?b then _ else _) => destruct b
         | |- keepsCache (other _ _ _ _) => apply onCellsUsed_keeps
         | |- keepsCache (onCellsUsed _) => apply onCellsUsed_keeps
         | |- keepsCache (evaluateIf _ _ _ _) => apply evaluateIf_keeps
         end.
  intros p r p' Hok [= _ <-]. assumption.
Qed.

Lemma evaluateBody_keeps (formula : jsval) :
  keepsCache (evaluateBody host getCellValue ev formula).
Proof.
  intros p r p' Hok. unfold evaluateBody.
  destruct formula as [| | | |f]; try (intros [= _ <-]; assumption).
  destruct (isEmpty f); [intros [= _ <-]; assumption|].
  destruct (negb (startsWith "=" f)); [intros [= _ <-]; assumption|].
  destruct (map_get f (evaluationCache p)) as [e|].
  - unfold evaluateHit. intros [= _ <-]. parser_simpl. assumption.
  - unfold evaluateMiss.
    destruct (isEmpty (trim (drop 1 f))); [intros [= _ <-]; parser_simpl; assumption|].
    destruct (replaceCellReferences host getCellValue ev (trim (drop 1 f)) _)
      as [[t p2]|] eqn:E; [|discriminate].
    assert (H2 : cacheOk (evaluationCache p2)).
    { eapply replaceCellReferences_keeps; [|exact E]. parser_simpl. assumption. }
    destruct (circularReferences p2); [|intros [= _ <-]; parser_simpl; assumption].
    destruct (evaluateExpression host getCellValue ev t p2) as [[v p3]|] eqn:E3;
      [|discriminate].
    intros [= _ <-]. parser_simpl. apply cacheStore_ok.
    eapply evaluateExpression_keeps; eassumption.
Qed.

End Step.

(** Every call of [evaluate] that returns leaves the cache with
    distinct keys and at most 1000 entries, if it finds it so. *)
Lemma evaluate_keeps_cache (fuel : nat) :
  forall formula, keepsCache (evaluate host getCellValue fuel formula).
Proof.
  induction fuel as [|fuel IH]; intros formula.
  - intros p r p' _ H. discriminate.
  - cbn [evaluate]. now apply evaluateBody_keeps.
Qed.

End CacheInvariant.

(** ** C2: the evaluation cache *)

Section CacheRoundTrip.
Import Js FormulaParser.
Variable host : Host.





End CacheRoundTrip.

Section CacheExample.
Import Js FormulaParser.




End CacheExample.

(** ** C5: division by zero in a plain expression *)

Section PlainExpression.
Import Js FormulaParser.
Variable host : Host.
Variable getCellValue : string -> jsval.

Fixpoint literals (s : string) : list piece :=
  match s with
  | EmptyString => []
  | String c r => Lit c :: literals r
  end.

Lemma scan_without_refs (e : string) :
  cellRefsOf e = [] -> scanCellRefs 0 e = literals e.
Proof.
  unfold cellRefsOf. induction e as [|c e IH]; cbn [scanCellRefs literals]; [reflexivity|].
  destruct (matchCellRefAt (String c e)); cbn [flat_map app]; [discriminate|].
  intros H. now rewrite IH.
Qed.

Lemma replacePieces_literals (ev : jsval -> Eval jsval) (e : string) (p : Parser) :
  replacePieces host getCellValue ev (literals e) p = Some (e, p).
Proof.
  induction e as [|c e IH]; cbn [literals replacePieces]; [reflexivity | now rewrite IH].
Qed.

(** A formula without references that calls no function: its value is
    what mathjs returns, but for undefined, null and NaN. *)
Lemma evaluate_math_only (n : nat) (f : string) (p : Parser) :
  startsWith "=" f = true ->
  trim (drop 1 f) <> "" ->
  cellRefsOf (trim (drop 1 f)) = [] ->
  isFunctionCall (trim (drop 1 f)) = false ->
  map_get f (evaluationCache p) = None ->
  circularReferences p = [] ->
  exists p',
    evaluate host getCellValue (S n) (VStr f) p
    = Some (evaluateMath host (trim (drop 1 f)), p').
Proof.
  intros Hf Hne Hrefs Hcall Hmiss Hcirc.
  rewrite evaluate_miss by assumption. unfold evaluateMiss.
  destruct (trim (drop 1 f)) as [|c e] eqn:E; [congruence|].
  cbn [isEmpty]. unfold replaceCellReferences. cbn [isEmpty].
  rewrite scan_without_refs, replacePieces_literals by assumption.
  parser_simpl. rewrite Hcirc.
  rewrite evaluateExpression_math by assumption.
  eexists. reflexivity.
Qed.

(** C5, as the code has it. A formula without references that calls no
    function, such as [=5/0], is handed to mathjs, and when mathjs
    computes the infinity for it (as for a number other than zero
    divided by zero) the infinity is returned unchanged: the check of
    the result only replaces undefined, null and NaN, by the generic
    error marker. *)
Theorem division_by_zero_passes_through (n : nat) (f : string) (p : Parser) :
  startsWith "=" f = true ->
  trim (drop 1 f) <> "" ->
  cellRefsOf (trim (drop 1 f)) = [] ->
  isFunctionCall (trim (drop 1 f)) = false ->
  math_evaluate host (trim (drop 1 f)) = Some (VNum PrimFloat.infinity) ->
  map_get f (evaluationCache p) = None ->
  circularReferences p = [] ->
  exists p',
    evaluate host getCellValue (S n) (VStr f) p
    = Some (VNum PrimFloat.infinity, p').
Proof.
  intros Hf Hne Hrefs Hcall Hmath Hmiss Hcirc.
  destruct (evaluate_math_only n f p) as [p' Hp']; try assumption.
  exists p'. rewrite Hp'. unfold evaluateMath. rewrite Hmath. reflexivity.
Qed.

End PlainExpression.

Lemma division_by_zero_passes_through_witness :
  exists p',
    FormulaParser.evaluate Reference.host (Reference.sheetOf []) 1 (FormulaParser.VStr "=5/0")
                           (FormulaParser.newParser [])
    = Some (FormulaParser.VNum PrimFloat.infinity, p').
Proof.
  apply (division_by_zero_passes_through Reference.host (Reference.sheetOf []) 0 "=5/0"
           (FormulaParser.newParser [])); try reflexivity. discriminate.
Defined.

(** The claim as the specification has it fails: the result is the
    infinity, not the marker of a division by zero. *)
Lemma division_by_zero_counterexample :
  option_map fst
    (FormulaParser.evaluate Reference.host (Reference.sheetOf []) 1
       (FormulaParser.VStr "=5/0") (FormulaParser.newParser []))
  = Some (FormulaParser.VNum PrimFloat.infinity)
  /\ FormulaParser.VNum PrimFloat.infinity <> FormulaParser.VStr "#DIV/0!".
Proof. split; [vm_compute; reflexivity | discriminate]. Qed.

(** ** Sets in insertion order *)

Section SetFacts.
Import FormulaParser.

Lemma set_has_In (x : string) (s : StrSet) : set_has x s = true <-> In x s.
Proof.
  unfold set_has. rewrite existsb_exists. split.
  - intros (y & Hy & E). apply String.eqb_eq in E. now subst.
  - intros H. exists x. split; [assumption | apply String.eqb_refl].
Qed.

Lemma set_add_In (x y : string) (s : StrSet) : In y (set_add x s) <-> y = x \/ In y s.
Proof.
  unfold set_add. destruct (set_has x s) eqn:E.
  - apply set_has_In in E. split; [tauto | intros [->|H]; assumption].
  - rewrite in_app_iff. cbn [In]. split; intros; intuition congruence.
Qed.

Lemma set_add_incl (x : string) (s : StrSet) : incl s (set_add x s).
Proof. intros y Hy. apply set_add_In. now right. Qed.

Definition addAll (ids : list string) (s : StrSet) : StrSet :=
  fold_left (fun u id => set_add id u) ids s.

Lemma addAll_In (ids : list string) (s : StrSet) (y : string) :
  In y (addAll ids s) <-> In y ids \/ In y s.
Proof.
  unfold addAll. revert s. induction ids as [|x ids IH]; intros s; cbn [fold_left In].
  - tauto.
  - rewrite IH, set_add_In. intuition congruence.
Qed.

Lemma addAll_incl (ids : list string) (s : StrSet) : incl s (addAll ids s).
Proof. intros y Hy. apply addAll_In. now right. Qed.


End SetFacts.

(** ** Sheets whose cells hold no formula *)

Section PlainSheet.
Import Js FormulaParser.
Variable host : Host.
Variable getCellValue : string -> jsval.

Definition isFormulaValue (v : jsval) : bool :=
  match v with
  | VStr s => startsWith "=" s
  | _ => false
  end.

(** No cell holds a text that starts with the equals sign, as in the
    store of the application, where [getCellValue] reads the computed
    value of a cell. *)
Definition plainSheet : Prop := forall id, isFormulaValue (getCellValue id) = false.

(** The functions taken from the host only add to the cells used. *)
Definition addsOnly : Prop :=
  forall name expression g used,
    incl used (snd (otherFunction host name expression g used)).

Definition refsOfPieces (ps : list piece) : list string :=
  flat_map (fun p => match p with Ref id => [id] | Lit _ => [] end) ps.

Hypothesis plain : plainSheet.

Lemma replaceCallback_plain (ev : jsval -> Eval jsval) (ref : string) (p : Parser) :
  exists text p',
    replaceCallback host getCellValue ev ref p = Some (text, p')
    /\ cellsUsed p' = set_add ref (cellsUsed p)
    /\ evaluationCache p' = evaluationCache p.
Proof.
  unfold replaceCallback. parser_simpl.
  destruct (set_has ref (processingStack p)).
  - do 2 eexists. split; [reflexivity|]. parser_simpl. split; reflexivity.
  - pose proof (plain ref) as Hp. unfold isFormulaValue in Hp.
    destruct (getCellValue ref) as [| | | |s]; try rewrite Hp;
      do 2 eexists; (split; [reflexivity|]); parser_simpl; split; reflexivity.
Qed.

Lemma replacePieces_plain (ev : jsval -> Eval jsval) (ps : list piece) :
  forall p, exists text p',
    replacePieces host getCellValue ev ps p = Some (text, p')
    /\ cellsUsed p' = addAll (refsOfPieces ps) (cellsUsed p)
    /\ evaluationCache p' = evaluationCache p.
Proof.
  induction ps as [|[c|id] ps IH]; intros p; cbn [replacePieces refsOfPieces flat_map app].
  - do 2 eexists. repeat split.
  - destruct (IH p) as (text & p' & -> & Hu & Hc).
    do 2 eexists. split; [reflexivity|]. split; assumption.
  - destruct (replaceCallback_plain ev id p) as (r & p1 & -> & Hu1 & Hc1).
    destruct (IH p1) as (text & p' & -> & Hu & Hc).
    do 2 eexists. split; [reflexivity|]. split.
    + rewrite Hu, Hu1. reflexivity.
    + congruence.
Qed.

Lemma replaceCellReferences_plain (ev : jsval -> Eval jsval) (e : string) (p : Parser) :
  exists text p',
    replaceCellReferences host getCellValue ev e p = Some (text, p')
    /\ cellsUsed p' = addAll (cellRefsOf e) (cellsUsed p)
    /\ evaluationCache p' = evaluationCache p.
Proof.
  unfold replaceCellReferences. destruct e as [|c e]; cbn [isEmpty].
  - do 2 eexists. repeat split.
  - apply replacePieces_plain.
Qed.

(** **** The function bodies only add to the cells used *)

Lemma getNumericCellValue_incl (cell : string) (used : StrSet) :
  incl used (snd (getNumericCellValue host getCellValue cell used)).
Proof. unfold getNumericCellValue. cbn [snd]. apply set_add_incl. Qed.

Lemma averageCell_incl (cell : string) (acc : float * nat * StrSet) :
  incl (snd acc) (snd (averageCell host getCellValue cell acc)).
Proof.
  destruct acc as [[sum count] used]. unfold averageCell, getNumericCellValue. cbn [snd].
  destruct (_ || _)%bool; cbn [snd]; apply set_add_incl.
Qed.

Lemma fold_incl {A B : Type} (proj : B -> StrSet) (f : B -> A -> B) (l : list A) :
  (forall b a, incl (proj b) (proj (f b a))) ->
  forall b, incl (proj b) (proj (fold_left f l b)).
Proof.
  intros Hf. induction l as [|a l IH]; intros b; cbn [fold_left].
  - apply incl_refl.
  - eapply incl_tran; [apply Hf | apply IH].
Qed.

Lemma averageArg_incl (arg : string) (acc : float * nat * StrSet) :
  incl (snd acc) (snd (averageArg host getCellValue arg acc)).
Proof.
  unfold averageArg. destruct (includesChar ":" arg).
  - apply (fold_incl snd). intros b a. apply averageCell_incl.
  - destruct (isValidCellReference arg); [apply averageCell_incl|].
    destruct acc as [[sum count] used].
    destruct (negb _); cbn [snd]; apply incl_refl.
Qed.

Lemma evaluateAverage_incl (e : string) (used : StrSet) :
  incl used (snd (evaluateAverage host getCellValue e used)).
Proof.
  unfold evaluateAverage.
  destruct (matchCall "AVERAGE" e) as [argsText|]; [|apply incl_refl].
  destruct (isEmpty argsText); [apply incl_refl|].
  pose proof (fold_incl snd (fun a arg => averageArg host getCellValue arg a)
                (parseArguments argsText)
                (fun b a => averageArg_incl a b) (0%float, O, used)) as H.
  destruct (fold_left _ _ _) as [[sum count] used'].
  cbn [snd] in H. destruct count; exact H.
Qed.

Lemma logicalArg_incl (arg : string) (used : StrSet) :
  incl used (snd (logicalArg host getCellValue arg used)).
Proof.
  unfold logicalArg. destruct (isValidCellReference arg); cbn [snd].
  - apply set_add_incl.
  - destruct (math_evaluate host arg); apply incl_refl.
Qed.

Lemma andLoop_incl (args : list string) :
  forall used, incl used (snd (andLoop host getCellValue args used)).
Proof.
  induction args as [|a args IH]; intros used; cbn [andLoop]; [apply incl_refl|].
  pose proof (logicalArg_incl a used) as H.
  destruct (logicalArg host getCellValue a used) as [v used']. cbn [snd] in H.
  destruct (negb _); cbn [snd]; [assumption|].
  eapply incl_tran; [exact H | apply IH].
Qed.

Lemma orLoop_incl (args : list string) :
  forall used, incl used (snd (orLoop host getCellValue args used)).
Proof.
  induction args as [|a args IH]; intros used; cbn [orLoop]; [apply incl_refl|].
  pose proof (logicalArg_incl a used) as H.
  destruct (logicalArg host getCellValue a used) as [v used']. cbn [snd] in H.
  destruct (toBoolean host v); cbn [snd]; [assumption|].
  eapply incl_tran; [exact H | apply IH].
Qed.

Lemma evaluateAnd_incl (e : string) (used : StrSet) :
  incl used (snd (evaluateAnd host getCellValue e used)).
Proof.
  unfold evaluateAnd. destruct (matchCall "AND" e) as [t|]; [|apply incl_refl].
  destruct (isEmpty t); [apply incl_refl | apply andLoop_incl].
Qed.

Lemma evaluateOr_incl (e : string) (used : StrSet) :
  incl used (snd (evaluateOr host getCellValue e used)).
Proof.
  unfold evaluateOr. destruct (matchCall "OR" e) as [t|]; [|apply incl_refl].
  destruct (isEmpty t); [apply incl_refl | apply orLoop_incl].
Qed.

(** What [evaluateExpression] does on a plain sheet: it returns, the
    cells used only grow, the cache stays. *)
Definition growsOnly (r : option (jsval * Parser)) (p : Parser) : Prop :=
  exists v p', r = Some (v, p')
               /\ incl (cellsUsed p) (cellsUsed p')
               /\ evaluationCache p' = evaluationCache p.

Lemma onCellsUsed_grows (f : StrSet -> jsval * StrSet) (p : Parser) :
  (forall used, incl used (snd (f used))) -> growsOnly (onCellsUsed f p) p.
Proof.
  intros Hf. unfold onCellsUsed, growsOnly. specialize (Hf (cellsUsed p)).
  destruct (f (cellsUsed p)) as [v used]. do 2 eexists. split; [reflexivity|].
  parser_simpl. split; [exact Hf | reflexivity].
Qed.

Lemma evaluateIf_grows (ev : jsval -> Eval jsval) (e : string) (p : Parser) :
  growsOnly (evaluateIf host getCellValue ev e p) p.
Proof.
  unfold evaluateIf, growsOnly.
  destruct (matchIf e) as [[[g1 g2] g3]|].
  - destruct (replaceCellReferences_plain ev (trim g1) p) as (text & p1 & -> & Hu & Hc).
    assert (Hi : incl (cellsUsed p) (cellsUsed p1)) by (rewrite Hu; apply addAll_incl).
    destruct (math_evaluate host text) as [v|]; [destruct (truthy v)|];
      do 2 eexists; (split; [reflexivity|]); split; assumption.
  - do 2 eexists. split; [reflexivity|]. split; [apply incl_refl | reflexivity].
Qed.

Hypothesis hostAddsOnly : addsOnly.

Lemma evaluateExpression_grows (ev : jsval -> Eval jsval) (e : string) (p : Parser) :
  growsOnly (evaluateExpression host getCellValue ev e p) p.
Proof.
  assert (Hsame : forall v, growsOnly (Some (v, p)) p).
  { intros v. do 2 eexists. split; [reflexivity|]. split; [apply incl_refl | reflexivity]. }
  unfold evaluateExpression. destruct (isEmpty e); [apply Hsame|].
  repeat match goal with
         | |- growsOnly ((if ?b then _ else _) _) _ => destruct b
         | |- growsOnly (other _ _ _ _ _) _ =>
             apply onCellsUsed_grows; intros; apply hostAddsOnly
         | |- growsOnly (onCellsUsed (evaluateAverage _ _ _) _) _ =>
             apply onCellsUsed_grows; intros; apply evaluateAverage_incl
         | |- growsOnly (onCellsUsed (evaluateAnd _ _ _) _) _ =>
             apply onCellsUsed_grows; intros; apply evaluateAnd_incl
         | |- growsOnly (onCellsUsed (evaluateOr _ _ _) _) _ =>
             apply onCellsUsed_grows; intros; apply evaluateOr_incl
         | |- growsOnly (evaluateIf _ _ _ _ _) _ => apply evaluateIf_grows
         end.
  apply Hsame.
Qed.

(** On a plain sheet [evaluate] returns at depth 1, and what it leaves
    in [cellsUsed] after a miss holds every reference of the formula,
    whatever function the formula calls. *)
Lemma evaluate_records_references (n : nat) (f : string) (p : Parser) :
  startsWith "=" f = true ->
  map_get f (evaluationCache p) = None ->
  exists v p',
    evaluate host getCellValue (S n) (VStr f) p = Some (v, p')
    /\ forall id, In id (cellRefsOf (trim (drop 1 f))) -> In id (getCellsUsed p').
Proof.
  intros Hf Hmiss. rewrite evaluate_miss by assumption. unfold evaluateMiss.
  destruct (trim (drop 1 f)) as [|c e] eqn:E; cbn [isEmpty].
  - do 2 eexists. split; [reflexivity|]. intros id [].
  - destruct (replaceCellReferences_plain (evaluate host getCellValue n) (String c e)
                (setCellsUsed [] (countCacheMiss p))) as (text & p2 & -> & Hu & Hc).
    assert (Hrefs : forall id, In id (cellRefsOf (String c e)) -> In id (cellsUsed p2)).
    { intros id Hid. rewrite Hu. apply addAll_In. now left. }
    destruct (circularReferences p2).
    + destruct (evaluateExpression_grows (evaluate host getCellValue n) text p2)
        as (v & p3 & -> & Hi & _).
      do 2 eexists. split; [reflexivity|]. parser_simpl. intros id Hid.
      apply Hi, Hrefs, Hid.
    + do 2 eexists. split; [reflexivity|]. parser_simpl. exact Hrefs.
Qed.

End PlainSheet.

(** ** C9: the dependencies that AND and OR record *)

Section Logical.
Import Js FormulaParser.
Variable host : Host.
Variable getCellValue : string -> jsval.








End Logical.

Section LogicalExamples.
Import FormulaParser.



Lemma reference_addsOnly : addsOnly Reference.host.
Proof. intros name e g used. apply incl_refl. Qed.


End LogicalExamples.


(** Through [evaluate] the references are lost when a referenced cell
    holds a formula: the nested evaluation clears the cells used. *)
Lemma logical_dependencies_cleared_by_nested_evaluation :
  option_map (fun r => FormulaParser.getCellsUsed (snd r))
    (FormulaParser.evaluate Reference.host
       (Reference.sheetOf [("A1", FormulaParser.VStr "0"); ("B1", FormulaParser.VStr "=C1");
                           ("C1", FormulaParser.VStr "1")])
       2 (FormulaParser.VStr "=AND(A1,B1)") (FormulaParser.newParser []))
  = Some ["C1"].
Proof. vm_compute. reflexivity. Qed.

(** ** C10: the dependencies that IF records *)

Section Conditional.
Import Js FormulaParser.
Variable host : Host.
Variable getCellValue : string -> jsval.

(** C10, as the code has it. [evaluateIf], on an expression whose
    branch taken is a cell reference, returns the value of that cell
    and leaves the parser as the substitution in the condition left
    it: the branch is not recorded. But [evaluate] substitutes every
    reference of the formula before [evaluateIf] sees it, so that on a
    sheet whose cells hold no formula the references of both branches
    are among the cells used after [evaluate]. *)
Theorem conditional_dependencies
        (ev : jsval -> Eval jsval) (expression g1 g2 g3 processed : string)
        (conditionResult : jsval) (p p1 : Parser) (n : nat) (f : string) (q : Parser) :
  matchIf expression = Some (g1, g2, g3) ->
  replaceCellReferences host getCellValue ev (trim g1) p = Some (processed, p1) ->
  math_evaluate host processed = Some conditionResult ->
  isValidCellReference (trim (if truthy conditionResult then g2 else g3)) = true ->
  plainSheet getCellValue ->
  addsOnly host ->
  startsWith "=" f = true ->
  map_get f (evaluationCache q) = None ->
  evaluateIf host getCellValue ev expression p
  = Some (getCellValue (trim (if truthy conditionResult then g2 else g3)), p1)
  /\ exists v q',
      evaluate host getCellValue (S n) (VStr f) q = Some (v, q')
      /\ forall id, In id (cellRefsOf (trim (drop 1 f))) -> In id (getCellsUsed q').
Proof.
  intros Hm Hc He Hv Hplain Hadds Hf Hmiss. split.
  - unfold evaluateIf. rewrite Hm, Hc, He. unfold ifBranch.
    destruct (truthy conditionResult); now rewrite Hv.
  - now apply evaluate_records_references.
Qed.

End Conditional.

Section ConditionalExamples.
Import FormulaParser.

Definition conditionalSheet : string -> jsval :=
  Reference.sheetOf [("A1", VStr "1"); ("B1", VStr "7"); ("C1", VStr "8")].

Lemma conditionalSheet_plain : plainSheet conditionalSheet.
Proof.
  intros id. unfold conditionalSheet, Reference.sheetOf. cbn [map_get].
  destruct (String.eqb id "A1"); [reflexivity|].
  destruct (String.eqb id "B1"); [reflexivity|].
  destruct (String.eqb id "C1"); reflexivity.
Qed.

Lemma conditional_dependencies_witness :
  evaluateIf Reference.host conditionalSheet
             (evaluate Reference.host conditionalSheet 1) "IF(A1>0,B1,C1)" (newParser [])
  = Some (VStr "7", setCellsUsed ["A1"] (newParser []))
  /\ exists v q',
      evaluate Reference.host conditionalSheet 1 (VStr "=IF(A1>0,B1,C1)") (newParser [])
      = Some (v, q')
      /\ forall id, In id ["A1"; "B1"; "C1"] -> In id (getCellsUsed q').
Proof.
  exact (conditional_dependencies Reference.host conditionalSheet
           (evaluate Reference.host conditionalSheet 1) "IF(A1>0,B1,C1)"
           "A1>0" "B1" "C1" "1>0" (VBool true) (newParser [])
           (setCellsUsed ["A1"] (newParser [])) 0 "=IF(A1>0,B1,C1)" (newParser [])
           eq_refl eq_refl eq_refl eq_refl conditionalSheet_plain reference_addsOnly
           eq_refl eq_refl).
Defined.

(** The claim as the specification has it fails: after [evaluate] on
    the formula, the cell of the branch taken is among the cells used,
    and the value returned is the number that mathjs makes of the
    substituted text, not the text that the cell holds. *)
Lemma conditional_dependencies_counterexample :
  option_map (fun r => (fst r, getCellsUsed (snd r)))
    (evaluate Reference.host conditionalSheet 1 (VStr "=IF(A1>0,B1,C1)") (newParser []))
  = Some (VNum 7, ["A1"; "B1"; "C1"])
  /\ cellRefsOf "A1>0" = ["A1"]
  /\ conditionalSheet "B1" = VStr "7"
  /\ In "B1" ["A1"; "B1"; "C1"].
Proof.
  repeat split; try (vm_compute; reflexivity). right. now left.
Qed.

End ConditionalExamples.

(** ** AVERAGE *)

Section Average.
Import Js FormulaParser.
Variable host : Host.
Variable getCellValue : string -> jsval.

(** What AVERAGE runs over: the cells of the ranges and the single
    cells of its arguments, and the arguments that are neither. *)
Inductive entry : Type :=
| Cell (id : string)
| Literal (text : string).

Definition entriesOf (arg : string) : list entry :=
  if includesChar ":" arg then List.map Cell (parseCellRange arg)
  else if isValidCellReference arg then [Cell arg]
  else [Literal arg].

(** An entry counts when its cell is not blank, or when the literal
    is a number. *)
Definition qualifies (e : entry) : bool :=
  match e with
  | Cell id => negb (isEmptyStr (getCellValue id))
  | Literal text => negb (PrimFloat.is_nan (parseFloat host text))
  end.

Definition entryValue (e : entry) : float :=
  match e with
  | Cell id => fst (getNumericCellValue host getCellValue id [])
  | Literal text => parseFloat host text
  end.

Definition sumOf (es : list entry) (start : float) : float :=
  fold_left (fun s e => PrimFloat.add s (entryValue e)) es start.

Definition step (sc : float * nat) (e : entry) : float * nat :=
  if qualifies e then (PrimFloat.add (fst sc) (entryValue e), S (snd sc)) else sc.

Hypothesis blankIsNaN : PrimFloat.is_nan (parseFloat host "") = true.

Lemma averageCell_step (cell : string) (acc : float * nat * StrSet) :
  fst (averageCell host getCellValue cell acc) = step (fst acc) (Cell cell).
Proof.
  destruct acc as [[sum count] used].
  unfold averageCell, step, getNumericCellValue, qualifies, entryValue, getNumericCellValue.
  cbn [fst snd].
  destruct (isEmptyStr (getCellValue cell)) eqn:E.
  - destruct (getCellValue cell) as [| | | |s]; try discriminate.
    destruct s; [|discriminate].
    unfold parseFloatOf. cbn [toString]. rewrite blankIsNaN. reflexivity.
  - rewrite orb_true_r. reflexivity.
Qed.

Lemma averageCells_step (cells : list string) :
  forall acc,
    fst (fold_left (fun a cell => averageCell host getCellValue cell a) cells acc)
    = fold_left step (List.map Cell cells) (fst acc).
Proof.
  induction cells as [|c cells IH]; intros acc; cbn [fold_left List.map]; [reflexivity|].
  now rewrite IH, averageCell_step.
Qed.

Lemma averageArg_step (arg : string) (acc : float * nat * StrSet) :
  fst (averageArg host getCellValue arg acc) = fold_left step (entriesOf arg) (fst acc).
Proof.
  unfold averageArg, entriesOf. destruct (includesChar ":" arg).
  - apply averageCells_step.
  - destruct (isValidCellReference arg); cbn [fold_left].
    + apply averageCell_step.
    + destruct acc as [[sum count] used]. unfold step. cbn [qualifies entryValue fst snd].
      destruct (negb _); reflexivity.
Qed.

Lemma averageArgs_step (args : list string) :
  forall acc,
    fst (fold_left (fun a arg => averageArg host getCellValue arg a) args acc)
    = fold_left step (flat_map entriesOf args) (fst acc).
Proof.
  induction args as [|a args IH]; intros acc; cbn [fold_left flat_map]; [reflexivity|].
  now rewrite IH, averageArg_step, fold_left_app.
Qed.

Lemma step_filter (es : list entry) :
  forall sum count,
    fold_left step es (sum, count)
    = (sumOf (List.filter qualifies es) sum,
       (count + length (List.filter qualifies es))%nat).
Proof.
  unfold sumOf.
  induction es as [|e es IH]; intros sum count; cbn [fold_left List.filter].
  - cbn [length]. now rewrite Nat.add_0_r.
  - unfold step at 2. destruct (qualifies e); cbn [fst snd fold_left length].
    + rewrite IH. f_equal. lia.
    + apply IH.
Qed.

(** The body of AVERAGE, called on the text of a call that has
    arguments: the result is the sum of the entries that count,
    divided by their number, the blank cells of a range being left out
    of both; with no entry that counts the result is the marker of a
    division by zero. *)
Lemma evaluateAverage_counted (expression argsText : string) (used : StrSet) :
  matchCall "AVERAGE" expression = Some argsText ->
  argsText <> "" ->
  let counted := List.filter qualifies (flat_map entriesOf (parseArguments argsText)) in
  fst (evaluateAverage host getCellValue expression used)
  = match length counted with
    | O => VStr "#DIV/0!"
    | S _ => VNum (PrimFloat.div (sumOf counted 0) (natToFloat (length counted)))
    end.
Proof.
  intros Hm Hne counted. unfold evaluateAverage. rewrite Hm.
  destruct argsText as [|c t]; [congruence|]. cbn [isEmpty].
  pose proof (averageArgs_step (parseArguments (String c t)) (0%float, O, used)) as H.
  cbn [fst] in H. rewrite step_filter in H. cbn [Nat.add] in H. fold counted in H.
  destruct (fold_left _ _ _) as [[sum count] used']. cbn [fst] in H.
  injection H as -> ->. destruct (length counted); reflexivity.
Qed.

End Average.

Section AverageExample.
Import FormulaParser.

(** A1 holds 1, A2 is blank, A3 holds 3. *)
Definition averageSheet : string -> jsval :=
  Reference.sheetOf [("A1", VStr "1"); ("A3", VStr "3")].

(** The body alone, on the text as it is written. *)
Example average_of_the_body :
  fst (evaluateAverage Reference.host averageSheet "AVERAGE(A1:A3)" []) = VNum 2
  /\ parseCellRange "A1:A3" = ["A1"; "A2"; "A3"].
Proof.
  split; [|reflexivity].
  apply (evaluateAverage_counted Reference.host averageSheet eq_refl
           "AVERAGE(A1:A3)" "A1:A3" []); [reflexivity | discriminate].
Qed.

(** C6. The code at the failing input. [evaluate] substitutes the
    values of the cells for the references before the body of AVERAGE
    runs, so AVERAGE never sees a range or a reference: of
    [=AVERAGE(A1:A3)] it gets [AVERAGE(1:3)], a range without cells,
    and returns the marker of a division by zero where the claim has
    (1 + 3) / 2; of [=AVERAGE(A1,A2,A3)] it gets [AVERAGE(1,0,3)], the
    blank cell being written as 0, and divides by 3. The body called
    on the text as written leaves the blank cell out and gives 2.
    Without arguments AVERAGE gives the error marker. *)
Theorem average_through_evaluate :
  (exists p',
      evaluate Reference.host averageSheet 1 (VStr "=AVERAGE(A1:A3)") (newParser [])
      = Some (VStr "#DIV/0!", p')
      /\ getCellsUsed p' = ["A1"; "A3"])
  /\ (exists p',
         evaluate Reference.host averageSheet 1 (VStr "=AVERAGE(A1,A2,A3)") (newParser [])
         = Some (VNum (PrimFloat.div 4 3), p')
         /\ getCellsUsed p' = ["A1"; "A2"; "A3"])
  /\ (exists text p',
         replaceCellReferences Reference.host averageSheet
                               (evaluate Reference.host averageSheet 0)
                               "AVERAGE(A1:A3)" (newParser [])
         = Some (text, p')
         /\ text = "AVERAGE(1:3)")
  /\ evaluateAverage Reference.host averageSheet "AVERAGE(A1:A3)" []
     = (VNum 2, ["A1"; "A2"; "A3"])
  /\ evaluateAverage Reference.host averageSheet "AVERAGE(A1,A2,A3)" []
     = (VNum 2, ["A1"; "A2"; "A3"])
  /\ (exists p',
         evaluate Reference.host averageSheet 1 (VStr "=AVERAGE()") (newParser [])
         = Some (VStr "#ERROR!", p')).
Proof.
  split; [|split; [|split; [|split; [|split]]]].
  - eexists. split; vm_compute; reflexivity.
  - eexists. split; vm_compute; reflexivity.
  - do 2 eexists. split; vm_compute; reflexivity.
  - vm_compute. reflexivity.
  - vm_compute. reflexivity.
  - eexists. vm_compute. reflexivity.
Qed.

End AverageExample.

(** ** C3: the edges that [updateCellValue] records *)

Section DependencyEdges.
Import Js FormulaParser Operations.

Lemma set_has_add (b x : string) (s : StrSet) :
  set_has b (set_add x s) = (set_has b s || String.eqb b x)%bool.
Proof.
  unfold set_add. destruct (set_has x s) eqn:E.
  - destruct (String.eqb b x) eqn:Eb; [|now rewrite orb_false_r].
    apply String.eqb_eq in Eb. subst. now rewrite E.
  - unfold set_has. rewrite existsb_app. cbn [List.existsb]. now rewrite orb_false_r.
Qed.

Lemma hasEdge_addDependency (cellId dep a b : string) (deps : Dependencies) :
  hasEdge (addDependency cellId deps dep) a b
  = (hasEdge deps a b || (String.eqb a dep && String.eqb b cellId))%bool.
Proof.
  unfold hasEdge, addDependency.
  destruct (String.eqb a dep) eqn:E.
  - apply String.eqb_eq in E. subst a.
    destruct (map_get dep deps) as [s|]; rewrite map_get_set_same, set_has_add;
      reflexivity.
  - apply String.eqb_neq in E.
    destruct (map_get dep deps) as [s|]; rewrite map_get_set_other by assumption;
      now rewrite orb_false_r.
Qed.

Lemma hasEdge_addDependencies (cellId : string) (used : list string) :
  forall deps a b,
    hasEdge (fold_left (addDependency cellId) used deps) a b
    = (hasEdge deps a b || (set_has a used && String.eqb b cellId))%bool.
Proof.
  induction used as [|u used IH]; intros deps a b; cbn [fold_left].
  - cbn. now rewrite orb_false_r.
  - rewrite IH, hasEdge_addDependency. unfold set_has. cbn [List.existsb].
    rewrite <- orb_assoc. f_equal. now rewrite andb_orb_distrib_l.
Qed.

(** C3, as the code has it. When [updateCellValue] stores a formula in
    a cell, the edges of the next state are those of the state before
    and one edge to the cell from every cell that [getCellsUsed] holds
    after the evaluation: edges are added, none is removed. *)
Theorem update_adds_edges
        (host : Host) (evalFuel fuel : nat) (st st' : State) (cellId value : string) :
  startsWith "=" value = true ->
  updateCellValue host evalFuel st fuel cellId value = Some st' ->
  exists v p,
    evaluateFormula host evalFuel st value (formulaParser st) = Some (v, p)
    /\ forall a b,
        hasEdge (dependencies st') a b
        = (hasEdge (dependencies st) a b
           || (set_has a (getCellsUsed p) && String.eqb b cellId))%bool.
Proof.
  intros Hf Hu. unfold updateCellValue in Hu. rewrite Hf in Hu.
  destruct (evaluateFormula host evalFuel st value (formulaParser st)) as [[v p]|];
    [|discriminate].
  injection Hu as <-. exists v, p. split; [reflexivity|].
  intros a b. cbn [dependencies]. apply hasEdge_addDependencies.
Qed.

End DependencyEdges.

Section DependencyExamples.
Import FormulaParser Operations.

(** B1 is given the formula [=A1], then the formula [=C1]. *)
Definition afterFirstFormula : option State :=
  updateCellValue Reference.host 5 initialState 5 "B1" "=A1".

Definition afterSecondFormula : option State :=
  match afterFirstFormula with
  | Some st => updateCellValue Reference.host 5 st 5 "B1" "=C1"
  | None => None
  end.

Lemma update_adds_edges_witness :
  exists v p,
    evaluateFormula Reference.host 5 initialState "=A1" (formulaParser initialState)
    = Some (v, p)
    /\ forall a b,
        hasEdge [("A1", ["B1"])] a b
        = (hasEdge [] a b || (set_has a (getCellsUsed p) && String.eqb b "B1"))%bool.
Proof.
  apply (update_adds_edges Reference.host 5 5 initialState
           {| cells := [("B1", {| cellValue := VNum 0; cellFormula := "=A1" |})];
              dependencies := [("A1", ["B1"])];
              formulaParser :=
                newParser [("=A1", {| value := VNum 0;
                                      FormulaParser.dependencies := ["A1"] |})] |}
           "B1" "=A1"); vm_compute; reflexivity.
Defined.

(** The claim as the specification has it fails: after the second
    formula, which reads C1 only, the edge from A1 to B1 is still
    there. *)
Lemma update_adds_edges_counterexample :
  option_map (fun st => (dependencies st, hasEdge (dependencies st) "A1" "B1"))
             afterSecondFormula
  = Some ([("A1", ["B1"]); ("C1", ["B1"])], true)
  /\ option_map (fun st =>
                   option_map (fun r => getCellsUsed (snd r))
                              (evaluateFormula Reference.host 5 st "=C1" (formulaParser st)))
                afterFirstFormula
     = Some (Some ["C1"]).
Proof. split; vm_compute; reflexivity. Qed.

End DependencyExamples.

(** ** C4: the propagation of a recalculation *)

Section Termination.
Import Js FormulaParser Operations.
Variable host : Host.



Variable evalFuel : nat.
Variable st : State.

(** The action of the handler: the cell keeps its formula and gets the
    value [#ERROR!]. *)
Definition caughtFor (cellId : string) : Action :=
  APPLY_FORMULA cellId (cellFormula (getCellData (cells st) cellId)) (VStr "#ERROR!").

(** The [forEach] of [recalculateDependentCells], with the recursive
    call as a parameter. *)
Definition forEachDependent
           (recur : string -> Parser * list Action -> option (Parser * list Action)) :=
  fix forEach (l : list string) (acc : Parser * list Action) : Parser * list Action :=
    match l with
    | [] => acc
    | cellId :: rest =>
        let cellData := getCellData (cells st) cellId in
        if isEmpty (cellFormula cellData) then forEach rest acc
        else
          match evaluateFormula host evalFuel st (cellFormula cellData) (fst acc) with
          | None => forEach rest (fst acc, snd acc ++ [caughtFor cellId])
          | Some (evaluatedValue, p) =>
              let dispatched :=
                snd acc ++ [APPLY_FORMULA cellId (cellFormula cellData) evaluatedValue] in
              match recur cellId (p, dispatched) with
              | Some acc' => forEach rest acc'
              | None => forEach rest (p, dispatched ++ [caughtFor cellId])
              end
          end
    end.

Lemma recalculate_unfold (fuel : nat) (changedCellId : string)
      (acc : Parser * list Action) :
  recalculateDependentCells host evalFuel st (S fuel) changedCellId acc
  = match map_get changedCellId (dependencies st) with
    | None => Some acc
    | Some dependentCells =>
        Some (forEachDependent (recalculateDependentCells host evalFuel st fuel)
                               dependentCells acc)
    end.
Proof. reflexivity. Qed.

(** A cell has a formula and depends on [a]. *)
Definition recalculatedAfter (a b : string) : Prop :=
  hasEdge (dependencies st) a b = true
  /\ cellFormula (getCellData (cells st) b) <> "".

(** The formula of [b] was evaluated again and a value dispatched for
    the cell. *)
Definition dispatchedFor (b : string) (log : list Action) : Prop :=
  exists v, In (APPLY_FORMULA b (cellFormula (getCellData (cells st) b)) v) log.

Definition extends (log log' : list Action) : Prop := exists more, log' = log ++ more.

Lemma extends_refl (log : list Action) : extends log log.
Proof. exists []. now rewrite List.app_nil_r. Qed.

Lemma extends_trans (a b c : list Action) : extends a b -> extends b c -> extends a c.
Proof. intros [m ->] [m' ->]. exists (m ++ m'). now rewrite List.app_assoc. Qed.

Lemma extends_app (a m : list Action) : extends a (a ++ m).
Proof. now exists m. Qed.

Lemma dispatchedFor_extends (b : string) (log log' : list Action) :
  extends log log' -> dispatchedFor b log -> dispatchedFor b log'.
Proof. intros [m ->] [v H]. exists v. apply in_or_app. now left. Qed.

(** What one run of the [forEach] adds to the actions dispatched: an
    action for every dependent that holds a formula, whatever was
    dispatched before; the action of the handler for every one of them
    when no recursive call has room on the stack. *)
Section ForEach.
Variable recur : string -> Parser * list Action -> option (Parser * list Action).
Hypothesis recur_extends :
  forall c acc r, recur c acc = Some r -> extends (snd acc) (snd r).

Lemma forEach_dispatches (l : list string) :
  forall acc,
  exists more,
    snd (forEachDependent recur l acc) = snd acc ++ more
    /\ (forall b, In b l -> cellFormula (getCellData (cells st) b) <> "" ->
                  dispatchedFor b more)
    /\ ((forall c a, recur c a = None) ->
        forall b, In b l -> cellFormula (getCellData (cells st) b) <> "" ->
                  In (caughtFor b) more).
Proof.
  induction l as [|c l IH]; intros acc; cbn [forEachDependent].
  - exists []. rewrite List.app_nil_r. repeat split; intros; contradiction.
  - destruct (isEmpty (cellFormula (getCellData (cells st) c))) eqn:Hform.
    + destruct (IH acc) as (more & Hm & Hall & Hcaught). exists more.
      assert (Hc : forall b, c = b -> cellFormula (getCellData (cells st) b) <> "" -> False).
      { intros b <- Hf. destruct (cellFormula (getCellData (cells st) c));
          [congruence | discriminate]. }
      split; [exact Hm|]. split.
      * intros b [E|Hb] Hf; [destruct (Hc b E Hf) | now apply Hall].
      * intros Hnone b [E|Hb] Hf; [destruct (Hc b E Hf) | now apply Hcaught].
    + assert (Hstep : forall first,
                 (forall b, c = b -> dispatchedFor b first)
                 -> ((forall c a, recur c a = None) -> In (caughtFor c) first)
                 -> forall acc', snd acc' = snd acc ++ first ->
                 exists more,
                   snd (forEachDependent recur l acc') = snd acc ++ more
                   /\ (forall b, In b (c :: l) ->
                                 cellFormula (getCellData (cells st) b) <> "" ->
                                 dispatchedFor b more)
                   /\ ((forall c a, recur c a = None) ->
                       forall b, In b (c :: l) ->
                                 cellFormula (getCellData (cells st) b) <> "" ->
                                 In (caughtFor b) more)).
      { intros first Hfirst Hcaught1 acc' Hacc'.
        destruct (IH acc') as (more & Hm & Hall & Hcaught).
        exists (first ++ more). split; [now rewrite Hm, Hacc', List.app_assoc|]. split.
        - intros b [E|Hb] Hf.
          + apply (dispatchedFor_extends b first); [apply extends_app | now apply Hfirst].
          + destruct (Hall b Hb Hf) as [v Hv]. exists v. apply in_or_app. now right.
        - intros Hnone b [E|Hb] Hf.
          + subst b. apply in_or_app. left. now apply Hcaught1.
          + apply in_or_app. right. now apply Hcaught. }
      destruct (evaluateFormula host evalFuel st _ (fst acc)) as [[v p]|].
      * destruct (recur c _) as [acc'|] eqn:Hrec.
        -- destruct (recur_extends _ _ _ Hrec) as [m Hm1]. cbn [snd] in Hm1.
           apply (Hstep ([APPLY_FORMULA c (cellFormula (getCellData (cells st) c)) v]
                           ++ m)).
           ++ intros b <-. exists v. now left.
           ++ intros Hnone. rewrite Hnone in Hrec. discriminate.
           ++ now rewrite Hm1, <- List.app_assoc.
        -- apply (Hstep [APPLY_FORMULA c (cellFormula (getCellData (cells st) c)) v;
                           caughtFor c]).
           ++ intros b <-. exists v. now left.
           ++ intros _. right. now left.
           ++ cbn [snd]. now rewrite <- List.app_assoc.
      * apply (Hstep [caughtFor c]).
        -- intros b <-. exists (VStr "#ERROR!"). now left.
        -- intros _. now left.
        -- reflexivity.
Qed.

End ForEach.

Lemma recalculate_extends (fuel : nat) :
  forall c acc r,
    recalculateDependentCells host evalFuel st fuel c acc = Some r ->
    extends (snd acc) (snd r).
Proof.
  induction fuel as [|fuel IH]; intros c acc r; [discriminate|].
  rewrite recalculate_unfold.
  destruct (map_get c (dependencies st)) as [dependentCells|].
  - intros [= <-].
    destruct (forEach_dispatches (recalculateDependentCells host evalFuel st fuel) IH
                dependentCells acc) as (more & -> & _).
    apply extends_app.
  - intros [= <-]. apply extends_refl.
Qed.

(** A call that has a frame on the stack returns; what it adds to the
    actions dispatched holds an action for every dependent with a
    formula, the one of the handler when the stack ends there. *)
Lemma recalculate_returns (fuel : nat) (changedCellId : string)
      (acc : Parser * list Action) :
  exists r more,
    recalculateDependentCells host evalFuel st (S fuel) changedCellId acc = Some r
    /\ snd r = snd acc ++ more
    /\ (forall b, recalculatedAfter changedCellId b -> dispatchedFor b more)
    /\ (fuel = O -> forall b, recalculatedAfter changedCellId b -> In (caughtFor b) more).
Proof.
  rewrite recalculate_unfold.
  destruct (map_get changedCellId (dependencies st)) as [dependentCells|] eqn:Hd.
  - destruct (forEach_dispatches (recalculateDependentCells host evalFuel st fuel)
                (recalculate_extends fuel) dependentCells acc)
      as (more & Hm & Hall & Hcaught).
    assert (Hin : forall b, recalculatedAfter changedCellId b -> In b dependentCells).
    { intros b [He _]. unfold hasEdge in He. rewrite Hd in He. now apply set_has_In. }
    eexists. exists more. split; [reflexivity|]. split; [exact Hm|]. split.
    + intros b Hb. apply Hall; [now apply Hin | exact (proj2 Hb)].
    + intros -> b Hb. apply Hcaught; [reflexivity | now apply Hin | exact (proj2 Hb)].
  - exists acc, []. split; [reflexivity|]. split; [now rewrite List.app_nil_r|].
    split; [|intros _]; intros b [He _]; unfold hasEdge in He; rewrite Hd in He;
      discriminate.
Qed.


End Termination.

Section TerminationExamples.
Import Js FormulaParser Operations.

(** A1 holds 1, B1 the formula [=A1+1], C1 the formula [=B1*2]. *)
Definition chainState : State :=
  {| cells := [("A1", {| cellValue := VStr "1"; cellFormula := "" |});
               ("B1", {| cellValue := VNum 2; cellFormula := "=A1+1" |});
               ("C1", {| cellValue := VNum 4; cellFormula := "=B1*2" |})];
     dependencies := [("A1", ["B1"]); ("B1", ["C1"])];
     formulaParser := newParser [] |}.


(** A1 is given the formula [=B1], then B1 the formula [=A1]: each cell
    is now recorded as depending on the other. *)
Definition cyclicState : State :=
  {| cells := [("A1", {| cellValue := VNum 0; cellFormula := "=B1" |});
               ("B1", {| cellValue := VNum 0; cellFormula := "=A1" |})];
     dependencies := [("B1", ["A1"]); ("A1", ["B1"])];
     formulaParser :=
       newParser [("=B1", {| value := VNum 0; FormulaParser.dependencies := ["B1"] |});
                  ("=A1", {| value := VNum 0; FormulaParser.dependencies := ["A1"] |})] |}.

Lemma cyclicState_reached :
  match updateCellValue Reference.host 5 initialState 5 "A1" "=B1" with
  | Some st => updateCellValue Reference.host 5 st 5 "B1" "=A1"
  | None => None
  end = Some cyclicState.
Proof. vm_compute. reflexivity. Qed.






End TerminationExamples.

(** ** The processing stack of [evaluate] *)

Section ProcessingStack.
Import Js FormulaParser.
Variable host : Host.
Variable getCellValue : string -> jsval.

Lemma set_delete_add (x : string) (s : StrSet) :
  set_has x s = false -> set_delete x (set_add x s) = s.
Proof.
  intros H. unfold set_add. rewrite H. unfold set_delete.
  rewrite filter_app. cbn [filter]. rewrite String.eqb_refl. cbn [negb].
  rewrite List.app_nil_r.
  unfold set_has in H. induction s as [|y s IH]; [reflexivity|].
  cbn [List.existsb] in H. apply orb_false_iff in H as [Hy Hs].
  cbn [filter]. rewrite Hy. cbn [negb]. now rewrite IH.
Qed.

Definition keepsStack {A : Type} (run : Eval A) : Prop :=
  forall p r p', run p = Some (r, p') -> processingStack p' = processingStack p.

Section Step.
Variable ev : jsval -> Eval jsval.
Hypothesis ev_keeps : forall v, keepsStack (ev v).

Lemma replaceCallback_keepsStack (ref : string) :
  keepsStack (replaceCallback host getCellValue ev ref).
Proof.
  intros p r p'. unfold replaceCallback. parser_simpl.
  destruct (set_has ref (processingStack p)) eqn:Hs.
  - intros [= _ <-]. reflexivity.
  - match goal with
    | |- match ?e with _ => _ end = _ -> _ =>
        destruct e as [[v p3]|] eqn:He; [|discriminate]
    end.
    intros [= _ <-]. parser_simpl.
    assert (H3 : processingStack p3 = set_add ref (processingStack p)).
    { destruct (getCellValue ref) as [| | | |s];
        try (injection He as _ <-; reflexivity).
      destruct (startsWith "=" s).
      - apply ev_keeps in He. exact He.
      - injection He as _ <-. reflexivity. }
    rewrite H3. now apply set_delete_add.
Qed.

Lemma replacePieces_keepsStack (ps : list piece) :
  keepsStack (replacePieces host getCellValue ev ps).
Proof.
  induction ps as [|[c|id] ps IH]; intros p r p'; cbn [replacePieces].
  - intros [= _ <-]. reflexivity.
  - destruct (replacePieces host getCellValue ev ps p) as [[s q]|] eqn:E;
      [|discriminate].
    intros [= _ <-]. eapply IH; eassumption.
  - destruct (replaceCallback host getCellValue ev id p) as [[t p1]|] eqn:E1;
      [|discriminate].
    destruct (replacePieces host getCellValue ev ps p1) as [[s q]|] eqn:E;
      [|discriminate].
    intros [= _ <-]. apply IH in E. apply replaceCallback_keepsStack in E1.
    congruence.
Qed.

Lemma replaceCellReferences_keepsStack (e : string) :
  keepsStack (replaceCellReferences host getCellValue ev e).
Proof.
  intros p r p'. unfold replaceCellReferences. destruct (isEmpty e).
  - intros [= _ <-]. reflexivity.
  - apply replacePieces_keepsStack.
Qed.

Lemma onCellsUsed_keepsStack (f : StrSet -> jsval * StrSet) :
  keepsStack (onCellsUsed f).
Proof.
  intros p r p'. unfold onCellsUsed. destruct (f (cellsUsed p)).
  intros [= _ <-]. reflexivity.
Qed.

Lemma evaluateIf_keepsStack (e : string) :
  keepsStack (evaluateIf host getCellValue ev e).
Proof.
  intros p r p'. unfold evaluateIf.
  destruct (matchIf e) as [[[g1 g2] g3]|]; [|intros [= _ <-]; reflexivity].
  destruct (replaceCellReferences host getCellValue ev (trim g1) p) as [[t p1]|] eqn:E;
    [|discriminate].
  apply replaceCellReferences_keepsStack in E.
  destruct (math_evaluate host t) as [v|]; [destruct (truthy v)|];
    intros [= _ <-]; assumption.
Qed.

Lemma evaluateExpression_keepsStack (e : string) :
  keepsStack (evaluateExpression host getCellValue ev e).
Proof.
  unfold evaluateExpression.
  destruct (isEmpty e); [intros p r p' [= _ <-]; reflexivity|].
  repeat match goal with
         | |- keepsStack (if ?b then _ else _) => destruct b
         | |- keepsStack (other _ _ _ _) => apply onCellsUsed_keepsStack
         | |- keepsStack (onCellsUsed _) => apply onCellsUsed_keepsStack
         | |- keepsStack (evaluateIf _ _ _ _) => apply evaluateIf_keepsStack
         end.
  intros p r p' [= _ <-]. reflexivity.
Qed.

Lemma evaluateBody_keepsStack (formula : jsval) :
  keepsStack (evaluateBody host getCellValue ev formula).
Proof.
  intros p r p'. unfold evaluateBody.
  destruct formula as [| | | |f]; try (intros [= _ <-]; reflexivity).
  destruct (isEmpty f); [intros [= _ <-]; reflexivity|].
  destruct (negb (startsWith "=" f)); [intros [= _ <-]; reflexivity|].
  destruct (map_get f (evaluationCache p)) as [e|].
  - unfold evaluateHit. intros [= _ <-]. reflexivity.
  - unfold evaluateMiss.
    destruct (isEmpty (trim (drop 1 f))); [intros [= _ <-]; reflexivity|].
    destruct (replaceCellReferences host getCellValue ev (trim (drop 1 f)) _)
      as [[t p2]|] eqn:E; [|discriminate].
    apply replaceCellReferences_keepsStack in E. parser_simpl.
    destruct (circularReferences p2); [|intros [= _ <-]; exact E].
    destruct (evaluateExpression host getCellValue ev t p2) as [[v p3]|] eqn:E3;
      [|discriminate].
    apply evaluateExpression_keepsStack in E3.
    intros [= _ <-]. parser_simpl. congruence.
Qed.

End Step.

Lemma evaluate_keepsStack (fuel : nat) :
  forall formula, keepsStack (evaluate host getCellValue fuel formula).
Proof.
  induction fuel as [|fuel IH]; intros formula.
  - intros p r p' H. discriminate.
  - cbn [evaluate]. now apply evaluateBody_keepsStack.
Qed.

(** X1. Whatever the sheet, the formula and the depth, a call of
    [evaluate] that returns leaves the processing stack as it found
    it: every reference pushed by the substitution is popped again,
    also when the cell read holds a formula that is evaluated in
    between or when a circular reference is met. The same holds for
    [replaceCellReferences] alone. *)
Theorem processing_stack_restored (fuel : nat) (formula : jsval) (expression : string)
        (p p' : Parser) (v : jsval) (p1 p1' : Parser) (text : string) :
  evaluate host getCellValue fuel formula p = Some (v, p') ->
  replaceCellReferences host getCellValue (evaluate host getCellValue fuel)
                        expression p1 = Some (text, p1') ->
  processingStack p' = processingStack p
  /\ processingStack p1' = processingStack p1.
Proof.
  intros He Hr. split.
  - exact (evaluate_keepsStack fuel formula p v p' He).
  - exact (replaceCellReferences_keepsStack (evaluate host getCellValue fuel)
             (evaluate_keepsStack fuel) expression p1 text p1' Hr).
Qed.

End ProcessingStack.

Section ProcessingStackExample.
Import Js FormulaParser.

(** A1 holds the formula [=B1+1] and B1 the number 2; the evaluation
    starts inside C1. *)
Definition stackSheet : string -> jsval :=
  Reference.sheetOf [("A1", VStr "=B1+1"); ("B1", VStr "2")].

Definition stackStart : Parser := setProcessingStack ["C1"] (newParser []).

Lemma processing_stack_restored_witness :
  exists v p' text p1',
    evaluate Reference.host stackSheet 3 (VStr "=A1*2") stackStart = Some (v, p')
    /\ replaceCellReferences Reference.host stackSheet
                             (evaluate Reference.host stackSheet 3) "A1+C1" stackStart
       = Some (text, p1')
    /\ processingStack p' = ["C1"]
    /\ processingStack p1' = ["C1"].
Proof.
  destruct (evaluate Reference.host stackSheet 3 (VStr "=A1*2") stackStart)
    as [[v p']|] eqn:He; [|vm_compute in He; discriminate].
  destruct (replaceCellReferences Reference.host stackSheet
              (evaluate Reference.host stackSheet 3) "A1+C1" stackStart)
    as [[text p1']|] eqn:Hr; [|vm_compute in Hr; discriminate].
  exists v, p', text, p1'. split; [reflexivity|]. split; [reflexivity|].
  exact (processing_stack_restored Reference.host stackSheet 3 (VStr "=A1*2") "A1+C1"
           stackStart p' v stackStart p1' text He Hr).
Defined.

End ProcessingStackExample.

(** ** [evaluate] returns *)

Section EvaluateReturns.
Import Js FormulaParser.
Variable host : Host.
Variable getCellValue : string -> jsval.
(** The cells whose value is the text of a formula. *)
Variable formulaCells : list string.
Hypothesis formulaCells_complete :
  forall id, isFormulaValue (getCellValue id) = true -> In id formulaCells.

(** The formula cells that are not being resolved. *)
Definition pending (cells : list string) (stack : StrSet) : list string :=
  filter (fun id => negb (set_has id stack)) cells.

Lemma pending_add_le (cells : list string) (id : string) (stack : StrSet) :
  length (pending cells (set_add id stack)) <= length (pending cells stack).
Proof.
  induction cells as [|c cells IH]; cbn [pending filter]; [lia|].
  fold (pending cells (set_add id stack)). fold (pending cells stack).
  rewrite set_has_add.
  destruct (set_has c stack); cbn [orb negb]; [exact IH|].
  destruct (String.eqb c id); cbn [negb length]; lia.
Qed.

Lemma pending_add_lt (cells : list string) (id : string) (stack : StrSet) :
  In id cells -> set_has id stack = false ->
  length (pending cells (set_add id stack)) < length (pending cells stack).
Proof.
  intros Hin Hs. induction cells as [|c cells IH]; [destruct Hin|].
  cbn [pending filter].
  fold (pending cells (set_add id stack)). fold (pending cells stack).
  rewrite set_has_add.
  destruct (String.eqb c id) eqn:E.
  - apply String.eqb_eq in E. subst c. rewrite Hs. cbn [orb negb length].
    pose proof (pending_add_le cells id stack). lia.
  - destruct Hin as [->|Hin]; [rewrite String.eqb_refl in E; discriminate|].
    specialize (IH Hin). rewrite orb_false_r.
    destruct (set_has c stack); cbn [negb length]; lia.
Qed.

(** A run returns, with the stack as it was, from every state with at
    most [n] formula cells pending. *)
Definition returnsWithin {A : Type} (n : nat) (run : Eval A) : Prop :=
  forall p, length (pending formulaCells (processingStack p)) <= n ->
            exists r p', run p = Some (r, p')
                         /\ processingStack p' = processingStack p.

Section Step.
Variable ev : jsval -> Eval jsval.
Variable n : nat.
(** The recursive calls return from the states with fewer than [n]
    formula cells pending. *)
Hypothesis ev_returns :
  forall v p, length (pending formulaCells (processingStack p)) < n ->
              exists r p', ev v p = Some (r, p')
                           /\ processingStack p' = processingStack p.

Lemma replaceCallback_returns (ref : string) :
  returnsWithin n (replaceCallback host getCellValue ev ref).
Proof.
  intros p Hp. unfold replaceCallback. parser_simpl.
  destruct (set_has ref (processingStack p)) eqn:Hs.
  - do 2 eexists. split; reflexivity.
  - assert (Hplain : forall value,
               exists r p',
                 match Some (value, setProcessingStack (set_add ref (processingStack p))
                                      (setCellsUsed (set_add ref (cellsUsed p)) p)) with
                 | Some (value, p3) =>
                     Some (substituted host value,
                           setProcessingStack (set_delete ref (processingStack p3)) p3)
                 | None => None
                 end = Some (r, p')
                 /\ processingStack p' = processingStack p).
    { intros value. do 2 eexists. split; [reflexivity|]. parser_simpl.
      now apply set_delete_add. }
    destruct (getCellValue ref) as [| | | |s] eqn:Hv; try apply Hplain.
    destruct (startsWith "=" s) eqn:Hf; [|apply Hplain].
    destruct (ev_returns (VStr s)
                (setProcessingStack (set_add ref (processingStack p))
                   (setCellsUsed (set_add ref (cellsUsed p)) p)))
      as (r & p3 & -> & H3).
    + parser_simpl.
      assert (Hin : In ref formulaCells).
      { apply formulaCells_complete. rewrite Hv. exact Hf. }
      pose proof (pending_add_lt formulaCells ref (processingStack p) Hin Hs). lia.
    + do 2 eexists. split; [reflexivity|]. parser_simpl. rewrite H3. parser_simpl.
      now apply set_delete_add.
Qed.

Lemma replacePieces_returns (ps : list piece) :
  returnsWithin n (replacePieces host getCellValue ev ps).
Proof.
  induction ps as [|[c|id] ps IH]; intros p Hp; cbn [replacePieces].
  - do 2 eexists. split; reflexivity.
  - destruct (IH p Hp) as (s & p' & -> & Hs). do 2 eexists. split; [reflexivity|].
    exact Hs.
  - destruct (replaceCallback_returns id p Hp) as (r & p1 & -> & H1).
    destruct (IH p1) as (s & p' & -> & Hs); [now rewrite H1|].
    do 2 eexists. split; [reflexivity|]. congruence.
Qed.

Lemma replaceCellReferences_returns (e : string) :
  returnsWithin n (replaceCellReferences host getCellValue ev e).
Proof.
  intros p Hp. unfold replaceCellReferences. destruct (isEmpty e).
  - do 2 eexists. split; reflexivity.
  - now apply replacePieces_returns.
Qed.

Lemma onCellsUsed_returns (f : StrSet -> jsval * StrSet) :
  returnsWithin n (onCellsUsed f).
Proof.
  intros p Hp. unfold onCellsUsed. destruct (f (cellsUsed p)).
  do 2 eexists. split; reflexivity.
Qed.

Lemma evaluateIf_returns (e : string) :
  returnsWithin n (evaluateIf host getCellValue ev e).
Proof.
  intros p Hp. unfold evaluateIf.
  destruct (matchIf e) as [[[g1 g2] g3]|]; [|do 2 eexists; split; reflexivity].
  destruct (replaceCellReferences_returns (trim g1) p Hp) as (t & p1 & -> & H1).
  destruct (math_evaluate host t) as [v|]; [destruct (truthy v)|];
    do 2 eexists; (split; [reflexivity | exact H1]).
Qed.

Lemma evaluateExpression_returnsWithin (e : string) :
  returnsWithin n (evaluateExpression host getCellValue ev e).
Proof.
  assert (Hsame : forall v : jsval, returnsWithin n (fun p => Some (v, p))).
  { intros v p Hp. do 2 eexists. split; reflexivity. }
  unfold evaluateExpression. destruct (isEmpty e); [apply Hsame|].
  repeat match goal with
         | |- returnsWithin _ (if ?b then _ else _) => destruct b
         | |- returnsWithin _ (other _ _ _ _) => apply onCellsUsed_returns
         | |- returnsWithin _ (onCellsUsed _) => apply onCellsUsed_returns
         | |- returnsWithin _ (evaluateIf _ _ _ _) => apply evaluateIf_returns
         end.
  apply Hsame.
Qed.

Lemma evaluateBody_returns (formula : jsval) :
  returnsWithin n (evaluateBody host getCellValue ev formula).
Proof.
  intros p Hp. unfold evaluateBody.
  destruct formula as [| | | |f]; try (do 2 eexists; split; reflexivity).
  destruct (isEmpty f); [do 2 eexists; split; reflexivity|].
  destruct (negb (startsWith "=" f)); [do 2 eexists; split; reflexivity|].
  destruct (map_get f (evaluationCache p)) as [e|].
  - unfold evaluateHit. do 2 eexists. split; reflexivity.
  - unfold evaluateMiss.
    destruct (isEmpty (trim (drop 1 f))); [do 2 eexists; split; reflexivity|].
    destruct (replaceCellReferences_returns (trim (drop 1 f))
                (setCellsUsed [] (countCacheMiss p)) Hp) as (t & p2 & -> & H2).
    parser_simpl.
    destruct (circularReferences p2);
      [|do 2 eexists; split; [reflexivity | exact H2]].
    destruct (evaluateExpression_returnsWithin t p2) as (v & p3 & -> & H3);
      [now rewrite H2|].
    do 2 eexists. split; [reflexivity|]. parser_simpl. congruence.
Qed.

End Step.

Lemma evaluate_returnsWithin (fuel : nat) :
  forall formula, returnsWithin fuel (evaluate host getCellValue (S fuel) formula).
Proof.
  induction fuel as [|fuel IH]; intros formula; cbn [evaluate].
  - apply evaluateBody_returns. intros v p Hp. lia.
  - apply evaluateBody_returns. intros v p Hp. apply IH. lia.
Qed.

(** X2. [evaluate] needs no guard on its depth. On a sheet where the
    cells that hold the text of a formula are among finitely many,
    every call returns, whatever the formula, the cache, the
    references in it and the cycles among the cells: the recursion
    through the cells goes no deeper than the number of those cells
    that are not yet on the processing stack, plus one. *)
Theorem evaluate_returns_on_finite_sheet (formula : jsval) (p : Parser) :
  exists r,
    evaluate host getCellValue
             (S (length (pending formulaCells (processingStack p)))) formula p
    = Some r.
Proof.
  destruct (evaluate_returnsWithin
              (length (pending formulaCells (processingStack p))) formula p)
    as (r & p' & H & _); [lia|].
  exists (r, p'). exact H.
Qed.

End EvaluateReturns.

Section EvaluateReturnsExample.
Import Js FormulaParser.

(** Three cells that refer to one another in a cycle. *)
Definition cycleSheet : string -> jsval :=
  Reference.sheetOf [("A1", VStr "=B1+1"); ("B1", VStr "=C1+1"); ("C1", VStr "=A1+1")].

Lemma cycleSheet_formulaCells (id : string) :
  isFormulaValue (cycleSheet id) = true -> In id ["A1"; "B1"; "C1"].
Proof.
  unfold cycleSheet, Reference.sheetOf. cbn [map_get].
  destruct (String.eqb id "A1") eqn:Ea; [apply String.eqb_eq in Ea; subst; cbn; tauto|].
  destruct (String.eqb id "B1") eqn:Eb; [apply String.eqb_eq in Eb; subst; cbn; tauto|].
  destruct (String.eqb id "C1") eqn:Ec; [apply String.eqb_eq in Ec; subst; cbn; tauto|].
  cbn. discriminate.
Qed.

Lemma evaluate_returns_on_finite_sheet_witness :
  exists r, evaluate Reference.host cycleSheet 4 (VStr "=A1*2") (newParser []) = Some r.
Proof.
  exact (evaluate_returns_on_finite_sheet Reference.host cycleSheet ["A1"; "B1"; "C1"]
           cycleSheet_formulaCells (VStr "=A1*2") (newParser [])).
Defined.

End EvaluateReturnsExample.

(** ** The cache across the calls of the hook *)

Section CacheBound.
Import Js FormulaParser Operations.
Variable host : Host.
Variable evalFuel : nat.
Variable st : State.

Lemma recalculate_keeps_cache (fuel : nat) :
  forall changedCellId acc r,
    cacheOk (evaluationCache (fst acc)) ->
    recalculateDependentCells host evalFuel st fuel changedCellId acc = Some r ->
    cacheOk (evaluationCache (fst r)).
Proof.
  induction fuel as [|fuel IH]; intros c acc r Hok; [discriminate|].
  rewrite recalculate_unfold.
  destruct (map_get c (dependencies st)) as [dependentCells|];
    [|intros [= <-]; exact Hok].
  intros [= <-]. revert acc Hok.
  induction dependentCells as [|b l IHl]; intros acc Hok; cbn [forEachDependent].
  - exact Hok.
  - destruct (isEmpty (cellFormula (getCellData (cells st) b))); [now apply IHl|].
    destruct (evaluateFormula host evalFuel st _ (fst acc)) as [[v p]|] eqn:Hev;
      [|now apply IHl].
    assert (Hp : cacheOk (evaluationCache p)).
    { unfold evaluateFormula in Hev.
      eapply evaluate_keeps_cache; [|exact Hev]. exact Hok. }
    destruct (recalculateDependentCells host evalFuel st fuel b _) as [acc'|] eqn:Hrec.
    + apply IHl. eapply IH; [|exact Hrec]. exact Hp.
    + apply IHl. exact Hp.
Qed.

(** X3. The cache that all parsers share never grows past 1000
    entries and never holds a key twice: it is so after every call
    of [evaluate] that finds it so, nested evaluations included, and
    after every call of [updateCellValue], with all the formulas that
    the propagation evaluates again. *)
Theorem cache_stays_bounded (fuel : nat) (formula : jsval) (p p' : Parser) (v : jsval)
        (getCellValue : string -> jsval) (cellId text : string) (st' : State) :
  cacheOk (evaluationCache p) ->
  cacheOk (evaluationCache (formulaParser st)) ->
  evaluate host getCellValue fuel formula p = Some (v, p') ->
  updateCellValue host evalFuel st fuel cellId text = Some st' ->
  (NoDup (List.map fst (evaluationCache p')) /\ length (evaluationCache p') <= 1000)
  /\ (NoDup (List.map fst (evaluationCache (formulaParser st')))
      /\ length (evaluationCache (formulaParser st')) <= 1000).
Proof.
  intros Hp Hst Hev Hup. split.
  - exact (evaluate_keeps_cache host getCellValue fuel formula p v p' Hp Hev).
  - change (cacheOk (evaluationCache (formulaParser st'))).
    unfold updateCellValue in Hup. destruct (startsWith "=" text).
    + destruct (evaluateFormula host evalFuel st text (formulaParser st))
        as [[v1 p1]|] eqn:E; [|discriminate].
      injection Hup as <-. cbn [formulaParser nextParser]. parser_simpl.
      unfold evaluateFormula in E.
      exact (evaluate_keeps_cache host _ evalFuel _ _ _ _ Hst E).
    + match type of Hup with
      | match ?e with _ => _ end = _ => destruct e as [[p1 actions]|] eqn:E
      end; [|discriminate].
      injection Hup as <-. cbn [formulaParser nextParser]. parser_simpl.
      destruct (map_get cellId (dependencies st)).
      * apply (recalculate_keeps_cache fuel cellId _ (p1, actions)) in E;
          [exact E | exact Hst].
      * injection E as <- _. exact Hst.
Qed.

End CacheBound.

Section CacheBoundExample.
Import Js FormulaParser Operations.

Lemma cacheOk_nil : cacheOk [].
Proof. split; [constructor | cbn; lia]. Qed.

Lemma cache_stays_bounded_witness :
  exists v p' st',
    evaluate Reference.host (getCellValue (cells chainState)) 3 (VStr "=B1*2")
             (newParser []) = Some (v, p')
    /\ updateCellValue Reference.host 5 chainState 3 "A1" "7" = Some st'
    /\ (NoDup (List.map fst (evaluationCache p')) /\ length (evaluationCache p') <= 1000)
    /\ (NoDup (List.map fst (evaluationCache (formulaParser st')))
        /\ length (evaluationCache (formulaParser st')) <= 1000).
Proof.
  destruct (evaluate Reference.host (getCellValue (cells chainState)) 3 (VStr "=B1*2")
              (newParser [])) as [[v p']|] eqn:He; [|vm_compute in He; discriminate].
  destruct (updateCellValue Reference.host 5 chainState 3 "A1" "7")
    as [st'|] eqn:Hu; [|vm_compute in Hu; discriminate].
  exists v, p', st'. split; [reflexivity|]. split; [reflexivity|].
  exact (cache_stays_bounded Reference.host 5 chainState 3 (VStr "=B1*2")
           (newParser []) p' v (getCellValue (cells chainState)) "A1" "7" st'
           cacheOk_nil cacheOk_nil He Hu).
Defined.

End CacheBoundExample.

(** ** The order in which the cache loses its entries *)

Section CacheEviction.
Import Js FormulaParser.
Variable host : Host.
Variable getCellValue : string -> jsval.

(** X4. The cache is first in, first out. Storing a formula that the
    cache does not hold, when it holds 1000 entries, removes the entry
    that was set first and nothing else; storing below 1000 entries,
    or for a formula that the cache holds, removes nothing. A hit
    leaves the cache as it is, so that a formula that is read often
    is removed as soon as one that is never read again. *)
Theorem cache_first_in_first_out (key : string) (entry : CacheEntry)
        (cache : StrMap CacheEntry) (n : nat) (cached : CacheEntry) (p : Parser) :
  length cache <= 1000 ->
  (map_get key cache = None -> length cache = 1000 ->
   cacheStore key entry cache = tl cache ++ [(key, entry)])
  /\ (map_get key cache = None -> length cache < 1000 ->
      cacheStore key entry cache = cache ++ [(key, entry)])
  /\ (map_get key cache <> None ->
      cacheStore key entry cache = map_set key entry cache
      /\ List.map fst (cacheStore key entry cache) = List.map fst cache)
  /\ (startsWith "=" key = true -> map_get key (evaluationCache p) = Some cached ->
      exists v p', evaluate host getCellValue (S n) (VStr key) p = Some (v, p')
                   /\ evaluationCache p' = evaluationCache p).
Proof.
  intros Hlen. repeat split.
  - intros Hnone Hfull. unfold cacheStore. rewrite map_set_absent by assumption.
    rewrite List.length_app. cbn [length].
    replace (1000 <? length cache + 1)%nat with true by (symmetry; apply Nat.ltb_lt; lia).
    destruct cache as [|x cache]; [cbn in Hfull; lia | reflexivity].
  - intros Hnone Hless. unfold cacheStore. rewrite map_set_absent by assumption.
    rewrite List.length_app. cbn [length].
    now replace (1000 <? length cache + 1)%nat with false by (symmetry; apply Nat.ltb_ge; lia).
  - destruct (map_get key cache) as [e0|] eqn:E; [|congruence].
    unfold cacheStore. rewrite (map_set_present_length key entry e0 cache E).
    now replace (1000 <? length cache)%nat with false by (symmetry; apply Nat.ltb_ge; lia).
  - destruct (map_get key cache) as [e0|] eqn:E; [|congruence].
    unfold cacheStore. rewrite (map_set_present_length key entry e0 cache E).
    replace (1000 <? length cache)%nat with false by (symmetry; apply Nat.ltb_ge; lia).
    clear Hlen. revert E. induction cache as [|[k' v'] cache IH];
      cbn [map_get map_set]; [discriminate|].
    destruct (String.eqb key k'); intros E; cbn [List.map fst]; [reflexivity|].
    now rewrite IH.
  - intros Hf Hc. rewrite (evaluate_hit host getCellValue n key p cached Hf Hc).
    unfold evaluateHit. do 2 eexists. split; reflexivity.
Qed.

End CacheEviction.

Section CacheEvictionExample.
Import Js FormulaParser.

(** A cache with the 1000 formulas [=0], ..., [=999], set in this
    order. *)
Definition fullCache : StrMap CacheEntry :=
  List.map (fun n => (("=" ++ intToString (Z.of_nat n))%string,
                      {| value := VNum 0; dependencies := [] |}))
           (seq 0 1000).

Lemma fullCache_length : length fullCache = 1000.
Proof. unfold fullCache. now rewrite length_map, length_seq. Qed.

Lemma cache_first_in_first_out_witness :
  map_get "=0" (cacheStore "=A1" {| value := VNum 1; dependencies := ["A1"] |} fullCache)
  = None.
Proof.
  pose proof (cache_first_in_first_out Reference.host (fun _ => VStr "") "=A1"
                {| value := VNum 1; dependencies := ["A1"] |} fullCache 0
                {| value := VNum 1; dependencies := ["A1"] |} (newParser []))
    as H.
  destruct H as (Hfull & _); [rewrite fullCache_length; lia|].
  rewrite Hfull; [| vm_compute; reflexivity | exact fullCache_length].
  vm_compute. reflexivity.
Defined.

End CacheEvictionExample.

(** ** Invalidation *)

Section Invalidation.
Import Js FormulaParser.

Lemma filter_filter {A : Type} (f g : A -> bool) (l : list A) :
  filter f (filter g l) = filter (fun x => g x && f x) l.
Proof.
  induction l as [|x l IH]; [reflexivity|]. cbn [filter].
  destruct (g x); cbn [filter andb]; [destruct (f x)|]; now rewrite IH.
Qed.

(** X5. Invalidations compose: invalidating for one list of cells and
    then for another is invalidating for both lists at once, in either
    order, and invalidating again for the same cells removes nothing
    more. No invalidation touches anything of the parser but the
    cache, and the empty list removes nothing. *)
Theorem invalidation_composes (a b : list string) (p : Parser) :
  invalidateCellDependencies b (invalidateCellDependencies a p)
  = invalidateCellDependencies (a ++ b) p
  /\ invalidateCellDependencies a (invalidateCellDependencies b p)
     = invalidateCellDependencies (a ++ b) p
  /\ invalidateCellDependencies a (invalidateCellDependencies a p)
     = invalidateCellDependencies a p
  /\ invalidateCellDependencies [] p = p
  /\ cellsUsed (invalidateCellDependencies a p) = cellsUsed p
  /\ processingStack (invalidateCellDependencies a p) = processingStack p
  /\ circularReferences (invalidateCellDependencies a p) = circularReferences p.
Proof.
  assert (Hsame : forall (f g : string * CacheEntry -> bool) (l : StrMap CacheEntry),
             (forall x, f x = g x) -> filter f l = filter g l).
  { intros f g l H. induction l as [|x l IH]; [reflexivity|].
    cbn [filter]. now rewrite H, IH. }
  repeat split.
  - unfold invalidateCellDependencies. parser_simpl. unfold setEvaluationCache.
    parser_simpl. f_equal. rewrite filter_filter. apply Hsame. intros x.
    now rewrite existsb_app, negb_orb.
  - unfold invalidateCellDependencies. parser_simpl. unfold setEvaluationCache.
    parser_simpl. f_equal. rewrite filter_filter. apply Hsame. intros x.
    rewrite existsb_app, negb_orb. apply andb_comm.
  - unfold invalidateCellDependencies. parser_simpl. unfold setEvaluationCache.
    parser_simpl. f_equal. rewrite filter_filter. apply Hsame. intros x.
    apply andb_diag.
  - unfold invalidateCellDependencies. cbn [List.existsb negb].
    destruct p as [u h m c s cache]. unfold setEvaluationCache. parser_simpl. f_equal.
    induction cache as [|x cache IH]; [reflexivity|]. cbn [filter]. now rewrite IH.
Qed.

End Invalidation.

(** ** Column labels (cellHelpers.js) *)

Section ColumnLabels.
Import Js CellHelpers.
Local Open Scope Z_scope.

Lemma getColumnIndex_nonneg (ls : string) :
  ls <> "" -> forallb isUpper ls = true -> 0 <= getColumnIndex ls.
Proof.
  intros Hne Hup. unfold getColumnIndex.
  destruct ls as [|c ls]; [congruence|]. cbn [getColumnIndex_loop forallb] in *.
  apply andb_true_iff in Hup as [Hc Hup]. unfold isUpper in Hc.
  pose proof (getColumnIndex_loop_lower ls (0 * 26 + (charCode c - 64)) Hup). lia.
Qed.

Lemma getColumnId_negative (index : Z) : index < 0 -> getColumnId index = "".
Proof.
  intros H. unfold getColumnId. cbn [getColumnId_loop].
  now replace (0 <? index + 1) with false by (symmetry; apply Z.ltb_ge; lia).
Qed.

(** X6. Among the safe integers the column labels and the column
    indices are in one-to-one correspondence: [getColumnId] makes of
    every index from 0 to [MAX_SAFE_INTEGER] a non-empty word of
    capitals from which [getColumnIndex] reads the index back, and of
    every non-empty word of capitals whose index is within the bound
    [getColumnIndex] makes an index from 0 on that [getColumnId]
    writes as this word; so different indices have different labels.
    Below 0 [getColumnId] gives the empty label. *)
Theorem column_labels_one_to_one (index other : Z) (label : string) :
  0 <= index <= MAX_SAFE_INTEGER -> 0 <= other <= MAX_SAFE_INTEGER ->
  label <> "" -> forallb isUpper label = true ->
  getColumnIndex label <= MAX_SAFE_INTEGER ->
  (getColumnId index <> ""
   /\ forallb isUpper (getColumnId index) = true
   /\ getColumnIndex (getColumnId index) = index)
  /\ (0 <= getColumnIndex label
      /\ getColumnId (getColumnIndex label) = label)
  /\ (getColumnId index = getColumnId other -> index = other)
  /\ (forall negative, negative < 0 -> getColumnId negative = "").
Proof.
  intros [Hi _] [Ho _] Hne Hup _.
  destruct (getColumnId_spec index Hi) as (Hu1 & Hn1 & Hr1).
  destruct (getColumnId_spec other Ho) as (_ & _ & Hr2).
  repeat split; try assumption.
  - now apply getColumnIndex_nonneg.
  - now apply getColumnId_getColumnIndex.
  - intros E. rewrite <- Hr1, <- Hr2. now rewrite E.
  - apply getColumnId_negative.
Qed.

Lemma column_labels_one_to_one_witness :
  (getColumnId 701 <> ""
   /\ forallb isUpper (getColumnId 701) = true
   /\ getColumnIndex (getColumnId 701) = 701)
  /\ (0 <= getColumnIndex "AAA"
      /\ getColumnId (getColumnIndex "AAA") = "AAA")
  /\ (getColumnId 701 = getColumnId 702 -> 701 = 702)
  /\ (forall negative, negative < 0 -> getColumnId negative = "").
Proof.
  apply (column_labels_one_to_one 701 702 "AAA");
    try (unfold MAX_SAFE_INTEGER; lia); [discriminate | reflexivity | vm_compute; discriminate].
Defined.

(** The last column within the bound, and its label. *)
Example last_safe_column :
  getColumnId MAX_SAFE_INTEGER = "BKTXHSOGHKKF"
  /\ getColumnIndex "BKTXHSOGHKKF" = MAX_SAFE_INTEGER.
Proof. split; vm_compute; reflexivity. Qed.

End ColumnLabels.

(** ** Ranges and selections (cellHelpers.js) *)

Section Selections.
Import Js CellHelpers CellSelection.
Local Open Scope Z_scope.








Lemma countFrom_In (x a : Z) (n : nat) :
  In x (countFrom a n) <-> a <= x < a + Z.of_nat n.
Proof.
  revert a. induction n as [|n IH]; intros a; cbn [countFrom In]; [lia|].
  rewrite IH. lia.
Qed.

Lemma fromTo_In (x a b : Z) : In x (fromTo a b) <-> a <= x <= b.
Proof. unfold fromTo. rewrite countFrom_In. lia. Qed.





End Selections.

(** ** Pasting (clipboardActions.js) *)

Section Pasting.
Import Js CellHelpers FormulaParser ClipboardActions.
Local Open Scope Z_scope.







End Pasting.

(** ** Keyboard navigation (useSpreadsheetOperations.js) *)

Section KeyboardNavigation.
Import Js CellHelpers FormulaParser Navigation.
Local Open Scope Z_scope.

Lemma span_all (p : ascii -> bool) (s : string) :
  forallb p s = true -> span p s = (s, "").
Proof.
  intros H. rewrite <- (append_nil_r s) at 1. now apply span_app.
Qed.






End KeyboardNavigation.

(** ** The columns of the parser and the columns of the grid *)

Section ParserColumns.
Import Js CellHelpers FormulaParser.
Local Open Scope Z_scope.

Lemma column_loops_agree (fuel : nat) :
  forall temp acc,
    indexToColumnLetter_loop fuel temp acc = getColumnId_loop fuel temp acc.
Proof.
  induction fuel as [|fuel IH]; intros temp acc;
    cbn [indexToColumnLetter_loop getColumnId_loop]; [reflexivity|].
  destruct (0 <? temp); [apply IH | reflexivity].
Qed.

Lemma indexToColumnLetter_getColumnId (index : Z) :
  1 <= index -> indexToColumnLetter index = getColumnId (index - 1).
Proof.
  intros H. unfold indexToColumnLetter, getColumnId.
  replace (index <? 1) with false by (symmetry; apply Z.ltb_ge; lia).
  replace (index - 1 + 1) with index by lia. apply column_loops_agree.
Qed.

Lemma columnLetterToIndex_loop_upper (ls : string) :
  forall index,
    forallb isUpper ls = true ->
    columnLetterToIndex_loop ls index = Some (getColumnIndex_loop ls index).
Proof.
  induction ls as [|c ls IH]; intros index Hup;
    cbn [columnLetterToIndex_loop getColumnIndex_loop]; [reflexivity|].
  cbn [forallb] in Hup. apply andb_true_iff in Hup as [Hc Hup].
  replace ((charCode c <? 65) || (90 <? charCode c))%bool with false
    by (unfold isUpper in Hc; lia).
  now apply IH.
Qed.

Lemma columnLetterToIndex_loop_other (ls : string) :
  forall index,
    forallb isUpper ls = false -> columnLetterToIndex_loop ls index = None.
Proof.
  induction ls as [|c ls IH]; intros index Hup; [discriminate|].
  cbn [columnLetterToIndex_loop]. cbn [forallb] in Hup.
  destruct ((charCode c <? 65) || (90 <? charCode c))%bool eqn:E; [reflexivity|].
  apply IH. replace (isUpper c) with true in Hup by (unfold isUpper; lia).
  exact Hup.
Qed.

Lemma columnLetterToIndex_getColumnIndex (ls : string) :
  ls <> "" -> forallb isUpper ls = true ->
  columnLetterToIndex ls = getColumnIndex ls + 1.
Proof.
  intros Hne Hup. unfold columnLetterToIndex, getColumnIndex.
  destruct ls as [|c ls]; [congruence|]. cbn [isEmpty].
  rewrite columnLetterToIndex_loop_upper by assumption. lia.
Qed.

Lemma columnLetterToIndex_positive (s : string) : 1 <= columnLetterToIndex s.
Proof.
  destruct s as [|c s]; [cbn; lia|].
  destruct (forallb isUpper (String c s)) eqn:Hup.
  - rewrite columnLetterToIndex_getColumnIndex by (assumption || discriminate).
    pose proof (getColumnIndex_nonneg (String c s)) as H.
    specialize (H ltac:(discriminate) Hup). lia.
  - unfold columnLetterToIndex. cbn [isEmpty].
    rewrite columnLetterToIndex_loop_other by assumption. lia.
Qed.

Lemma rangeCellId_getCellId (col row : Z) :
  1 <= col -> rangeCellId col row = getCellId (col - 1) (row - 1).
Proof.
  intros H. unfold rangeCellId, getCellId.
  rewrite indexToColumnLetter_getColumnId by assumption.
  now replace (row - 1 + 1) with row by lia.
Qed.

(** X11. The parser counts columns from 1 and the grid from 0, and
    apart from that the two agree on the safe integers: for an index
    from 1 to [MAX_SAFE_INTEGER] [indexToColumnLetter] writes the
    label that [getColumnId] writes for the index before; for a
    non-empty word of capitals whose column is within the bound
    [columnLetterToIndex] reads one more than [getColumnIndex]; the
    two functions of the parser undo each other; and a cell of an
    expanded range has the id that the grid gives to this cell. Out
    of their domain the two functions fall back to the first column:
    the label A for an index below 1, the index 1 for the empty text
    and for a text with a character that is no capital. *)
Theorem parser_columns_agree_with_grid (index row : Z) (label : string) :
  1 <= index <= MAX_SAFE_INTEGER ->
  - MAX_SAFE_INTEGER <= row <= MAX_SAFE_INTEGER ->
  label <> "" -> forallb isUpper label = true ->
  columnLetterToIndex label <= MAX_SAFE_INTEGER ->
  indexToColumnLetter index = getColumnId (index - 1)
  /\ columnLetterToIndex label = getColumnIndex label + 1
  /\ columnLetterToIndex (indexToColumnLetter index) = index
  /\ indexToColumnLetter (columnLetterToIndex label) = label
  /\ rangeCellId index row = getCellId (index - 1) (row - 1)
  /\ (forall low, low < 1 -> indexToColumnLetter low = "A")
  /\ (forall text, forallb isUpper text = false -> columnLetterToIndex text = 1)
  /\ columnLetterToIndex "" = 1.
Proof.
  intros [Hi _] _ Hne Hup _.
  destruct (getColumnId_spec (index - 1)) as (Hu1 & Hn1 & Hr1); [lia|].
  repeat split.
  - now apply indexToColumnLetter_getColumnId.
  - now apply columnLetterToIndex_getColumnIndex.
  - rewrite indexToColumnLetter_getColumnId by assumption.
    rewrite columnLetterToIndex_getColumnIndex by assumption. lia.
  - rewrite columnLetterToIndex_getColumnIndex by assumption.
    pose proof (getColumnIndex_nonneg label Hne Hup).
    rewrite indexToColumnLetter_getColumnId by lia.
    replace (getColumnIndex label + 1 - 1) with (getColumnIndex label) by lia.
    now apply getColumnId_getColumnIndex.
  - now apply rangeCellId_getCellId.
  - intros low Hlow. unfold indexToColumnLetter.
    now replace (low <? 1) with true by (symmetry; apply Z.ltb_lt; lia).
  - intros text Htext. unfold columnLetterToIndex.
    destruct text as [|c text]; [reflexivity|]. cbn [isEmpty].
    now rewrite columnLetterToIndex_loop_other.
Qed.

Lemma parser_columns_agree_with_grid_witness :
  indexToColumnLetter 28 = getColumnId (28 - 1)
  /\ columnLetterToIndex "AB" = getColumnIndex "AB" + 1
  /\ columnLetterToIndex (indexToColumnLetter 28) = 28
  /\ indexToColumnLetter (columnLetterToIndex "AB") = "AB"
  /\ rangeCellId 28 12 = getCellId (28 - 1) (12 - 1)
  /\ (forall low, low < 1 -> indexToColumnLetter low = "A")
  /\ (forall text, forallb isUpper text = false -> columnLetterToIndex text = 1)
  /\ columnLetterToIndex "" = 1.
Proof.
  apply (parser_columns_agree_with_grid 28 12 "AB");
    try (unfold MAX_SAFE_INTEGER; lia);
    [discriminate | reflexivity | vm_compute; discriminate].
Defined.

End ParserColumns.

(** ** Valid cell references *)

Section ValidReferences.
Import Js CellHelpers FormulaParser.
Local Open Scope string_scope.

Lemma span_spec (p : ascii -> bool) (s : string) :
  forall a b, span p s = (a, b) ->
              s = a ++ b /\ forallb p a = true /\ headFails p b.
Proof.
  induction s as [|c s IH]; intros a b; cbn [span].
  - intros [= <- <-]. repeat split.
  - destruct (p c) eqn:Hc.
    + destruct (span p s) as [a' b'] eqn:E. intros [= <- <-].
      destruct (IH a' b' eq_refl) as (-> & Ha & Hb).
      repeat split; [cbn [forallb]; now rewrite Hc | assumption].
    + intros [= <- <-]. repeat split. exact Hc.
Qed.

Lemma dropWhile_head (p : ascii -> bool) (s : string) :
  headFails p s -> dropWhile p s = s.
Proof. destruct s as [|c s]; cbn; [reflexivity|]. now intros ->. Qed.

Lemma upper_not_space (c : ascii) : isUpper c = true -> isSpace c = false.
Proof. unfold isUpper, isSpace. intros H. lia. Qed.

Lemma digit_not_space (c : ascii) : isDigit c = true -> isSpace c = false.
Proof. unfold isDigit, isSpace. intros H. lia. Qed.

Lemma trim_letters_digits (ls ds : string) :
  ls <> "" -> forallb isUpper ls = true ->
  ds <> "" -> forallb isDigit ds = true ->
  trim (ls ++ ds) = ls ++ ds.
Proof.
  intros Hl Hup Hd Hdig. unfold trim.
  rewrite (dropWhile_head isSpace (ls ++ ds)).
  - rewrite rev_app, dropWhile_head.
    + now rewrite <- rev_app, rev_involutive.
    + pose proof (rev_nonempty ds Hd) as Hr.
      assert (Hrd : forallb isDigit (rev ds) = true) by now rewrite forallb_rev.
      destruct (rev ds) as [|c r]; [congruence|]. cbn [forallb] in Hrd.
      apply andb_true_iff in Hrd as [Hc _]. cbn. now apply digit_not_space.
  - destruct ls as [|c ls]; [congruence|]. cbn [forallb] in Hup.
    apply andb_true_iff in Hup as [Hc _]. cbn. now apply upper_not_space.
Qed.

Lemma letters_digits_valid (ls ds : string) :
  ls <> "" -> forallb isUpper ls = true ->
  ds <> "" -> forallb isDigit ds = true ->
  isValidCellReference (ls ++ ds) = true.
Proof.
  intros Hl Hup Hd Hdig. unfold isValidCellReference.
  rewrite trim_letters_digits by assumption.
  rewrite span_app; [| assumption |].
  - rewrite (span_all isDigit ds Hdig).
    destruct ls; [congruence|]. destruct ds; [congruence | reflexivity].
  - apply (headFails_of_forallb _ isDigit); [apply digit_not_upper | assumption].
Qed.

Lemma getCellId_valid (col row : Z) :
  (0 <= col)%Z -> (0 <= row)%Z -> isValidCellReference (getCellId col row) = true.
Proof.
  intros Hc Hr. unfold getCellId.
  destruct (getColumnId_spec col Hc) as (Hup & Hne & _).
  destruct (row + 1)%Z as [|q|q] eqn:Hq; try lia.
  destruct (intToString_pos q) as (Hs & Hsne & _).
  apply letters_digits_valid; try assumption.
  rewrite Hs. apply string_of_uint_digits.
Qed.


Lemma matchCellRefAt_valid (s m : string) :
  matchCellRefAt s = Some m -> isValidCellReference m = true.
Proof.
  unfold matchCellRefAt.
  destruct (span isUpper s) as [ls r1] eqn:E1.
  destruct (span isDigit r1) as [ds r2] eqn:E2.
  destruct (span_spec _ _ _ _ E1) as (_ & Hup & _).
  destruct (span_spec _ _ _ _ E2) as (_ & Hdig & _).
  destruct (isEmpty ls || isEmpty ds)%bool eqn:E; [discriminate|].
  apply orb_false_iff in E as [Hl Hd].
  assert (Hv : isValidCellReference (ls ++ ds) = true).
  { apply letters_digits_valid; try assumption.
    - intros ->. discriminate.
    - intros ->. discriminate. }
  destruct r2 as [|c r2]; [intros [= <-]; exact Hv|].
  destruct (isAlnum c); [discriminate | intros [= <-]; exact Hv].
Qed.

Lemma scanCellRefs_valid (s : string) :
  forall skip id,
    In id (refsOfPieces (scanCellRefs skip s)) -> isValidCellReference id = true.
Proof.
  induction s as [|c s IH]; intros skip id; cbn [scanCellRefs].
  - intros [].
  - destruct skip as [|k]; [|apply IH].
    destruct (matchCellRefAt (String c s)) as [m|] eqn:E.
    + cbn [refsOfPieces flat_map app In]. intros [<-|H].
      * now apply matchCellRefAt_valid in E.
      * now apply IH in H.
    + cbn [refsOfPieces flat_map app]. apply IH.
Qed.

(** X13. What [replaceCellReferences] takes for a reference is always
    a valid cell reference. On a sheet of computed values it returns
    at once, and the cells that it adds to [cellsUsed] are the
    references of the text, one or more capitals followed by digits
    and by no letter or digit, and no other. *)
Theorem substitution_records_valid_references
        (host : Host) (getCellValue : string -> jsval) (ev : jsval -> Eval jsval)
        (expression : string) (p : Parser) :
  plainSheet getCellValue ->
  exists text p',
    replaceCellReferences host getCellValue ev expression p = Some (text, p')
    /\ (forall id, In id (cellsUsed p')
                   <-> In id (cellRefsOf expression) \/ In id (cellsUsed p))
    /\ (forall id, In id (cellRefsOf expression) -> isValidCellReference id = true).
Proof.
  intros Hplain.
  destruct (replaceCellReferences_plain host getCellValue Hplain ev expression p)
    as (text & p' & Hr & Hu & _).
  exists text, p'. split; [exact Hr|]. split.
  - intros id. rewrite Hu. apply addAll_In.
  - intros id. apply scanCellRefs_valid.
Qed.

End ValidReferences.

Section ValidReferencesExample.
Import Js FormulaParser.

Lemma substitution_records_valid_references_witness :
  exists text p',
    replaceCellReferences Reference.host (Reference.sheetOf [("A1", VStr "2")])
                          (evaluate Reference.host (Reference.sheetOf [("A1", VStr "2")]) 0)
                          "A1+b2+C3D+AB12" (newParser []) = Some (text, p')
    /\ (forall id, In id (cellsUsed p')
                   <-> In id (cellRefsOf "A1+b2+C3D+AB12") \/ In id (cellsUsed (newParser [])))
    /\ (forall id, In id (cellRefsOf "A1+b2+C3D+AB12") -> isValidCellReference id = true).
Proof.
  apply substitution_records_valid_references.
  intros id. unfold Reference.sheetOf. cbn [map_get].
  destruct (String.eqb id "A1"); reflexivity.
Defined.

Example references_of_text : cellRefsOf "A1+b2+C3D+AB12" = ["A1"; "AB12"].
Proof. vm_compute. reflexivity. Qed.

End ValidReferencesExample.

(** ** The cells of a range are valid references *)

Section RangeCells.
Import Js CellHelpers FormulaParser.
Local Open Scope Z_scope.

Lemma rowMajor_In (minCol maxCol minRow maxRow : Z) (id : string) :
  In id (rowMajor minCol maxCol minRow maxRow)
  -> exists col row, minCol <= col <= maxCol /\ minRow <= row <= maxRow
                     /\ id = rangeCellId col row.
Proof.
  unfold rowMajor, rowCells. rewrite in_flat_map.
  intros (row & Hrow & Hin). apply in_map_iff in Hin as (col & <- & Hcol).
  apply fromTo_In in Hrow. apply fromTo_In in Hcol.
  exists col, row. repeat split; lia.
Qed.

Lemma firstn_incl {A : Type} (n : nat) (l : list A) (x : A) :
  In x (firstn n l) -> In x l.
Proof.
  revert l. induction n as [|n IH]; intros [|y l]; cbn [firstn In]; try tauto.
  intros [->|H]; [now left | right; now apply IH].
Qed.

(** X14. Every cell that [parseCellRange] returns for a range whose
    rows and columns are safe integers is a valid cell reference, and
    so is the one cell returned for a text that is no range; the
    cells of a range with two ends are cells of the grid: each is the
    id that [getCellId] makes for a column and a row from 0 to the
    bound. *)
Theorem range_cells_are_valid (range id : string) :
  safeRange range ->
  In id (parseCellRange range) ->
  isValidCellReference id = true
  /\ (forall p0 p1, split ":" range = [p0; p1] ->
      exists col row, 0 <= col < MAX_SAFE_INTEGER /\ 0 <= row < MAX_SAFE_INTEGER
                      /\ id = getCellId col row).
Proof.
  set (goal := isValidCellReference id = true
               /\ (forall p0 p1, split ":" range = [p0; p1] ->
                   exists col row, 0 <= col < MAX_SAFE_INTEGER
                                   /\ 0 <= row < MAX_SAFE_INTEGER
                                   /\ id = getCellId col row)).
  assert (Hnil : In id (@nil string) -> goal) by (intros []).
  assert (Hone : In id (if isValidCellReference range then [range] else []) ->
                 (forall p0 p1, split ":" range <> [p0; p1]) -> goal).
  { destruct (isValidCellReference range) eqn:Hv; [|intros []].
    intros [<-|[]] Hc. split; [exact Hv|]. intros p0 p1 E. now apply Hc in E. }
  subst goal. unfold safeRange, rangeEnds, parseCellRange.
  destruct (isEmpty range); [intros _; exact Hnil|].
  destruct (split ":" range) as [|p0 [|p1 [|p2 rest]]] eqn:Es;
    try (intros _ H; apply Hone; [exact H | intros; congruence]).
  destruct (negb _ || negb _)%bool; [intros _; exact Hnil|].
  destruct (matchLettersDigits (trim p0)) as [[sl sd]|]; [|intros _; exact Hnil].
  destruct (matchLettersDigits (trim p1)) as [[el ed]|]; [|intros _; exact Hnil].
  destruct (parseDigits sd) as [startRow|]; [|intros _; exact Hnil].
  destruct (parseDigits ed) as [endRow|]; [|intros _; exact Hnil].
  intros (Hsc & Hsr & Hec & Her).
  destruct ((startRow <=? 0) || (endRow <=? 0))%bool eqn:Hrows; [exact Hnil|].
  cbv zeta. rewrite expansion_of_rectangle.
  intros Hin. apply firstn_incl in Hin. unfold rectangle in Hin.
  apply rowMajor_In in Hin as (col & row & Hcol & Hrow & ->).
  apply orb_false_iff in Hrows as [H0 H1].
  apply Z.leb_gt in H0. apply Z.leb_gt in H1.
  pose proof (columnLetterToIndex_positive sl).
  pose proof (columnLetterToIndex_positive el).
  rewrite rangeCellId_getCellId by lia.
  split.
  - apply getCellId_valid; lia.
  - intros _ _ _. exists (col - 1), (row - 1). repeat split; lia.
Qed.

Lemma range_cells_are_valid_witness :
  isValidCellReference "B3" = true
  /\ (forall p0 p1, split ":" "C3:A2" = [p0; p1] ->
      exists col row, 0 <= col < MAX_SAFE_INTEGER /\ 0 <= row < MAX_SAFE_INTEGER
                      /\ "B3" = getCellId col row).
Proof.
  apply (range_cells_are_valid "C3:A2" "B3").
  - vm_compute. repeat split; discriminate.
  - vm_compute. tauto.
Defined.

End RangeCells.

(** ** The arguments of a call *)

Section Arguments.
Import Js FormulaParser.

Definition noQuote (s : string) : bool := negb (existsb (fun c => Ascii.eqb c dquote) s).

(** The text cut at its commas, every part trimmed, and a blank last
    part left out. *)
Definition trimmedParts (s : string) : list string :=
  let parts := List.map trim (split "," s) in
  if isEmpty (last parts "") then removelast parts else parts.

Lemma split_cons (sep : ascii) (s : string) : exists h t, split sep s = h :: t.
Proof.
  induction s as [|c s (h & t & IH)]; cbn [split]; [now exists "", []|].
  destruct (Ascii.eqb c sep); [now exists "", (split sep s)|].
  rewrite IH. now exists (String c h), t.
Qed.

Lemma loop_without_quotes (s : string) :
  forall cur args h t,
    noQuote s = true -> split "," s = h :: t ->
    parseArguments_loop s cur false args
    = (args ++ List.map trim (removelast ((cur ++ h)%string :: t)),
       last ((cur ++ h)%string :: t) "").
Proof.
  induction s as [|c s IH]; intros cur args h t Hq Hs.
  - cbn [split] in Hs. injection Hs as <- <-. cbn [parseArguments_loop].
    cbn [removelast List.map last]. now rewrite List.app_nil_r, append_nil_r.
  - unfold noQuote in Hq. cbn [existsb] in Hq. apply negb_true_iff in Hq.
    apply orb_false_iff in Hq as [Hc Hq].
    assert (Hq' : noQuote s = true) by (unfold noQuote; now rewrite Hq).
    cbn [parseArguments_loop]. rewrite Hc. cbn [split] in Hs.
    destruct (split_cons "," s) as (h' & t' & Hs').
    destruct (Ascii.eqb c ",") eqn:Ecomma; cbn [andb negb].
    + rewrite Hs' in Hs. injection Hs as <- <-.
      rewrite (IH "" (args ++ [trim cur]) h' t' Hq' Hs').
      cbn [removelast List.map last append]. rewrite append_nil_r.
      rewrite <- List.app_assoc. reflexivity.
    + rewrite Hs' in Hs. injection Hs as <- <-.
      rewrite (IH (cur ++ String c "")%string args h' t' Hq' Hs').
      rewrite append_assoc. reflexivity.
Qed.

Lemma last_map {A B : Type} (f : A -> B) (x : A) (l : list A) (d : A) (d' : B) :
  last (List.map f (x :: l)) d' = f (last (x :: l) d).
Proof.
  revert x. induction l as [|y l IH]; intros x; [reflexivity|].
  cbn [List.map last] in *. apply IH.
Qed.

Lemma removelast_map {A B : Type} (f : A -> B) (l : list A) :
  removelast (List.map f l) = List.map f (removelast l).
Proof.
  induction l as [|x l IH]; [reflexivity|]. cbn [List.map removelast].
  destruct l as [|y l]; [reflexivity|]. cbn [List.map] in *. now rewrite IH.
Qed.

Lemma loop_inside_quotes (body : string) :
  forall rest cur args,
    noQuote body = true ->
    parseArguments_loop (body ++ rest)%string cur true args
    = parseArguments_loop rest (cur ++ body)%string true args.
Proof.
  induction body as [|c body IH]; intros rest cur args Hq.
  - cbn [append]. now rewrite append_nil_r.
  - unfold noQuote in Hq. cbn [existsb] in Hq. apply negb_true_iff in Hq.
    apply orb_false_iff in Hq as [Hc Hq].
    cbn [append parseArguments_loop]. rewrite Hc. cbn [negb]. rewrite andb_false_r.
    rewrite IH by (unfold noQuote; now rewrite Hq).
    now rewrite append_assoc.
Qed.

Lemma trim_id (s : string) :
  headFails isSpace s -> headFails isSpace (rev s) -> trim s = s.
Proof.
  intros H1 H2. unfold trim. rewrite (dropWhile_head isSpace s H1).
  rewrite (dropWhile_head isSpace (rev s) H2). apply rev_involutive.
Qed.

Lemma parseArguments_trimmedParts (argsString : string) :
  noQuote argsString = true -> parseArguments argsString = trimmedParts argsString.
Proof.
  intros Hq. unfold parseArguments, trimmedParts.
  destruct (split_cons "," argsString) as (h & t & Hs).
  destruct argsString as [|c s]; [cbn in Hs; injection Hs as <- <-; reflexivity|].
  cbn [isEmpty].
  rewrite (loop_without_quotes (String c s) "" [] h t Hq Hs). rewrite Hs.
  cbn [append app]. cbv zeta.
  rewrite (last_map trim h t "" ""), removelast_map.
  destruct (isEmpty (trim (last (h :: t) ""))) eqn:E; [reflexivity|].
  transitivity (List.map trim (removelast (h :: t) ++ [last (h :: t) ""])).
  - now rewrite List.map_app.
  - now rewrite <- app_removelast_last by discriminate.
Qed.

(** X15. [parseArguments] cuts the text of the arguments at the commas
    that stand outside double quotes. For a text without a double
    quote the arguments are the parts between the commas, each
    trimmed; a part that is blank stays as an empty argument, except
    the last one, which is left out. A text between double quotes is
    one argument, whatever commas it holds. *)
Theorem arguments_are_the_parts_between_commas (argsString body : string) :
  noQuote argsString = true -> noQuote body = true ->
  parseArguments argsString = trimmedParts argsString
  /\ parseArguments (quoted body) = [quoted body].
Proof.
  intros Hq Hb. split.
  - now apply parseArguments_trimmedParts.
  - unfold parseArguments, quoted. cbn [isEmpty parseArguments_loop].
    rewrite Ascii.eqb_refl. cbn [negb append].
    rewrite (loop_inside_quotes body (String dquote "") (String dquote "") [] Hb).
    cbn [parseArguments_loop]. rewrite Ascii.eqb_refl. cbn [negb app append].
    rewrite trim_id.
    + reflexivity.
    + reflexivity.
    + rewrite rev_cons, rev_app. reflexivity.
Qed.

Lemma arguments_are_the_parts_between_commas_witness :
  parseArguments " A1 ,, B2:C3,7 , " = trimmedParts " A1 ,, B2:C3,7 , "
  /\ parseArguments (quoted "x, y") = [quoted "x, y"].
Proof.
  apply arguments_are_the_parts_between_commas; reflexivity.
Defined.

Example parts_of_arguments : trimmedParts " A1 ,, B2:C3,7 , " = ["A1"; ""; "B2:C3"; "7"].
Proof. vm_compute. reflexivity. Qed.

End Arguments.

(** ** SUM and COUNT *)

Section SumAndCount.
Import Js FormulaParser FormulaFunctions.
Variable host : Host.
Variable getCellValue : string -> jsval.

(** The cells among the entries of a call. *)
Definition cellsOfEntries (es : list entry) : list string :=
  flat_map (fun e => match e with Cell id => [id] | Literal _ => [] end) es.

(** SUM adds every cell, and the literals that are numbers. *)
Definition summed (e : entry) : bool :=
  match e with
  | Cell _ => true
  | Literal text => negb (PrimFloat.is_nan (parseFloat host text))
  end.

(** COUNT counts the cells whose value is not the empty text and
    starts with a number, and the literals that are numbers. *)
Definition counted (e : entry) : bool :=
  match e with
  | Cell id => countsAsNumber host (getCellValue id)
  | Literal text => negb (PrimFloat.is_nan (parseFloat host text))
  end.

Definition sumStep (acc : float * StrSet) (e : entry) : float * StrSet :=
  match e with
  | Cell id => (PrimFloat.add (fst acc) (entryValue host getCellValue e),
                set_add id (snd acc))
  | Literal _ =>
      if summed e then (PrimFloat.add (fst acc) (entryValue host getCellValue e), snd acc)
      else acc
  end.

Lemma sumCell_step (cell : string) (acc : float * StrSet) :
  sumCell host getCellValue cell acc = sumStep acc (Cell cell).
Proof. destruct acc as [sum used]. reflexivity. Qed.

Lemma sumArg_step (arg : string) (acc : float * StrSet) :
  sumArg host getCellValue arg acc = fold_left sumStep (entriesOf arg) acc.
Proof.
  unfold sumArg, entriesOf. destruct (includesChar ":" arg).
  - generalize (parseCellRange arg). intros cells. revert acc.
    induction cells as [|c cells IH]; intros acc; cbn [fold_left List.map];
      [reflexivity|].
    now rewrite IH, sumCell_step.
  - destruct (isValidCellReference arg); cbn [fold_left].
    + apply sumCell_step.
    + destruct acc as [sum used]. cbn [sumStep summed entryValue fst snd].
      destruct (negb _); reflexivity.
Qed.

Lemma sumArgs_step (args : list string) :
  forall acc,
    fold_left (fun a arg => sumArg host getCellValue arg a) args acc
    = fold_left sumStep (flat_map entriesOf args) acc.
Proof.
  induction args as [|a args IH]; intros acc; cbn [fold_left flat_map]; [reflexivity|].
  now rewrite IH, sumArg_step, fold_left_app.
Qed.

Lemma sumStep_fold (es : list entry) :
  forall sum used,
    fold_left sumStep es (sum, used)
    = (sumOf host getCellValue (List.filter summed es) sum,
       addAll (cellsOfEntries es) used).
Proof.
  unfold sumOf, addAll, cellsOfEntries.
  induction es as [|e es IH]; intros sum used; [reflexivity|].
  cbn [fold_left List.filter flat_map].
  destruct e as [id|text].
  - cbn [sumStep summed fst snd app fold_left]. now rewrite IH.
  - cbn [sumStep fst snd app]. destruct (summed (Literal text)); cbn [fold_left];
      now rewrite IH.
Qed.

(** X16. SUM never fails and never returns an error marker. The
    result is the number that adding up, from 0 and from left to
    right, gives for the cells of the ranges, the single cells and
    the numeric literals among the arguments, where a cell that does
    not start with a number adds 0; every cell of every range and
    every single cell is recorded in [cellsUsed], in this order. A
    text without a call of SUM, or with an empty pair of parentheses,
    gives 0 and records nothing. *)
Theorem sum_adds_cells_and_literals (expression : string) (used : StrSet) :
  (forall argsText,
      matchCall "SUM" expression = Some argsText -> argsText <> "" ->
      let entries := flat_map entriesOf (parseArguments argsText) in
      evaluateSum host getCellValue expression used
      = (VNum (sumOf host getCellValue (List.filter summed entries) 0),
         addAll (cellsOfEntries entries) used))
  /\ (matchCall "SUM" expression = None \/ matchCall "SUM" expression = Some "" ->
      evaluateSum host getCellValue expression used = (VNum 0, used))
  /\ exists x, fst (evaluateSum host getCellValue expression used) = VNum x.
Proof.
  assert (Hargs : forall argsText,
             matchCall "SUM" expression = Some argsText -> argsText <> "" ->
             evaluateSum host getCellValue expression used
             = (VNum (sumOf host getCellValue
                        (List.filter summed (flat_map entriesOf (parseArguments argsText)))
                        0),
                addAll (cellsOfEntries (flat_map entriesOf (parseArguments argsText)))
                       used)).
  { intros argsText Hm Hne. unfold evaluateSum. rewrite Hm.
    destruct argsText as [|c t]; [congruence|]. cbn [isEmpty].
    now rewrite sumArgs_step, sumStep_fold. }
  assert (Hnone : matchCall "SUM" expression = None
                  \/ matchCall "SUM" expression = Some "" ->
                  evaluateSum host getCellValue expression used = (VNum 0, used)).
  { unfold evaluateSum. intros [->| ->]; reflexivity. }
  split; [exact Hargs|]. split; [exact Hnone|].
  destruct (matchCall "SUM" expression) as [[|c t]|] eqn:Hm.
  - rewrite Hnone by now right. now eexists.
  - rewrite (Hargs (String c t) eq_refl) by discriminate. now eexists.
  - rewrite Hnone by now left. now eexists.
Qed.

Definition countStep (acc : nat * StrSet) (e : entry) : nat * StrSet :=
  match e with
  | Cell id => (if counted e then S (fst acc) else fst acc, set_add id (snd acc))
  | Literal _ => if counted e then (S (fst acc), snd acc) else acc
  end.

Lemma countCell_step (cell : string) (acc : nat * StrSet) :
  countCell host getCellValue cell acc = countStep acc (Cell cell).
Proof.
  destruct acc as [count used]. unfold countCell. cbn [countStep counted fst snd].
  destruct (countsAsNumber host (getCellValue cell)); reflexivity.
Qed.

Lemma countArg_step (arg : string) (acc : nat * StrSet) :
  countArg host getCellValue arg acc = fold_left countStep (entriesOf arg) acc.
Proof.
  unfold countArg, entriesOf. destruct (includesChar ":" arg).
  - generalize (parseCellRange arg). intros cells. revert acc.
    induction cells as [|c cells IH]; intros acc; cbn [fold_left List.map];
      [reflexivity|].
    now rewrite IH, countCell_step.
  - destruct (isValidCellReference arg); cbn [fold_left].
    + apply countCell_step.
    + destruct acc as [count used]. cbn [countStep counted fst snd].
      destruct (negb _); reflexivity.
Qed.

Lemma countArgs_step (args : list string) :
  forall acc,
    fold_left (fun a arg => countArg host getCellValue arg a) args acc
    = fold_left countStep (flat_map entriesOf args) acc.
Proof.
  induction args as [|a args IH]; intros acc; cbn [fold_left flat_map]; [reflexivity|].
  now rewrite IH, countArg_step, fold_left_app.
Qed.

Lemma countStep_fold (es : list entry) :
  forall count used,
    fold_left countStep es (count, used)
    = ((count + length (List.filter counted es))%nat,
       addAll (cellsOfEntries es) used).
Proof.
  unfold addAll, cellsOfEntries.
  induction es as [|e es IH]; intros count used.
  - cbn. now rewrite Nat.add_0_r.
  - cbn [fold_left List.filter flat_map].
    destruct e as [id|text].
    + cbn [countStep fst snd app fold_left].
      destruct (counted (Cell id)); rewrite IH; cbn [length]; f_equal; lia.
    + cbn [countStep fst snd app].
      destruct (counted (Literal text)); rewrite IH; cbn [length]; f_equal; lia.
Qed.

Lemma counted_qualifies (e : entry) :
  counted e = true -> qualifies host getCellValue e = true.
Proof.
  destruct e as [id|text]; cbn [counted qualifies]; [|tauto].
  unfold countsAsNumber. intros H. now apply andb_true_iff in H as [H _].
Qed.

(** X17. COUNT returns the number of the entries that are numbers:
    the cells, of the ranges and single, whose value is not the empty
    text and starts with a number, and the numeric literals. All the
    cells are recorded in [cellsUsed], those that do not count too.
    Whatever COUNT counts, AVERAGE counts as well, but not the other
    way round: AVERAGE divides by the number of the cells that are
    not blank, so that a cell holding a text other than a number
    lowers the average and is not counted by COUNT. *)
Theorem count_counts_numbers (expression argsText : string) (used : StrSet) :
  matchCall "COUNT" expression = Some argsText -> argsText <> "" ->
  let entries := flat_map entriesOf (parseArguments argsText) in
  evaluateCount host getCellValue expression used
  = (VNum (natToFloat (length (List.filter counted entries))),
     addAll (cellsOfEntries entries) used)
  /\ length (List.filter counted entries)
     <= length (List.filter (qualifies host getCellValue) entries)
  /\ (forall id text,
         getCellValue id = VStr text -> text <> "" ->
         PrimFloat.is_nan (parseFloat host text) = true ->
         counted (Cell id) = false /\ qualifies host getCellValue (Cell id) = true).
Proof.
  intros Hm Hne entries. repeat split.
  - unfold evaluateCount. rewrite Hm.
    destruct argsText as [|c t]; [congruence|]. cbn [isEmpty].
    rewrite countArgs_step, countStep_fold. reflexivity.
  - generalize entries. intros es. induction es as [|e es IH]; cbn [List.filter]; [lia|].
    pose proof (counted_qualifies e) as H.
    destruct (counted e); [rewrite H by reflexivity; cbn [length]; lia|].
    destruct (qualifies host getCellValue e); cbn [length]; lia.
  - cbn [counted]. unfold countsAsNumber, parseFloatOf.
    match goal with H : getCellValue _ = _ |- _ => rewrite H end.
    cbn [toString isEmptyStr].
    match goal with H : PrimFloat.is_nan _ = true |- _ => rewrite H end.
    apply andb_false_r.
  - cbn [qualifies].
    match goal with H : getCellValue _ = _ |- _ => rewrite H end.
    cbn [isEmptyStr]. match goal with H : _ <> "" |- _ => revert H end.
    intros Ht. destruct text; [congruence | reflexivity].
Qed.

End SumAndCount.

Section SumAndCountExample.
Import Js FormulaParser FormulaFunctions.

(** A1 holds 1, A2 is blank, A3 holds a text, B1 holds 4. *)
Definition numbersSheet : string -> jsval :=
  Reference.sheetOf [("A1", VStr "1"); ("A3", VStr "n/a"); ("B1", VStr "4")].

Example sum_of_cells_and_literals :
  evaluateSum Reference.host numbersSheet "SUM(A1:A3, B1, 5, x)" ["C9"]
  = (VNum 10, ["C9"; "A1"; "A2"; "A3"; "B1"]).
Proof. vm_compute. reflexivity. Qed.

Lemma count_counts_numbers_witness :
  evaluateCount Reference.host numbersSheet "COUNT(A1:A3, B1, 5, x)" []
  = (VNum 3, ["A1"; "A2"; "A3"; "B1"]).
Proof.
  destruct (count_counts_numbers Reference.host numbersSheet
              "COUNT(A1:A3, B1, 5, x)" "A1:A3, B1, 5, x" []) as (H & _).
  - reflexivity.
  - discriminate.
  - rewrite H. vm_compute. reflexivity.
Defined.

End SumAndCountExample.

(** ** How far the propagation goes *)

Section Propagation.
Import Js FormulaParser Operations.
Variable host : Host.
Variable evalFuel : nat.
Variable st : State.


(** Every evaluation of a formula of the sheet ends within
    [evalFuel]. *)
Hypothesis evaluations_return :
  forall formula p, evaluateFormula host evalFuel st formula p <> None.

Section ForEach.
Variable reached : string -> string -> Prop.
Variable recur : string -> Parser * list Action -> option (Parser * list Action).
Hypothesis recur_complete :
  forall c acc r, recur c acc = Some r ->
                  exists more, snd r = snd acc ++ more
                               /\ forall b, reached c b -> dispatchedFor st b more.
Hypothesis recur_thrown :
  forall c acc, recur c acc = None -> forall b, ~ reached c b.


End ForEach.



End Propagation.

Section PropagationExample.
Import Js FormulaParser Operations.



(** With room for one call only, C1 is not reached: B1 gets its value
    and then the [#ERROR!] of the handler. *)
Example propagation_cut_by_the_stack :
  option_map snd
    (recalculateDependentCells Reference.host 5 chainState 1 "A1" (newParser [], []))
  = Some [APPLY_FORMULA "B1" "=A1+1" (VNum 2); APPLY_FORMULA "B1" "=A1+1" (VStr "#ERROR!")].
Proof. vm_compute. reflexivity. Qed.

End PropagationExample.

(** ** What a stored cell reads back as *)

Section StoredCells.
Import Js FormulaParser Operations FormulaFunctions.
Variable host : Host.


End StoredCells.

Section StoredCellsExample.
Import Js FormulaParser Operations FormulaFunctions.


End StoredCellsExample.

(** ** What the propagation dispatches *)

Section CachedPropagation.
Import Js FormulaParser Operations.
Variable host : Host.
Variable evalFuel : nat.
Variable st : State.
(** The cache when the propagation starts. *)
Variable cache : StrMap CacheEntry.

Hypothesis evalFuel_positive : 0 < evalFuel.
(** Every formula of the sheet has been evaluated before and is still
    in the cache. *)
Hypothesis formulas_cached :
  forall b, cellFormula (getCellData (cells st) b) <> "" ->
            startsWith "=" (cellFormula (getCellData (cells st) b)) = true
            /\ map_get (cellFormula (getCellData (cells st) b)) cache <> None.

(** An action that gives a cell the value that the cache holds for
    its formula. *)
Definition servedFromCache (a : Action) : Prop :=
  exists b e, a = APPLY_FORMULA b (cellFormula (getCellData (cells st) b)) (value e)
              /\ map_get (cellFormula (getCellData (cells st) b)) cache = Some e.

(** An action of the handler. *)
Definition caught (a : Action) : Prop := exists b, a = caughtFor st b.

Lemma recalculate_from_cache (fuel : nat) :
  forall c acc,
    evaluationCache (fst acc) = cache ->
    exists r more,
      recalculateDependentCells host evalFuel st (S fuel) c acc = Some r
      /\ evaluationCache (fst r) = cache
      /\ snd r = snd acc ++ more
      /\ Forall (fun a => servedFromCache a \/ caught a) more.
Proof.
  assert (Hforeach : forall recur : string -> Parser * list Action
                                    -> option (Parser * list Action),
             (forall c acc r,
                 evaluationCache (fst acc) = cache -> recur c acc = Some r ->
                 evaluationCache (fst r) = cache
                 /\ exists more, snd r = snd acc ++ more
                                 /\ Forall (fun a => servedFromCache a \/ caught a) more) ->
             forall l acc,
               evaluationCache (fst acc) = cache ->
               evaluationCache (fst (forEachDependent host evalFuel st recur l acc)) = cache
               /\ exists more,
                    snd (forEachDependent host evalFuel st recur l acc) = snd acc ++ more
                    /\ Forall (fun a => servedFromCache a \/ caught a) more).
  { intros recur Hrecur. induction l as [|b l IHl]; intros acc Hc; cbn [forEachDependent].
    - split; [exact Hc|]. exists []. now rewrite List.app_nil_r.
    - destruct (isEmpty (cellFormula (getCellData (cells st) b))) eqn:Hform;
        [now apply IHl|].
      destruct (formulas_cached b) as [Hf He].
      { intros E. rewrite E in Hform. discriminate. }
      destruct (map_get (cellFormula (getCellData (cells st) b)) cache) as [e|] eqn:Hget;
        [|congruence].
      unfold evaluateFormula. destruct evalFuel as [|k]; [lia|].
      rewrite (evaluate_hit host (getCellValue (cells st)) k _ (fst acc) e Hf)
        by (rewrite Hc; exact Hget).
      unfold evaluateHit.
      assert (Hserved : servedFromCache
                          (APPLY_FORMULA b (cellFormula (getCellData (cells st) b))
                                         (value e)))
        by (exists b, e; split; [reflexivity | exact Hget]).
      assert (Hcaught : caught (caughtFor st b)) by now exists b.
      destruct (recur b _) as [acc'|] eqn:Hrec.
      + apply Hrecur in Hrec; [|exact Hc]. cbn [snd] in Hrec.
        destruct Hrec as (Hc' & more1 & Hm1 & Hall1).
        destruct (IHl acc' Hc') as (Hcr & more2 & Hm2 & Hall2).
        split; [exact Hcr|].
        exists ([APPLY_FORMULA b (cellFormula (getCellData (cells st) b)) (value e)]
                ++ more1 ++ more2).
        split; [rewrite Hm2, Hm1; now rewrite <- !List.app_assoc|].
        apply Forall_app. split; [|apply Forall_app; split; assumption].
        constructor; [now left | constructor].
      + match goal with
        | |- context [forEachDependent _ _ _ _ l ?a] =>
            destruct (IHl a Hc) as (Hcr & more2 & Hm2 & Hall2)
        end.
        split; [exact Hcr|]. cbn [snd] in Hm2.
        exists ([APPLY_FORMULA b (cellFormula (getCellData (cells st) b)) (value e);
                 caughtFor st b] ++ more2).
        split; [rewrite Hm2; now rewrite <- !List.app_assoc|].
        apply Forall_app. split; [|assumption].
        constructor; [now left|]. constructor; [now right | constructor]. }
  assert (Hall : forall depth c acc r,
             evaluationCache (fst acc) = cache ->
             recalculateDependentCells host evalFuel st depth c acc = Some r ->
             evaluationCache (fst r) = cache
             /\ exists more, snd r = snd acc ++ more
                             /\ Forall (fun a => servedFromCache a \/ caught a) more).
  { induction depth as [|n IH]; intros c acc r Hc; [discriminate|].
    rewrite recalculate_unfold.
    destruct (map_get c (dependencies st)) as [dependentCells|]; intros [= <-].
    - now apply Hforeach.
    - split; [exact Hc|]. exists []. now rewrite List.app_nil_r. }
  intros c acc Hc.
  destruct (recalculate_returns host evalFuel st fuel c acc) as (r & _ & Hr & _).
  destruct (Hall (S fuel) c acc r Hc Hr) as (Hcr & more & Hm & Hserved).
  now exists r, more.
Qed.

(** X20. The propagation does not compute anything again that the
    cache holds. When the formulas of the sheet are all in the cache,
    [recalculateDependentCells] returns and leaves the cache as it is,
    and every action that it dispatches either gives a cell the value
    that the cache holds for the formula of this cell, the value of
    the evaluation before the change, whatever the sheet holds now, or
    is the [#ERROR!] that the handler dispatches for a cell when the
    stack has no room for the call that follows. *)
Theorem propagation_dispatches_cached_values
        (fuel : nat) (changedCellId : string) (acc : Parser * list Action) :
  evaluationCache (fst acc) = cache ->
  exists r more,
    recalculateDependentCells host evalFuel st (S fuel) changedCellId acc = Some r
    /\ evaluationCache (fst r) = cache
    /\ snd r = snd acc ++ more
    /\ forall a, In a more ->
                 (exists b e,
                     a = APPLY_FORMULA b (cellFormula (getCellData (cells st) b)) (value e)
                     /\ map_get (cellFormula (getCellData (cells st) b)) cache = Some e)
                 \/ (exists b,
                       a = APPLY_FORMULA b (cellFormula (getCellData (cells st) b))
                                         (VStr "#ERROR!")).
Proof.
  intros Hc.
  destruct (recalculate_from_cache fuel changedCellId acc Hc)
    as (r & more & Hr & Hcache & Hm & Hall).
  exists r, more. split; [exact Hr|]. split; [exact Hcache|]. split; [exact Hm|].
  intros a Ha. rewrite Forall_forall in Hall. exact (Hall a Ha).
Qed.

End CachedPropagation.

Section CachedPropagationExample.
Import Js FormulaParser Operations.

(** B1 holds the formula [=A1+1], evaluated when A1 held 1; A1 now
    holds 5. *)
Definition servedCache : StrMap CacheEntry :=
  [("=A1+1", {| value := VNum 2; FormulaParser.dependencies := ["A1"] |})].

Definition servedState : State :=
  {| cells := [("A1", {| cellValue := VStr "5"; cellFormula := "" |});
               ("B1", {| cellValue := VNum 2; cellFormula := "=A1+1" |})];
     dependencies := [("A1", ["B1"])];
     formulaParser := newParser servedCache |}.

Lemma servedState_cached (b : string) :
  cellFormula (getCellData (cells servedState) b) <> "" ->
  startsWith "=" (cellFormula (getCellData (cells servedState) b)) = true
  /\ map_get (cellFormula (getCellData (cells servedState) b)) servedCache <> None.
Proof.
  unfold getCellData, servedState. cbn [cells map_get].
  destruct (String.eqb b "A1"); [cbn; congruence|].
  destruct (String.eqb b "B1"); [cbn; split; [reflexivity | discriminate]|].
  cbn. congruence.
Qed.

Lemma propagation_dispatches_cached_values_witness :
  exists r more,
    recalculateDependentCells Reference.host 5 servedState 2 "A1"
                              (newParser servedCache, []) = Some r
    /\ evaluationCache (fst r) = servedCache
    /\ snd r = [] ++ more
    /\ forall a, In a more ->
                 (exists b e,
                     a = APPLY_FORMULA b (cellFormula (getCellData (cells servedState) b))
                                       (value e)
                     /\ map_get (cellFormula (getCellData (cells servedState) b))
                                servedCache = Some e)
                 \/ (exists b,
                       a = APPLY_FORMULA b (cellFormula (getCellData (cells servedState) b))
                                         (VStr "#ERROR!")).
Proof.
  apply (propagation_dispatches_cached_values Reference.host 5 servedState
           servedCache ltac:(lia) servedState_cached 1 "A1"
           (newParser servedCache, []) eq_refl).
Defined.

(** The value dispatched for B1 is the one of the cache, 2; an
    evaluation without the cache gives 6. *)
Example cached_value_dispatched :
  recalculateDependentCells Reference.host 5 servedState 2 "A1" (newParser servedCache, [])
  = Some (setCellsUsed ["A1"] (countCacheHit (newParser servedCache)),
          [APPLY_FORMULA "B1" "=A1+1" (VNum 2)])
  /\ evaluate Reference.host (getCellValue (cells servedState)) 5 (VStr "=A1+1")
              (newParser [])
     = Some (VNum 6, setEvaluationCache
                       [("=A1+1", {| value := VNum 6;
                                     FormulaParser.dependencies := ["A1"] |})]
                       (setCellsUsed ["A1"] (countCacheMiss (newParser [])))).
Proof. split; vm_compute; reflexivity. Qed.

End CachedPropagationExample.

(** ** The undo stack and the bulk updates (SpreadsheetContext.jsx) *)

Section UndoStack.
Import Js FormulaParser SpreadsheetContext.

Lemma lastElements_length {A : Type} (n : nat) (a : list A) :
  length (lastElements n a) = Nat.min (length a) n.
Proof. unfold lastElements. rewrite length_skipn. lia. Qed.

Lemma lastElements_suffix {A : Type} (n : nat) (a : list A) :
  exists dropped, a = dropped ++ lastElements n a.
Proof.
  unfold lastElements. exists (firstn (length a - n) a).
  now rewrite firstn_skipn.
Qed.

(** The formulas [applied] one after the other. *)
Definition applyFormulas (state : ContextState) (applied : list (string * string * jsval))
  : ContextState :=
  fold_left (fun s a => spreadsheetReducer s (APPLY_FORMULA (fst (fst a)) (snd (fst a))
                                                            (snd a)))
            applied state.

Lemma applyFormulas_length (applied : list (string * string * jsval)) :
  forall state,
    length (undoStack (applyFormulas state applied))
    = length (undoStack state) + length applied.
Proof.
  unfold applyFormulas.
  induction applied as [|a applied IH]; intros state; cbn [fold_left length]; [lia|].
  rewrite IH. cbn [spreadsheetReducer undoStack].
  rewrite List.length_app. cbn [length]. lia.
Qed.

(** X21. The undo stack is cut to 50 entries only when a plain value is
    stored. UPDATE_CELL keeps the newest 49 entries, in their order,
    and adds one that holds what the cell held before, so that at most
    50 remain; APPLY_FORMULA adds its entry to the whole stack, which
    grows by one with every formula applied, past 50 as well. Both
    empty the redo stack. *)
Theorem undo_stack_cut_by_values_only
        (state : ContextState) (cellId formula : string) (value : jsval)
        (applied : list (string * string * jsval)) :
  let previous := RestoreCell cellId (Operations.getCellData (sheetCells state) cellId) in
  let updated := spreadsheetReducer state (UPDATE_CELL cellId value formula) in
  let withFormula := spreadsheetReducer state (APPLY_FORMULA cellId formula value) in
  length (undoStack updated) = S (Nat.min (length (undoStack state)) 49)
  /\ length (undoStack updated) <= 50
  /\ (exists dropped kept,
         undoStack state = dropped ++ kept /\ undoStack updated = kept ++ [previous])
  /\ undoStack withFormula = undoStack state ++ [previous]
  /\ length (undoStack (applyFormulas state applied))
     = length (undoStack state) + length applied
  /\ redoStack updated = [] /\ redoStack withFormula = [].
Proof.
  intros previous updated withFormula. subst previous updated withFormula.
  cbn [spreadsheetReducer undoStack redoStack]. cbv zeta.
  change (50 - 1) with 49.
  assert (Hlen : length (lastElements 49 (undoStack state)
                         ++ [RestoreCell cellId
                               (Operations.getCellData (sheetCells state) cellId)])
                 = S (Nat.min (length (undoStack state)) 49)).
  { rewrite List.length_app, lastElements_length. cbn [length]. lia. }
  repeat split.
  - exact Hlen.
  - rewrite Hlen. lia.
  - destruct (lastElements_suffix 49 (undoStack state)) as [dropped Hd].
    exists dropped, (lastElements 49 (undoStack state)). split; [exact Hd | reflexivity].
  - apply applyFormulas_length.
Qed.

End UndoStack.

Section BulkUpdates.
Import Js FormulaParser SpreadsheetContext.

Lemma applyBulkUpdate_other (cells : Operations.Cells) (update : BulkUpdate) (id : string) :
  id <> bulkCellId update ->
  map_get id (applyBulkUpdate cells update) = map_get id cells.
Proof. intros H. unfold applyBulkUpdate. now apply map_get_set_other. Qed.

Lemma applyBulkUpdates_other (updates : list BulkUpdate) (id : string) :
  forall cells,
    ~ In id (List.map bulkCellId updates) ->
    map_get id (fold_left applyBulkUpdate updates cells) = map_get id cells.
Proof.
  induction updates as [|u updates IH]; intros cells Hn; cbn [fold_left]; [reflexivity|].
  cbn [List.map In] in Hn. rewrite IH by tauto.
  apply applyBulkUpdate_other. intros E. apply Hn. now left.
Qed.

Lemma backup_holds_previous (cells : Operations.Cells) (updates : list BulkUpdate)
      (id : string) :
  forall backup,
    (In id (List.map bulkCellId updates)
     \/ map_get id backup = Some (Operations.getCellData cells id)) ->
    map_get id (fold_left (fun backup update =>
                             map_set (bulkCellId update)
                                     (Operations.getCellData cells (bulkCellId update))
                                     backup)
                          updates backup)
    = Some (Operations.getCellData cells id).
Proof.
  induction updates as [|u updates IH]; intros backup H; cbn [fold_left].
  - destruct H as [[]|H]. exact H.
  - apply IH. cbn [List.map In] in H.
    destruct (String.eqb id (bulkCellId u)) eqn:E.
    + apply String.eqb_eq in E. subst id. right. apply map_get_set_same.
    + apply String.eqb_neq in E. destruct H as [[H|H]|H].
      * congruence.
      * now left.
      * right. now rewrite map_get_set_other.
Qed.

Definition limited (updates : list BulkUpdate) : list BulkUpdate := firstn 200 updates.

(** X22. A bulk update applies its first 200 updates and drops the
    others without notice: the state after it is the state that its
    first 200 updates alone give. A cell that none of these names
    stays as it was; one undo entry is added, whose backup holds, for
    every cell that one of these names, what the cell held before;
    and the redo stack is emptied. *)
Theorem bulk_update_applies_first_200
        (state : ContextState) (updates : list BulkUpdate) (cellId : string) :
  let after := spreadsheetReducer state (BULK_UPDATE_CELLS updates) in
  after = spreadsheetReducer state (BULK_UPDATE_CELLS (limited updates))
  /\ (~ In cellId (List.map bulkCellId (limited updates)) ->
      Operations.getCellData (sheetCells after) cellId
      = Operations.getCellData (sheetCells state) cellId)
  /\ (exists backup,
         undoStack after = undoStack state ++ [RestoreCells backup]
         /\ (In cellId (List.map bulkCellId (limited updates)) ->
             map_get cellId backup
             = Some (Operations.getCellData (sheetCells state) cellId)))
  /\ redoStack after = [].
Proof.
  intros after. subst after.
  assert (Hlim : (if (200 <? length updates)%nat then firstn 200 updates else updates)
                 = limited updates).
  { unfold limited. destruct (200 <? length updates)%nat eqn:E; [reflexivity|].
    apply Nat.ltb_ge in E. symmetry. now apply firstn_all2. }
  assert (Hlim2 : (if (200 <? length (limited updates))%nat
                   then firstn 200 (limited updates) else limited updates)
                  = limited updates).
  { unfold limited. destruct (200 <? length (firstn 200 updates))%nat eqn:E;
      [|reflexivity].
    apply Nat.ltb_lt in E. rewrite length_firstn in E. lia. }
  cbn [spreadsheetReducer]. cbv zeta. rewrite Hlim, Hlim2.
  cbn [sheetCells undoStack redoStack].
  repeat split.
  - intros Hn. unfold Operations.getCellData.
    now rewrite applyBulkUpdates_other.
  - eexists. split; [reflexivity|]. intros Hin.
    apply backup_holds_previous. now left.
Qed.

End BulkUpdates.

Section BulkUpdatesExample.
Import Js FormulaParser SpreadsheetContext.

(** 201 updates: the value 1 for the cells A1 to A200, then the value
    1 for B1. *)
Definition manyUpdates : list BulkUpdate :=
  List.map (fun n => {| bulkCellId := CellHelpers.getCellId 0 (Z.of_nat n);
                        bulkValue := VStr "1"; bulkFormula := None |})
           (seq 0 200)
  ++ [{| bulkCellId := "B1"; bulkValue := VStr "1"; bulkFormula := None |}].

Definition emptyState : ContextState :=
  {| sheetCells := []; selectedCells := []; undoStack := []; redoStack := [] |}.

Example last_update_dropped :
  let after := spreadsheetReducer emptyState (BULK_UPDATE_CELLS manyUpdates) in
  map_get "B1" (sheetCells after) = None
  /\ map_get "A200" (sheetCells after)
     = Some {| Operations.cellValue := VStr "1"; Operations.cellFormula := "" |}.
Proof. vm_compute. split; reflexivity. Qed.

End BulkUpdatesExample.

(** ** A formula written to a cell *)

Section FormulaUpdate.
Import Js FormulaParser Operations.
Variable host : Host.
Variable evalFuel : nat.
Variable st : State.

(** X23. Writing a formula to a cell changes this cell only. The cell
    gets the formula and the value that [evaluate] returns for it;
    every other cell keeps its value and its formula, the cells whose
    formulas read the cell that changed too: [updateCellValue] starts
    the propagation for a plain value, not for a formula. *)
Theorem formula_update_does_not_propagate
        (fuel : nat) (cellId text other : string) (st' : State) :
  startsWith "=" text = true ->
  other <> cellId ->
  updateCellValue host evalFuel st fuel cellId text = Some st' ->
  getCellData (cells st') other = getCellData (cells st) other
  /\ cellFormula (getCellData (cells st') cellId) = text
  /\ exists p,
       evaluateFormula host evalFuel st text (formulaParser st)
       = Some (cellValue (getCellData (cells st') cellId), p).
Proof.
  intros Hf Hne. unfold updateCellValue. rewrite Hf.
  destruct (evaluateFormula host evalFuel st text (formulaParser st))
    as [[v p]|] eqn:E; [|discriminate].
  intros [= <-]. cbn [cells reducer]. unfold getCellData.
  rewrite map_get_set_other by assumption. rewrite map_get_set_same.
  cbn [cellFormula cellValue]. repeat split. now exists p.
Qed.

End FormulaUpdate.

Section FormulaUpdateExample.
Import Js FormulaParser Operations.

(** In [chainState] B1 holds [=A1+1] and is recorded as depending on
    A1; A1 is given the formula [=9]. *)
Lemma formula_update_does_not_propagate_witness :
  exists st',
    updateCellValue Reference.host 5 chainState 3 "A1" "=9" = Some st'
    /\ hasEdge (dependencies chainState) "A1" "B1" = true
    /\ getCellData (cells st') "B1" = getCellData (cells chainState) "B1"
    /\ cellFormula (getCellData (cells st') "A1") = "=9"
    /\ exists p,
         evaluateFormula Reference.host 5 chainState "=9" (formulaParser chainState)
         = Some (cellValue (getCellData (cells st') "A1"), p).
Proof.
  destruct (updateCellValue Reference.host 5 chainState 3 "A1" "=9") as [st'|] eqn:E;
    [|vm_compute in E; discriminate].
  exists st'. split; [reflexivity|]. split; [reflexivity|].
  apply (formula_update_does_not_propagate Reference.host 5 chainState 3 "A1" "=9" "B1" st');
    [reflexivity | discriminate | exact E].
Defined.

End FormulaUpdateExample.

(** ** Copying (clipboardActions.js) *)

From Stdlib Require Import Sorted Permutation.

Section Copying.
Import Js CellHelpers FormulaParser ClipboardActions.
Local Open Scope Z_scope.


















Example copied_range :
  option_map (option_map range)
             (copyCells (Some ["B3"; "A3"; "D1"])
                        (fun _ => {| Operations.cellValue := VStr "x";
                                     Operations.cellFormula := "" |}))
  = Some (Some ["D1"; "A3"; "B3"]).
Proof. vm_compute. reflexivity. Qed.

End Copying.

(** ** NOT, and what counts as true *)

From Stdlib Require Import FloatAxioms.

Section Negation.
Import Js FormulaParser FormulaFunctions.
Variable host : Host.
Variable getCellValue : string -> jsval.

(** NaN is different from 0, as from every number. *)
Lemma nan_is_not_zero (x : float) :
  PrimFloat.is_nan x = true -> PrimFloat.eqb x 0 = false.
Proof.
  unfold PrimFloat.is_nan. rewrite !eqb_spec.
  destruct (Prim2SF x) as [s|s| |s m e].
  - destruct s; discriminate.
  - destruct s; discriminate.
  - intros _. reflexivity.
  - unfold SFeqb, SFcompare.
    rewrite Z.compare_refl, Pos.compare_cont_refl. destruct s; discriminate.
Qed.

Definition noComma (s : string) : bool := negb (existsb (fun c => Ascii.eqb c ",") s).

Lemma single_argument (argText : string) :
  noQuote argText = true -> noComma argText = true -> trim argText <> "" ->
  parseArguments argText = [trim argText].
Proof.
  intros Hq Hc Ht.
  assert (Hsplit : split "," argText = [argText]).
  { clear Hq Ht. induction argText as [|c s IH]; [reflexivity|].
    unfold noComma in Hc. cbn [existsb] in Hc. apply negb_true_iff in Hc.
    apply orb_false_iff in Hc as [Hc Hs]. cbn [split]. rewrite Hc.
    rewrite IH by (unfold noComma; now rewrite Hs). reflexivity. }
  rewrite (parseArguments_trimmedParts argText Hq). unfold trimmedParts. rewrite Hsplit. cbn [List.map last].
  destruct (trim argText); [congruence | reflexivity].
Qed.

(** X25. NOT is the negation of AND and of OR of the same argument:
    for a text that is one argument, NOT returns true where AND and
    OR return false, and false where they return true, and the three
    record the same cell. All three take for true every text that
    does not start with a number, the blank cell and the text
    [false] among them; a text is false only when [parseFloat] reads
    0 from it. *)
Theorem not_negates_and_or
        (notExpression andExpression orExpression argText : string) (used : StrSet) :
  matchCall "NOT" notExpression = Some argText ->
  matchCall "AND" andExpression = Some argText ->
  matchCall "OR" orExpression = Some argText ->
  noQuote argText = true -> noComma argText = true -> trim argText <> "" ->
  (exists truth used',
      evaluateAnd host getCellValue andExpression used = (VBool truth, used')
      /\ evaluateOr host getCellValue orExpression used = (VBool truth, used')
      /\ evaluateNot host getCellValue notExpression used = (VBool (negb truth), used'))
  /\ (forall text, PrimFloat.is_nan (parseFloat host text) = true ->
                   toBoolean host (VStr text) = true).
Proof.
  intros Hn Ha Ho Hq Hc Ht. split.
  - assert (Hne : isEmpty argText = false).
    { destruct argText; [|reflexivity]. exfalso. apply Ht. reflexivity. }
    unfold evaluateAnd, evaluateOr, evaluateNot. rewrite Hn, Ha, Ho, Hne.
    rewrite (single_argument argText Hq Hc Ht). cbn [andLoop orLoop].
    destruct (logicalArg host getCellValue (trim argText) used) as [v used'].
    exists (toBoolean host v), used'.
    destruct (toBoolean host v); repeat split.
  - intros text Hnan. cbn [toBoolean]. rewrite (nan_is_not_zero _ Hnan).
    now rewrite orb_true_r.
Qed.

End Negation.

Section NegationExample.
Import Js FormulaParser FormulaFunctions.

(** A1 holds the text [false], B1 is blank. *)
Definition truthSheet : string -> jsval := Reference.sheetOf [("A1", VStr "false")].

Lemma not_negates_and_or_witness :
  (exists truth used',
      evaluateAnd Reference.host truthSheet "AND(A1)" [] = (VBool truth, used')
      /\ evaluateOr Reference.host truthSheet "OR(A1)" [] = (VBool truth, used')
      /\ evaluateNot Reference.host truthSheet "NOT(A1)" [] = (VBool (negb truth), used'))
  /\ (forall text, PrimFloat.is_nan (parseFloat Reference.host text) = true ->
                   toBoolean Reference.host (VStr text) = true).
Proof.
  apply (not_negates_and_or Reference.host truthSheet "NOT(A1)" "AND(A1)" "OR(A1)" "A1" []);
    try reflexivity. discriminate.
Defined.

Example text_false_is_true :
  evaluateNot Reference.host truthSheet "NOT(A1)" [] = (VBool false, ["A1"])
  /\ evaluateNot Reference.host truthSheet "NOT(B1)" [] = (VBool false, ["B1"])
  /\ evaluateNot Reference.host truthSheet "NOT(0)" [] = (VBool true, []).
Proof. vm_compute. repeat split. Qed.

End NegationExample.
